(** * PBStx frame transport (fw/pbstx.c): receiver and sender

    A shallow embedding of [pbstx_receive] and [pbstx_send].  The C
    functions talk to a ChibiOS byte channel, a mutex, the alert LED
    module and the OpenPilot CRC helpers; none of those is part of
    pbstx.c, so they appear here as the fields of a [Platform] and every
    call is threaded through an explicit machine state that also keeps a
    chronological trace of the calls made. *)

From Stdlib Require Import ZArith List Bool Lia.
Import ListNotations.
Open Scope Z_scope.

(** ** Integer types *)

(** Conversion to [uint8_t]. *)
Definition u8 (z : Z) : Z := z mod 256.

(** [#define HDR_START 0xa5] and [#define MAX_PAYLOAD 255]. *)
Definition HDR_START : Z := 0xa5.
Definition MAX_PAYLOAD : Z := 255.

(** [enum rx_state].  The variable [rx_state] is a function-local static
    that is only ever assigned one of the six enumerators, so the
    [default:] arm of the switch has no counterpart here. *)
Inductive rx_state_t : Type :=
| PR_WAIT_START
| PR_SEQ
| PR_MSGID
| PR_LEN
| PR_PAYLOAD
| PR_CRC.

(** Arguments of [alert_component] (alert_led.h); only the values used
    by pbstx.c. *)
Inductive alert_subsystem : Type := ALS_COMM.
Inductive alert_level : Type := AL_NORMAL | AL_FAIL.

(** ** Calls that leave pbstx.c *)

Inductive event : Type :=
| EvShouldTerminate (answer : bool)
| EvGet (timeout ret : Z)
| EvRead (n timeout ret : Z) (data : list Z)
| EvWrite (bytes : list Z) (timeout ret : Z)
| EvPut (b timeout ret : Z)
| EvAlert (c : alert_subsystem) (l : alert_level)
| EvLock
| EvUnlock.

(** What pbstx.c takes from outside: the ChibiOS result codes and tick
    conversion, the thread termination flag, the channel [m_stream]
    (one byte or a block, in and out, each with a timeout), the transmit
    mutex, the alert module and the CRC-8 step.  [chnReadTimeout n t w]
    gives the value the call returns and the bytes it stored at the front
    of the destination buffer. *)
Class Platform : Type := {
  W : Type;
  RDY_OK : Z;
  RDY_RESET : Z;
  Q_TIMEOUT : Z;
  Q_RESET : Z;
  MS2ST : Z -> Z;
  chThdShouldTerminate : W -> bool * W;
  chnGetTimeout : Z -> W -> Z * W;
  chnReadTimeout : Z -> Z -> W -> (Z * list Z) * W;
  chnWriteTimeout : list Z -> Z -> W -> Z * W;
  chnPutTimeout : Z -> Z -> W -> Z * W;
  chMtxLock : W -> W;
  chMtxUnlock : W -> W;
  alert_component : alert_subsystem -> alert_level -> W -> W;
  crc8_update : Z -> Z -> Z
}.

Section Model.

Context {P : Platform}.

(** fw_common.h: [MSG_OK] is [RDY_OK], [MSG_RESET] is [RDY_RESET]. *)
Definition MSG_OK : Z := RDY_OK.
Definition MSG_RESET : Z := RDY_RESET.

(** [SER_TIMEOUT] and [SER_PAYLOAD_TIMEOUT]. *)
Definition SER_TIMEOUT : Z := MS2ST 10.
Definition SER_PAYLOAD_TIMEOUT : Z := MS2ST 50.

(** The test [ret == Q_TIMEOUT || ret == Q_RESET]. *)
Definition chan_failed (ret : Z) : bool := (ret =? Q_TIMEOUT) || (ret =? Q_RESET).

(** *** CRC helpers (pios_crc.h) *)

(** Modelled from the spec: pios_crc.c is missing; [crc8_update] of the
    platform is the one-step CRC-8 over a running accumulator, and the
    conversions are the [uint8_t] parameter and result types of
    [PIOS_CRC_updateByte]. *)
Definition PIOS_CRC_updateByte (crc data : Z) : Z :=
  u8 (crc8_update (u8 crc) (u8 data)).

(** Modelled from the spec: pios_crc.c is missing; the block update
    folds the one-step update over the first [len] bytes of a buffer. *)
Definition PIOS_CRC_updateCRC (crc : Z) (data : list Z) (len : Z) : Z :=
  fold_left PIOS_CRC_updateByte (firstn (Z.to_nat len) data) crc.

(** CRC-8 of a byte sequence, from a zero accumulator. *)
Definition crc8 (bytes : list Z) : Z := fold_left PIOS_CRC_updateByte bytes 0.

(** *** Machine state *)

(** The outside world, the trace of calls so far, the statics of the
    two functions ([seq], [pkt_crc], [rx_state] of [pbstx_receive] and
    [tx_seq] of [pbstx_send]) and the three objects the out-parameters of
    [pbstx_receive] point to, taken to be pairwise disjoint. *)
Record machine : Type := mkMachine {
  world : W;
  trace : list event;
  seq : Z;
  pkt_crc : Z;
  rx_state : rx_state_t;
  tx_seq : Z;
  msgid_cell : Z;
  payload_buf : list Z;
  payload_len_cell : Z
}.

Definition set_world (w : W) (s : machine) : machine :=
  mkMachine w (trace s) (seq s) (pkt_crc s) (rx_state s) (tx_seq s)
            (msgid_cell s) (payload_buf s) (payload_len_cell s).
Definition log (e : event) (s : machine) : machine :=
  mkMachine (world s) (trace s ++ [e]) (seq s) (pkt_crc s) (rx_state s) (tx_seq s)
            (msgid_cell s) (payload_buf s) (payload_len_cell s).
Definition set_seq (v : Z) (s : machine) : machine :=
  mkMachine (world s) (trace s) v (pkt_crc s) (rx_state s) (tx_seq s)
            (msgid_cell s) (payload_buf s) (payload_len_cell s).
Definition set_pkt_crc (v : Z) (s : machine) : machine :=
  mkMachine (world s) (trace s) (seq s) v (rx_state s) (tx_seq s)
            (msgid_cell s) (payload_buf s) (payload_len_cell s).
Definition set_rx_state (v : rx_state_t) (s : machine) : machine :=
  mkMachine (world s) (trace s) (seq s) (pkt_crc s) v (tx_seq s)
            (msgid_cell s) (payload_buf s) (payload_len_cell s).
Definition set_tx_seq (v : Z) (s : machine) : machine :=
  mkMachine (world s) (trace s) (seq s) (pkt_crc s) (rx_state s) v
            (msgid_cell s) (payload_buf s) (payload_len_cell s).
Definition set_msgid (v : Z) (s : machine) : machine :=
  mkMachine (world s) (trace s) (seq s) (pkt_crc s) (rx_state s) (tx_seq s)
            v (payload_buf s) (payload_len_cell s).
Definition set_payload (v : list Z) (s : machine) : machine :=
  mkMachine (world s) (trace s) (seq s) (pkt_crc s) (rx_state s) (tx_seq s)
            (msgid_cell s) v (payload_len_cell s).
Definition set_payload_len (v : Z) (s : machine) : machine :=
  mkMachine (world s) (trace s) (seq s) (pkt_crc s) (rx_state s) (tx_seq s)
            (msgid_cell s) (payload_buf s) v.

(** Overwrite the front of a buffer. *)
Definition store (data buf : list Z) : list Z :=
  data ++ skipn (length data) buf.

(** *** Calls, as state transformers that log themselves *)

Definition M (A : Type) : Type := machine -> A * machine.

Definition mret {A} (a : A) : M A := fun s => (a, s).
Definition mbind {A B} (c : M A) (k : A -> M B) : M B :=
  fun s => let (a, s') := c s in k a s'.
Definition modify (f : machine -> machine) : M unit := fun s => (tt, f s).
Definition gets {A} (f : machine -> A) : M A := fun s => (f s, s).

Notation "x <- c ;; k" := (mbind c (fun x => k))
  (at level 61, c at next level, right associativity).
Notation "c ;;; k" := (mbind c (fun _ => k))
  (at level 61, right associativity).

Definition do_chThdShouldTerminate : M bool := fun s =>
  let (b, w) := chThdShouldTerminate (world s) in
  (b, log (EvShouldTerminate b) (set_world w s)).

Definition do_chnGetTimeout (t : Z) : M Z := fun s =>
  let (r, w) := chnGetTimeout t (world s) in
  (r, log (EvGet t r) (set_world w s)).

(** The block read stores at most [n] bytes into [payload]. *)
Definition do_chnReadTimeout (n t : Z) : M Z := fun s =>
  let '(r, data, w) := chnReadTimeout n t (world s) in
  let data := firstn (Z.to_nat n) data in
  (r, log (EvRead n t r data)
          (set_payload (store data (payload_buf s)) (set_world w s))).

Definition do_chnWriteTimeout (bytes : list Z) (t : Z) : M Z := fun s =>
  let (r, w) := chnWriteTimeout bytes t (world s) in
  (r, log (EvWrite bytes t r) (set_world w s)).

Definition do_chnPutTimeout (b t : Z) : M Z := fun s =>
  let (r, w) := chnPutTimeout b t (world s) in
  (r, log (EvPut b t r) (set_world w s)).

Definition do_chMtxLock : M unit := fun s =>
  (tt, log EvLock (set_world (chMtxLock (world s)) s)).

Definition do_chMtxUnlock : M unit := fun s =>
  (tt, log EvUnlock (set_world (chMtxUnlock (world s)) s)).

Definition do_alert_component (c : alert_subsystem) (l : alert_level) : M unit :=
  fun s => (tt, log (EvAlert c l) (set_world (alert_component c l (world s)) s)).

(** *** pbstx_receive *)

(** [case PR_PAYLOAD:], also reached by falling through from [PR_LEN].
    [Some r] is [return r]; [None] is [break]. *)
Definition case_PR_PAYLOAD : M (option Z) :=
  len <- gets payload_len_cell ;;
  ret <- do_chnReadTimeout len SER_PAYLOAD_TIMEOUT ;;
  if chan_failed ret then
    do_alert_component ALS_COMM AL_FAIL ;;;
    modify (set_rx_state PR_WAIT_START) ;;;
    mret (Some ret)
  else
    crc <- gets pkt_crc ;;
    buf <- gets payload_buf ;;
    modify (set_pkt_crc (PIOS_CRC_updateCRC crc buf len)) ;;;
    modify (set_rx_state PR_CRC) ;;;
    mret None.

(** The [switch (rx_state)] on a byte [ret] just received. *)
Definition rx_switch (ret : Z) : M (option Z) :=
  st <- gets rx_state ;;
  match st with
  | PR_WAIT_START =>
      (if ret =? HDR_START then modify (set_rx_state PR_SEQ) else mret tt) ;;;
      mret None
  | PR_SEQ =>
      modify (set_seq (u8 ret)) ;;;
      modify (set_pkt_crc (PIOS_CRC_updateByte 0 ret)) ;;;
      modify (set_rx_state PR_MSGID) ;;;
      mret None
  | PR_MSGID =>
      modify (set_msgid (u8 ret)) ;;;
      crc <- gets pkt_crc ;;
      modify (set_pkt_crc (PIOS_CRC_updateByte crc ret)) ;;;
      modify (set_rx_state PR_LEN) ;;;
      mret None
  | PR_LEN =>
      modify (set_payload_len (u8 ret)) ;;;
      crc <- gets pkt_crc ;;
      modify (set_pkt_crc (PIOS_CRC_updateByte crc ret)) ;;;
      modify (set_rx_state PR_PAYLOAD) ;;;
      len <- gets payload_len_cell ;;
      if len =? 0 then
        modify (set_rx_state PR_CRC) ;;;
        mret None
      else
        case_PR_PAYLOAD
  | PR_PAYLOAD => case_PR_PAYLOAD
  | PR_CRC =>
      modify (set_rx_state PR_WAIT_START) ;;;
      crc <- gets pkt_crc ;;
      if crc =? ret then
        do_alert_component ALS_COMM AL_NORMAL ;;;
        mret (Some MSG_OK)
      else
        do_alert_component ALS_COMM AL_FAIL ;;;
        mret (Some MSG_RESET)
  end.

(** The body of the [while] loop: one single-byte read, then the switch. *)
Definition rx_loop_body : M (option Z) :=
  ret <- do_chnGetTimeout SER_TIMEOUT ;;
  if chan_failed ret then mret (Some ret) else rx_switch ret.

(** [pbstx_receive].  The loop runs for as long as bytes keep arriving
    that complete no frame, so it is given fuel: [None] is "still
    looping after [fuel] iterations", [Some r] is [return r]. *)
Fixpoint pbstx_receive (fuel : nat) : M (option Z) :=
  match fuel with
  | O => mret None
  | S fuel' =>
      stop <- do_chThdShouldTerminate ;;
      if stop then mret (Some MSG_RESET)
      else
        r <- rx_loop_body ;;
        match r with
        | Some v => mret (Some v)
        | None => pbstx_receive fuel'
        end
  end.

(** *** pbstx_send *)

(** The label [unlock_ret:]. *)
Definition unlock_ret (ret : Z) : M Z :=
  do_chMtxUnlock ;;; mret ret.

(** The last write, [chnPutTimeout(m_stream, crc, SER_TIMEOUT)], running
    into [unlock_ret]. *)
Definition send_crc (crc : Z) : M Z :=
  ret <- do_chnPutTimeout crc SER_TIMEOUT ;;
  unlock_ret ret.

(** The arguments are [uint8_t msgid], [const uint8_t *payload] (the
    bytes at that address) and [uint8_t payload_len]. *)
Definition pbstx_send (msgid : Z) (payload : list Z) (payload_len : Z) : M Z :=
  let msgid := u8 msgid in
  let payload_len := u8 payload_len in
  seq0 <- gets tx_seq ;;
  modify (set_tx_seq (u8 (seq0 + 1))) ;;;
  let header := [HDR_START; seq0; msgid; payload_len] in
  do_chMtxLock ;;;
  let crc := PIOS_CRC_updateCRC 0 (tl header) 3 in
  ret <- do_chnWriteTimeout header SER_TIMEOUT ;;
  if chan_failed ret then unlock_ret ret
  else if 0 <? payload_len then
    let crc := PIOS_CRC_updateCRC crc payload payload_len in
    ret <- do_chnWriteTimeout (firstn (Z.to_nat payload_len) payload)
                              SER_PAYLOAD_TIMEOUT ;;
    if chan_failed ret then unlock_ret ret
    else send_crc crc
  else send_crc crc.

(** *** Reading a trace *)

(** The bytes handed to the channel, in order. *)
Fixpoint tx_bytes (evs : list event) : list Z :=
  match evs with
  | [] => []
  | EvWrite bytes _ _ :: evs' => bytes ++ tx_bytes evs'
  | EvPut b _ _ :: evs' => b :: tx_bytes evs'
  | _ :: evs' => tx_bytes evs'
  end.

Definition is_alert (e : event) : bool :=
  match e with EvAlert _ _ => true | _ => false end.

Definition is_chan_read (e : event) : bool :=
  match e with EvGet _ _ | EvRead _ _ _ _ => true | _ => false end.

Definition is_put (e : event) : bool :=
  match e with EvPut _ _ _ => true | _ => false end.

Definition is_term_check (e : event) : bool :=
  match e with EvShouldTerminate _ => true | _ => false end.

(** The calls the [switch] of the loop body can make. *)
Definition is_switch_call (e : event) : bool :=
  match e with EvRead _ _ _ _ | EvAlert _ _ => true | _ => false end.

(** The calls of a run of the receive loop and its result, iteration by
    iteration; [n] counts the evaluations of the loop condition.  An
    iteration is one termination check and, when the answer is no, the
    loop body: the single-byte read that opens it, then what the switch
    does on the byte, which is a block read or an alert at most and
    never a check or another single-byte read.  A yes ends the run with
    [MSG_RESET]. *)
Inductive loop_run : nat -> list event -> option Z -> Prop :=
| loop_run_fuel : loop_run 0 [] None
| loop_run_stop : loop_run 1 [EvShouldTerminate true] (Some MSG_RESET)
| loop_run_return r body v :
    forallb is_switch_call body = true ->
    loop_run 1 (EvShouldTerminate false :: EvGet SER_TIMEOUT r :: body) (Some v)
| loop_run_next n r body rest res :
    forallb is_switch_call body = true ->
    loop_run n rest res ->
    loop_run (S n)
             (EvShouldTerminate false :: EvGet SER_TIMEOUT r :: body ++ rest) res.

(** The four ways through [pbstx_send], by what the writes return. *)
Inductive send_path (hdr body : list Z) (crc : Z) (n : Z)
  : list event -> Z -> Prop :=
| send_hdr_failed r1 :
    chan_failed r1 = true ->
    send_path hdr body crc n
      [EvLock; EvWrite hdr SER_TIMEOUT r1; EvUnlock] r1
| send_payload_failed r1 r2 :
    chan_failed r1 = false -> 0 < n -> chan_failed r2 = true ->
    send_path hdr body crc n
      [EvLock; EvWrite hdr SER_TIMEOUT r1;
       EvWrite body SER_PAYLOAD_TIMEOUT r2; EvUnlock] r2
| send_with_payload r1 r2 r3 :
    chan_failed r1 = false -> 0 < n -> chan_failed r2 = false ->
    send_path hdr body crc n
      [EvLock; EvWrite hdr SER_TIMEOUT r1;
       EvWrite body SER_PAYLOAD_TIMEOUT r2;
       EvPut crc SER_TIMEOUT r3; EvUnlock] r3
| send_without_payload r1 r3 :
    chan_failed r1 = false -> n <= 0 ->
    send_path hdr body crc n
      [EvLock; EvWrite hdr SER_TIMEOUT r1;
       EvPut crc SER_TIMEOUT r3; EvUnlock] r3.

(** *** Frames *)

Definition is_byte (b : Z) : Prop := 0 <= b < 256.

(** The wire frame for sequence [sq], message-id [m] and payload [p]:
    [[0xA5][seq][msgid][len][payload][crc]]. *)
Definition frame (sq m : Z) (p : list Z) : list Z :=
  let len := Z.of_nat (length p) in
  HDR_START :: sq :: m :: len :: p ++ [crc8 (sq :: m :: len :: p)].

(** Calling [pbstx_receive] [k] times in a row, each call with [fuel]. *)
Fixpoint receive_calls (fuel k : nat) (s : machine) : list (option Z) * machine :=
  match k with
  | O => ([], s)
  | S k' =>
      let (r, s1) := pbstx_receive fuel s in
      let (rs, s2) := receive_calls fuel k' s1 in
      (r :: rs, s2)
  end.

(** *** What the channel delivers *)

(** The channel hands the receiver the bytes [bs] one at a time, from
    world [w] to world [w']: before each the termination flag is down,
    and the single-byte read returns the byte, which is not one of the
    two codes the code takes for a failure. *)
Inductive delivers : W -> list Z -> W -> Prop :=
| delivers_nil w : delivers w [] w
| delivers_cons w w1 w2 b bs w' :
    chThdShouldTerminate w = (false, w1) ->
    chnGetTimeout SER_TIMEOUT w1 = (b, w2) ->
    chan_failed b = false ->
    delivers w2 bs w' ->
    delivers w (b :: bs) w'.

(** The block read of a payload of [n] bytes goes through at [w]: for
    [n] = 0 there is none; otherwise it returns something other than
    the two failure codes, having stored [data]. *)
Definition delivers_payload (w : W) (n : Z) (data : list Z) (w' : W) : Prop :=
  if n =? 0 then data = [] /\ w' = w
  else exists r d,
    chnReadTimeout n SER_PAYLOAD_TIMEOUT w = (r, d, w') /\
    chan_failed r = false /\
    data = firstn (Z.to_nat n) d.

(** *** The receiver between calls *)

(** The states calls of the two functions lead to from [s0], whatever
    their order and whatever fuel the receive calls are given. *)
Inductive reached (s0 : machine) : machine -> Prop :=
| reached_start : reached s0 s0
| reached_receive fuel s :
    reached s0 s -> reached s0 (snd (pbstx_receive fuel s))
| reached_send msgid payload payload_len s :
    reached s0 s -> reached s0 (snd (pbstx_send msgid payload payload_len s)).

(** The fields of the frame being received that the receiver has taken
    in and stored by the time it is in a given state, in wire order. *)
Definition frame_fields (s : machine) : list Z :=
  match rx_state s with
  | PR_WAIT_START | PR_SEQ => []
  | PR_MSGID => [seq s]
  | PR_LEN => [seq s; msgid_cell s]
  | PR_PAYLOAD => [seq s; msgid_cell s; payload_len_cell s]
  | PR_CRC =>
      seq s :: msgid_cell s :: payload_len_cell s ::
      firstn (Z.to_nat (payload_len_cell s)) (payload_buf s)
  end.

(** [pkt_crc] is the CRC-8 of those fields; before the sequence byte
    has arrived it is whatever the last frame left. *)
Definition crc_covers_frame (s : machine) : Prop :=
  match rx_state s with
  | PR_WAIT_START | PR_SEQ => True
  | _ => pkt_crc s = crc8 (frame_fields s)
  end.

End Model.

(** ** A scripted platform

    A channel fed from a script: what will arrive on the receive side,
    item by item, the answers the termination flag will give, and the
    results the write calls will report.  The result codes are those of
    ChibiOS 2.x ([RDY_OK] 0, [RDY_TIMEOUT] -1, [RDY_RESET] -2, with
    [Q_TIMEOUT] and [Q_RESET] defined as the latter two) and one system
    tick is one millisecond.  A single-byte read of an empty script
    times out.  A block read reports a gap or a reset in the script the
    way pbstx.c tests for it, by returning the code. *)

Inductive rx_item : Type :=
| RxByte (b : Z)
| RxTimeout
| RxReset.

Record stream_world : Type := mkStream {
  rxq : list rx_item;
  term_script : list bool;
  tx_script : list Z
}.

Definition stream_should_terminate (w : stream_world) : bool * stream_world :=
  match term_script w with
  | [] => (false, w)
  | b :: t => (b, mkStream (rxq w) t (tx_script w))
  end.

Definition stream_get (t : Z) (w : stream_world) : Z * stream_world :=
  match rxq w with
  | [] => (-1, w)
  | RxByte b :: q => (b, mkStream q (term_script w) (tx_script w))
  | RxTimeout :: q => (-1, mkStream q (term_script w) (tx_script w))
  | RxReset :: q => (-2, mkStream q (term_script w) (tx_script w))
  end.

(** Take [n] bytes off the script; [Some code] when a gap, a reset or
    the end of the script comes first. *)
Fixpoint take_bytes (n : nat) (q : list rx_item)
  : option Z * list Z * list rx_item :=
  match n with
  | O => (None, [], q)
  | S n' =>
      match q with
      | [] => (Some (-1), [], [])
      | RxByte b :: q' =>
          let '(f, d, q'') := take_bytes n' q' in (f, b :: d, q'')
      | RxTimeout :: q' => (Some (-1), [], q')
      | RxReset :: q' => (Some (-2), [], q')
      end
  end.

Definition stream_read (n t : Z) (w : stream_world) : (Z * list Z) * stream_world :=
  let '(f, d, q) := take_bytes (Z.to_nat n) (rxq w) in
  (match f with Some code => code | None => n end, d,
   mkStream q (term_script w) (tx_script w)).

Definition stream_write (bytes : list Z) (t : Z) (w : stream_world) : Z * stream_world :=
  match tx_script w with
  | [] => (Z.of_nat (length bytes), w)
  | r :: rest => (r, mkStream (rxq w) (term_script w) rest)
  end.

Definition stream_put (b t : Z) (w : stream_world) : Z * stream_world :=
  match tx_script w with
  | [] => (0, w)
  | r :: rest => (r, mkStream (rxq w) (term_script w) rest)
  end.

Definition stream_platform (crc : Z -> Z -> Z) : Platform := {|
  W := stream_world;
  RDY_OK := 0;
  RDY_RESET := -2;
  Q_TIMEOUT := -1;
  Q_RESET := -2;
  MS2ST := fun ms => ms;
  chThdShouldTerminate := stream_should_terminate;
  chnGetTimeout := stream_get;
  chnReadTimeout := stream_read;
  chnWriteTimeout := stream_write;
  chnPutTimeout := stream_put;
  chMtxLock := fun w => w;
  chMtxUnlock := fun w => w;
  alert_component := fun _ _ w => w;
  crc8_update := crc
|}.

(** The calls [pbstx_receive] makes over the scripted platform while it
    takes in a start marker, [sq], [m], the length and the payload [p]. *)
Definition frame_events (sq m : Z) (p : list Z) : list event :=
  let len := Z.of_nat (length p) in
  [EvShouldTerminate false; EvGet 10 HDR_START;
   EvShouldTerminate false; EvGet 10 sq;
   EvShouldTerminate false; EvGet 10 m;
   EvShouldTerminate false; EvGet 10 len] ++
  (if len =? 0 then [] else [EvRead len 50 len p]).

(** A CRC-8 to run the examples with: polynomial x^8+x^2+x+1, most
    significant bit first. *)
Definition crc8_shift (c : Z) : Z :=
  let c' := Z.land (Z.shiftl c 1) 255 in
  if Z.testbit c 7 then Z.lxor c' 7 else c'.

Definition crc8_poly07 (crc data : Z) : Z :=
  Nat.iter 8 crc8_shift (Z.lxor crc data).

Definition demo : Platform := stream_platform crc8_poly07.

(** A machine at rest over the scripted platform: receiver waiting for a
    start marker, zeroed statics, a zeroed 8-byte payload buffer. *)
Definition demo_machine (q : list rx_item) (ts : list bool) (ws : list Z)
  : @machine demo :=
  @mkMachine demo (mkStream q ts ws) [] 0 0 PR_WAIT_START 0 0 (repeat 0 8) 0.

(** A receiver over an empty script, in a given state with a given
    running CRC. *)
Definition demo_in_state (st : rx_state_t) (c : Z) (q : list rx_item)
  : @machine demo :=
  @mkMachine demo (mkStream q [] []) [] 0 c st 0 0 (repeat 0 8) 0.

(** ** Further vocabulary for runs of the two functions *)

Section Outcomes.

Context {P : Platform}.

(** How a call of [pbstx_receive] can end, read off its [return]
    statements: the calls it made, the result, and the receiver state and
    running CRC it leaves. *)
Inductive rx_outcome : list event -> option Z -> rx_state_t -> Z -> Prop :=
| rx_still_looping evs st c :
    filter is_alert evs = [] ->
    rx_outcome evs None st c
| rx_terminated pre st c :
    filter is_alert pre = [] ->
    rx_outcome (pre ++ [EvShouldTerminate true]) (Some MSG_RESET) st c
| rx_byte_read_failed pre r st c :
    filter is_alert pre = [] ->
    chan_failed r = true ->
    rx_outcome (pre ++ [EvGet SER_TIMEOUT r]) (Some r) st c
| rx_payload_read_failed pre n r data c :
    filter is_alert pre = [] ->
    chan_failed r = true ->
    rx_outcome (pre ++ [EvRead n SER_PAYLOAD_TIMEOUT r data;
                        EvAlert ALS_COMM AL_FAIL])
               (Some r) PR_WAIT_START c
| rx_crc_matched pre c :
    filter is_alert pre = [] ->
    rx_outcome (pre ++ [EvGet SER_TIMEOUT c; EvAlert ALS_COMM AL_NORMAL])
               (Some MSG_OK) PR_WAIT_START c
| rx_crc_mismatched pre r c :
    filter is_alert pre = [] ->
    c <> r ->
    rx_outcome (pre ++ [EvGet SER_TIMEOUT r; EvAlert ALS_COMM AL_FAIL])
               (Some MSG_RESET) PR_WAIT_START c.

Definition is_mutex (e : event) : bool :=
  match e with EvLock | EvUnlock => true | _ => false end.

Definition is_chan_write (e : event) : bool :=
  match e with EvWrite _ _ _ | EvPut _ _ _ => true | _ => false end.

(** The calls [pbstx_receive] can make, and those [pbstx_send] can. *)
Definition is_rx_event (e : event) : bool :=
  match e with
  | EvShouldTerminate _ | EvGet _ _ | EvRead _ _ _ _ | EvAlert _ _ => true
  | _ => false
  end.

Definition is_tx_event (e : event) : bool :=
  match e with
  | EvLock | EvUnlock | EvWrite _ _ _ | EvPut _ _ _ => true
  | _ => false
  end.

(** Sending a list of (message-id, payload) pairs one after the other,
    each with its payload's length; the results in order. *)
Fixpoint send_all (msgs : list (Z * list Z)) : M (list Z) :=
  match msgs with
  | [] => mret []
  | (m, p) :: rest =>
      mbind (pbstx_send m p (Z.of_nat (length p))) (fun r =>
      mbind (send_all rest) (fun rs => mret (r :: rs)))
  end.

(** What a caller polling [pbstx_receive] collects: for each call that
    returns [MSG_OK], the message-id and the first [*payload_len] bytes
    of the payload buffer. *)
Fixpoint receive_frames (fuel k : nat) (s : machine)
  : list (option (Z * list Z)) * machine :=
  match k with
  | O => ([], s)
  | S k' =>
      let (r, s1) := pbstx_receive fuel s in
      let got :=
        match r with
        | Some v =>
            if v =? MSG_OK
            then Some (msgid_cell s1,
                       firstn (Z.to_nat (payload_len_cell s1)) (payload_buf s1))
            else None
        | None => None
        end in
      let (rest, s2) := receive_frames fuel k' s1 in
      (got :: rest, s2)
  end.

(** The frames for a list of messages sent back to back, the first with
    sequence number [sq]. *)
Fixpoint frames (sq : Z) (msgs : list (Z * list Z)) : list Z :=
  match msgs with
  | [] => []
  | (m, p) :: rest => frame sq m p ++ frames (u8 (sq + 1)) rest
  end.

End Outcomes.

(** The result code the scripted channel gives for a gap in the script. *)
Definition gap_code (g : rx_item) : Z :=
  match g with RxReset => -2 | _ => -1 end.

Definition is_gap (g : rx_item) : Prop := g = RxTimeout \/ g = RxReset.

(** The calls [pbstx_receive] makes over the scripted platform while it
    discards bytes that are not the start marker, and while it takes in
    a length byte and the payload it announces. *)
Definition noise_events (noise : list Z) : list event :=
  flat_map (fun b => [EvShouldTerminate false; EvGet 10 b]) noise.

Definition len_events (p : list Z) : list event :=
  let len := Z.of_nat (length p) in
  [EvShouldTerminate false; EvGet 10 len] ++
  (if len =? 0 then [] else [EvRead len 50 len p]).

Definition is_noise (b : Z) : Prop := is_byte b /\ b <> HDR_START.

Definition well_sized (msg : Z * list Z) : Prop :=
  is_byte (fst msg) /\ (length (snd msg) <= 255)%nat.

(** * The message layer (th_comm.c)

    The handlers of th_comm.c sit on nanopb, the parameter store, the
    clock, the command dispatcher, the memory readers and the device
    layer ([pbstxSend]); none of those is in the file, so they are fields
    of a [CommPlatform] over the world of a [Platform].  The registry
    [m_instances] is state of the file itself. *)

From Stdlib Require String Ascii.
Import String.StringSyntax.

(** The characters of a string literal. *)
Definition chars (s : String.string) : list Z :=
  map (fun c => Z.of_nat (Ascii.nat_of_ascii c)) (String.list_ascii_of_string s).

(** The format strings th_comm.c passes to [debug_printf]. *)
Local Open Scope string_scope.
Definition fmt_memdump_unknown_type : list Z := chars "MemDump: unknown type".
Definition fmt_memdump_read_error : list Z := chars "MemDump: read error".
Definition fmt_terminated : list Z := chars "pbstx%d: terminated".
Local Close Scope string_scope.

(** Conversions to [uint32_t] and [int32_t]. *)
Definition u32 (z : Z) : Z := z mod 2 ^ 32.
Definition i32 (z : Z) : Z := (z + 2 ^ 31) mod 2 ^ 32 - 2 ^ 31.

(** [#define MAX_INSTANCES 2] and [#define MEMDUMP_SIZE 64]. *)
Definition MAX_INSTANCES : nat := 2.
Definition MEMDUMP_SIZE : Z := 64.

(** The submessage descriptors ([const pb_field_t miniecu_X_fields[]])
    th_comm.c names; a descriptor is used only through its address. *)
Inductive msgtype : Type :=
| miniecu_Status_fields
| miniecu_StatusText_fields
| miniecu_TimeReference_fields
| miniecu_Command_fields
| miniecu_ParamRequest_fields
| miniecu_ParamSet_fields
| miniecu_ParamValue_fields
| miniecu_LogRequest_fields
| miniecu_MemoryDumpRequest_fields
| miniecu_MemoryDumpPage_fields.

Definition msgtype_eqb (a b : msgtype) : bool :=
  match a, b with
  | miniecu_Status_fields, miniecu_Status_fields
  | miniecu_StatusText_fields, miniecu_StatusText_fields
  | miniecu_TimeReference_fields, miniecu_TimeReference_fields
  | miniecu_Command_fields, miniecu_Command_fields
  | miniecu_ParamRequest_fields, miniecu_ParamRequest_fields
  | miniecu_ParamSet_fields, miniecu_ParamSet_fields
  | miniecu_ParamValue_fields, miniecu_ParamValue_fields
  | miniecu_LogRequest_fields, miniecu_LogRequest_fields
  | miniecu_MemoryDumpRequest_fields, miniecu_MemoryDumpRequest_fields
  | miniecu_MemoryDumpPage_fields, miniecu_MemoryDumpPage_fields => true
  | _, _ => false
  end.

(** [enum severity]; the two levels th_comm.c uses. *)
Inductive severity : Type := DP_DEBUG | DP_ERROR.

(** A parameter value ([miniecu_ParamType]) is only passed along: its
    object representation. *)
Definition ParamT : Type := list Z.

(** The message structs, with the members th_comm.c reads or writes. *)
Record miniecu_StatusText : Type := mkStatusText {
  st_engine_id : Z;
  st_severity : severity;
  st_text : list Z
}.

Record miniecu_TimeReference : Type := mkTimeReference {
  tr_engine_id : Z;
  tr_has_system_time : bool;
  tr_system_time : Z;
  tr_timestamp_ms : Z;
  tr_has_timediff : bool;
  tr_timediff : Z
}.

Record miniecu_Command : Type := mkCommand {
  cmd_engine_id : Z;
  cmd_operation : Z;
  cmd_has_response : bool;
  cmd_response : Z
}.

Record miniecu_ParamRequest : Type := mkParamRequest {
  prq_engine_id : Z;
  prq_has_param_id : bool;
  prq_param_id : list Z;
  prq_has_param_index : bool;
  prq_param_index : Z
}.

Record miniecu_ParamSet : Type := mkParamSet {
  pst_engine_id : Z;
  pst_param_id : list Z;
  pst_value : ParamT
}.

Record miniecu_ParamValue : Type := mkParamValue {
  pv_engine_id : Z;
  pv_param_index : Z;
  pv_param_count : Z;
  pv_param_id : list Z;
  pv_value : ParamT
}.

Record miniecu_MemoryDumpRequest : Type := mkMemoryDumpRequest {
  mdr_engine_id : Z;
  mdr_type : Z;
  mdr_stream_id : Z;
  mdr_address : Z;
  mdr_size : Z
}.

Record miniecu_MemoryDumpPage : Type := mkMemoryDumpPage {
  mdp_engine_id : Z;
  mdp_stream_id : Z;
  mdp_address : Z;
  mdp_page_size : Z;
  mdp_page_bytes : list Z
}.

(** The ten ADC getters [send_status] calls, and [miniecu_Status] with
    its sub-structs flattened. *)
Inductive adc_getter : Type :=
| adc_getflt_temp | adc_getflt_oilp | adc_getflt_flow | adc_getflt_vbat
| adc_getflt_vrtc
| adc_getraw_temp | adc_getraw_oilp | adc_getraw_flow | adc_getraw_vbat
| adc_getraw_vrtc.

Record miniecu_Status : Type := mkStatus {
  sts_engine_id : Z;
  sts_status : Z;
  sts_system_time : Z;
  sts_has_timestamp_ms : bool;
  sts_timestamp_ms : Z;
  sts_rpm : Z;
  sts_battery_voltage : Z;
  sts_battery_has_remaining : bool;
  sts_battery_remaining : Z;
  sts_temperature_engine1 : Z;
  sts_temperature_has_engine2 : bool;
  sts_temperature_engine2 : Z;
  sts_cpu_has_temperature : bool;
  sts_cpu_temperature : Z;
  sts_cpu_has_rtc_vbat : bool;
  sts_cpu_rtc_vbat : Z;
  sts_has_fuel : bool;
  sts_fuel_flow_ml : Z;
  sts_fuel_total_used_ml : Z;
  sts_fuel_has_remaining : bool;
  sts_fuel_remaining : Z;
  sts_has_adc_raw : bool;
  sts_adc_raw_flt_temp : Z;
  sts_adc_raw_flt_oilp : Z;
  sts_adc_raw_flt_flow : Z;
  sts_adc_raw_flt_vbat : Z;
  sts_adc_raw_flt_vrtc : Z;
  sts_adc_raw_raw_temp : Z;
  sts_adc_raw_raw_oilp : Z;
  sts_adc_raw_raw_flow : Z;
  sts_adc_raw_raw_vbat : Z;
  sts_adc_raw_raw_vrtc : Z
}.

(** What [const void *message] can point to in this file. *)
Inductive submsg : Type :=
| Msg_Status (m : miniecu_Status)
| Msg_StatusText (m : miniecu_StatusText)
| Msg_TimeReference (m : miniecu_TimeReference)
| Msg_Command (m : miniecu_Command)
| Msg_ParamValue (m : miniecu_ParamValue)
| Msg_MemoryDumpPage (m : miniecu_MemoryDumpPage).

(** An entry of [miniecu_Message_fields]. *)
Record pb_field_t : Type := mkField {
  f_tag : Z;
  f_type : Z;
  f_ptr : msgtype
}.

(** [pb_ostream_t] over a buffer, and [pbstx_message_t]. *)
Record pb_ostream_t : Type := mkOstream {
  os_buffer : list Z;
  os_max_size : Z;
  bytes_written : Z
}.

Record pbstx_message_t : Type := mkMessage {
  msg_payload : list Z;
  msg_size : Z
}.

(** The memory regions a dump can read. *)
Inductive mem_region : Type := MEM_INT_RAM | MEM_EXT_FLASH.

(** Calls that leave th_comm.c, and the entries into its two send
    helpers (kept in the trace so that what a handler asked to have sent
    can be read off without going through the encoder). *)
Inductive cevent : Type :=
| CvEncodeSend (dev : Z) (t : msgtype) (m : submsg)
| CvBroadcast (t : msgtype) (m : submsg)
| CvSend (dev : Z) (msg : pbstx_message_t) (ret : Z)
| CvAlert (c : alert_subsystem) (l : alert_level)
| CvCommand (operation ret : Z)
| CvSetTimestamp (timestamp_ms diff : Z)
| CvParamSet (id : list Z) (value : ParamT) (ret : Z)
| CvMemRead (region : mem_region) (address size ret : Z) (data : list Z)
| CvReceive (dev ret : Z).

(** [strncpy(dst, src, n)] on the first [n] bytes of [dst]: the bytes of
    [src] up to its terminator, then zeros. *)
Fixpoint c_string (src : list Z) : list Z :=
  match src with
  | [] => []
  | c :: rest => if c =? 0 then [] else c :: c_string rest
  end.

Definition strncpy (src : list Z) (n : nat) : list Z :=
  let s := c_string (firstn n src) in
  s ++ repeat 0 (n - length s).

Class CommPlatform : Type := {
  comm_base :: Platform;
  PBSTX_PAYLOAD_BYTES : Z;
  PT_ID_SIZE : nat;
  PARAM_OK : Z;
  PARAM_LIMIT : Z;
  miniecu_MemoryDumpRequest_Type_RAM : Z;
  miniecu_MemoryDumpRequest_Type_FLASH : Z;
  miniecu_Message_fields : list pb_field_t;
  gp_engine_id : W -> Z;
  pb_encode_tag_for_field : pb_field_t -> pb_ostream_t -> bool * pb_ostream_t;
  pb_encode_submessage : msgtype -> submsg -> pb_ostream_t -> bool * pb_ostream_t;
  pbstxSend : Z -> pbstx_message_t -> W -> Z * W;
  pb_make_string_substream : list Z -> option (list Z);
  pb_decode_TimeReference : list Z -> bool * miniecu_TimeReference;
  pb_decode_Command : list Z -> bool * miniecu_Command;
  pb_decode_ParamRequest : list Z -> bool * miniecu_ParamRequest;
  pb_decode_ParamSet : list Z -> bool * miniecu_ParamSet;
  pb_decode_LogRequest : list Z -> bool;
  pb_decode_MemoryDumpRequest : list Z -> bool * miniecu_MemoryDumpRequest;
  command_request : Z -> W -> Z * W;
  time_get_systime : W -> Z;
  time_set_timestamp : Z -> W -> Z * W;
  param_count : W -> Z;
  param_get : list Z -> W -> Z * ParamT * Z;
  param_get_by_idx : Z -> W -> Z * list Z * ParamT;
  param_set : list Z -> ParamT -> W -> Z * W;
  memdump_int_ram : Z -> Z -> W -> (Z * list Z) * W;
  memdump_ext_flash : Z -> Z -> W -> (Z * list Z) * W;
  chvprintf : list Z -> list Z -> list Z;
  (* the session thread *)
  PB_WT_STRING : Z;
  PB_LTYPE_SUBMESSAGE : Z;
  pb_decode_tag : list Z -> option (Z * Z * list Z);
  pb_skip_field : list Z -> Z -> list Z;
  pbstxReceive : Z -> pbstx_message_t -> W -> (Z * pbstx_message_t) * W;
  pbstxObjectInit : Z -> W -> W;
  chRegSetThreadName : W -> W;
  chThdShouldTerminateX : W -> bool * W;
  chVTTimeElapsedSinceX : Z -> W -> Z;
  osalOsGetSystemTimeX : W -> Z;
  gp_status_period : W -> Z;
  gp_debug_enable_adc_raw : W -> bool;
  gp_debug_enable_memdump : W -> bool;
  (* what send_status reads *)
  miniecu_Status_init_default : miniecu_Status;
  miniecu_Status_Flags_TIME_KNOWN : Z;
  miniecu_Status_Flags_IGNITION_ENABLED : Z;
  miniecu_Status_Flags_STARTER_ENABLED : Z;
  miniecu_Status_Flags_ENGINE_RUNNING : Z;
  miniecu_Status_Flags_ERROR : Z;
  miniecu_Status_Flags_UNDERVOLTAGE : Z;
  miniecu_Status_Flags_OVERHEAT : Z;
  miniecu_Status_Flags_HIGH_RPM : Z;
  miniecu_Status_Flags_LOW_FUEL : Z;
  time_is_known : W -> bool;
  ctl_ignition_state : W -> bool;
  ctl_starter_state : W -> bool;
  rpm_is_engine_running : W -> bool;
  alert_check_error : W -> bool;
  batt_check_voltage : W -> bool;
  temp_check_temperature : W -> bool;
  rpm_check_limit : W -> bool;
  flow_check_fuel : W -> bool;
  time_get_timestamp : W -> Z;
  rpm_get_filtered : W -> Z;
  batt_get_voltage : W -> Z;
  batt_get_remaining : Z -> W -> bool * Z;
  temp_get_temperature : W -> Z;
  oilp_get_temperature : Z -> W -> bool * Z;
  cpu_get_temperature : W -> Z;
  cpu_get_rtc_voltage : Z -> W -> bool * Z;
  flow_get_flow : Z -> W -> bool * Z;
  flow_get_used_ml : W -> Z;
  flow_get_remaining : Z -> W -> bool * Z;
  adc_get : adc_getter -> W -> Z
}.

Section CommModel.

Context {CP : CommPlatform}.

(** The outside world, the trace of calls, and the registry. *)
Record cstate : Type := mkCstate {
  cworld : W;
  ctrace : list cevent;
  m_instances : list (option Z)
}.

Definition CM (A : Type) : Type := cstate -> A * cstate.

Definition cret {A} (a : A) : CM A := fun s => (a, s).
Definition cbind {A B} (c : CM A) (k : A -> CM B) : CM B :=
  fun s => let (a, s') := c s in k a s'.
Definition cgets {A} (f : W -> A) : CM A := fun s => (f (cworld s), s).

Notation "x <- c ;; k" := (cbind c (fun x => k))
  (at level 61, c at next level, right associativity).
Notation "c ;;; k" := (cbind c (fun _ => k))
  (at level 61, right associativity).

Definition clog (e : cevent) : CM unit := fun s =>
  (tt, mkCstate (cworld s) (ctrace s ++ [e]) (m_instances s)).

(** A call that changes the world and is logged with its result. *)
Definition ccall (f : W -> Z * W) (ev : Z -> cevent) : CM Z := fun s =>
  let (r, w) := f (cworld s) in
  (r, mkCstate w (ctrace s ++ [ev r]) (m_instances s)).

Definition do_alert (c : alert_subsystem) (l : alert_level) : CM unit := fun s =>
  (tt, mkCstate (alert_component c l (cworld s)) (ctrace s ++ [CvAlert c l])
                (m_instances s)).

Definition do_pbstxSend (dev : Z) (msg : pbstx_message_t) : CM Z :=
  ccall (pbstxSend dev msg) (CvSend dev msg).

(** The reader of a region; its result is an [int32_t]. *)
Definition do_memdump (region : mem_region) (address size : Z) : CM (Z * list Z) :=
  fun s =>
    let '(r, bytes, w) :=
      match region with
      | MEM_INT_RAM => memdump_int_ram address size (cworld s)
      | MEM_EXT_FLASH => memdump_ext_flash address size (cworld s)
      end in
    ((i32 r, bytes),
     mkCstate w (ctrace s ++ [CvMemRead region address size (i32 r) bytes])
              (m_instances s)).

(** *** Encoding and sending *)

(** The search of [miniecu_Message_fields] for the entry of a
    descriptor; the table ends at the first entry with tag 0. *)
Fixpoint find_field (fields : list pb_field_t) (t : msgtype) : option pb_field_t :=
  match fields with
  | [] => None
  | f :: rest =>
      if f_tag f =? 0 then None
      else if msgtype_eqb (f_ptr f) t then Some f
      else find_field rest t
  end.

(** [pbstxEncodeSend]: the result and the message object as it is left. *)
Definition pbstxEncodeSend (dev : Z) (msg : pbstx_message_t)
    (messagetype : msgtype) (message : submsg) : CM (Z * pbstx_message_t) :=
  clog (CvEncodeSend dev messagetype message) ;;;
  let outstream := mkOstream (msg_payload msg) PBSTX_PAYLOAD_BYTES 0 in
  match find_field miniecu_Message_fields messagetype with
  | Some field =>
      let (ok1, outstream) := pb_encode_tag_for_field field outstream in
      if negb ok1 then
        do_alert ALS_COMM AL_FAIL ;;;
        cret (MSG_RESET, mkMessage (os_buffer outstream) (msg_size msg))
      else
        let (ok2, outstream) := pb_encode_submessage messagetype message outstream in
        if negb ok2 then
          do_alert ALS_COMM AL_FAIL ;;;
          cret (MSG_RESET, mkMessage (os_buffer outstream) (msg_size msg))
        else
          let msg := mkMessage (os_buffer outstream) (bytes_written outstream) in
          ret <- do_pbstxSend dev msg ;;
          cret (ret, msg)
  | None =>
      do_alert ALS_COMM AL_FAIL ;;;
      cret (MSG_RESET, msg)
  end.

(** [pbstxEncodeSendComm], for the session on device [dev] with message
    buffer [msg]. *)
Definition pbstxEncodeSendComm (dev : Z) (msg : pbstx_message_t)
    (messagetype : msgtype) (message : submsg) : CM (Z * pbstx_message_t) :=
  pbstxEncodeSend dev msg messagetype message.

(** The loop of [pbstxEncodeSendBroadcast] over the slots; [ret] and the
    message object are carried along. *)
Fixpoint broadcast_loop (slots : list (option Z)) (ret : Z) (msg : pbstx_message_t)
    (messagetype : msgtype) (message : submsg) : CM (Z * pbstx_message_t) :=
  match slots with
  | [] => cret (ret, msg)
  | None :: rest => broadcast_loop rest ret msg messagetype message
  | Some dev :: rest =>
      r <- (if msg_size msg =? 0
            then pbstxEncodeSend dev msg messagetype message
            else (sret <- do_pbstxSend dev msg ;; cret (sret, msg))) ;;
      let (sret, msg) := r in
      broadcast_loop rest (if sret <? 0 then sret else ret) msg messagetype message
  end.

Definition pbstxEncodeSendBroadcast (msg : pbstx_message_t)
    (messagetype : msgtype) (message : submsg) : CM (Z * pbstx_message_t) :=
  clog (CvBroadcast messagetype message) ;;;
  fun s =>
    broadcast_loop (firstn MAX_INSTANCES (m_instances s)) MSG_OK
                   (mkMessage (msg_payload msg) 0) messagetype message s.

(** [pbstxDecodeMessage] at a message type whose [pb_decode] is
    [decode]: [Some] is a [true] result with the decoded struct. *)
Definition pbstxDecodeMessage {A} (decode : list Z -> bool * A)
    (stream : list Z) : option A :=
  match pb_make_string_substream stream with
  | None => None
  | Some substream =>
      let (status, dest) := decode substream in
      if status then Some dest else None
  end.

(** [debug_printf]; [msg] is what its local, uninitialised message
    object holds.  [chvprintf fmt args] is what the formatter puts into
    [st.text], taken to leave room for the final zero. *)
Definition debug_printf (msg : pbstx_message_t) (sev : severity)
    (fmt args : list Z) : CM unit :=
  id <- cgets gp_engine_id ;;
  let st := mkStatusText (u32 id) sev (chvprintf fmt args ++ [0]) in
  pbstxEncodeSendBroadcast msg miniecu_StatusText_fields (Msg_StatusText st) ;;;
  cret tt.

(** [send_param_value]. *)
Definition send_param_value (msg : pbstx_message_t) (pv_msg : miniecu_ParamValue)
  : CM (Z * pbstx_message_t) :=
  pbstxEncodeSendBroadcast msg miniecu_ParamValue_fields (Msg_ParamValue pv_msg).

(** *** Handlers

    A handler gets the session's device [dev], its message buffer [msg]
    and the input stream, and hands back the message buffer as it leaves
    it. *)

Definition recv_time_reference (dev : Z) (msg : pbstx_message_t)
    (instream : list Z) : CM pbstx_message_t :=
  match pbstxDecodeMessage pb_decode_TimeReference instream with
  | None => do_alert ALS_COMM AL_FAIL ;;; cret msg
  | Some time_ref =>
      id <- cgets gp_engine_id ;;
      if negb (tr_engine_id time_ref =? u32 id) && negb (tr_engine_id time_ref =? 0)
      then cret msg
      else if tr_has_timediff time_ref then cret msg
      else
        id <- cgets gp_engine_id ;;
        systime <- cgets time_get_systime ;;
        diff <- ccall (time_set_timestamp (tr_timestamp_ms time_ref))
                      (CvSetTimestamp (tr_timestamp_ms time_ref)) ;;
        let reply := mkTimeReference (u32 id) true systime
                       (tr_timestamp_ms time_ref) true diff in
        r <- pbstxEncodeSendComm dev msg miniecu_TimeReference_fields
               (Msg_TimeReference reply) ;;
        cret (snd r)
  end.

Definition recv_command (dev : Z) (msg : pbstx_message_t)
    (instream : list Z) : CM pbstx_message_t :=
  match pbstxDecodeMessage pb_decode_Command instream with
  | None => do_alert ALS_COMM AL_FAIL ;;; cret msg
  | Some cmd =>
      id <- cgets gp_engine_id ;;
      if negb (cmd_engine_id cmd =? u32 id) then cret msg
      else if cmd_has_response cmd then cret msg
      else
        response <- ccall (command_request (cmd_operation cmd))
                          (CvCommand (cmd_operation cmd)) ;;
        let reply := mkCommand (cmd_engine_id cmd) (cmd_operation cmd)
                       true response in
        r <- pbstxEncodeSendComm dev msg miniecu_Command_fields
               (Msg_Command reply) ;;
        cret (snd r)
  end.

(** The "request all" loop of [recv_param_request], for the indices
    [idx], [idx]+1, ... below [count]; [todo] is how many are left. *)
Fixpoint param_dump_loop (todo : nat) (idx count : Z) (msg : pbstx_message_t)
  : CM pbstx_message_t :=
  match todo with
  | O => cret msg
  | S todo' =>
      got <- cgets (param_get_by_idx idx) ;;
      let '(status, param_id, value) := got in
      if negb (status =? PARAM_OK)
      then param_dump_loop todo' (idx + 1) count msg
      else
        id <- cgets gp_engine_id ;;
        let param_value := mkParamValue (u32 id) idx count param_id value in
        r <- send_param_value msg param_value ;;
        param_dump_loop todo' (idx + 1) count (snd r)
  end.

Definition recv_param_request (dev : Z) (msg : pbstx_message_t)
    (instream : list Z) : CM pbstx_message_t :=
  count <- cgets param_count ;;
  match pbstxDecodeMessage pb_decode_ParamRequest instream with
  | None => do_alert ALS_COMM AL_FAIL ;;; cret msg
  | Some param_req =>
      id <- cgets gp_engine_id ;;
      if negb (prq_engine_id param_req =? u32 id)
         && negb (prq_engine_id param_req =? 0)
      then cret msg
      else if prq_has_param_id param_req then
        got <- cgets (param_get (prq_param_id param_req)) ;;
        let '(status, value, idx) := got in
        if negb (status =? PARAM_OK) then cret msg
        else
          id <- cgets gp_engine_id ;;
          let param_value :=
            mkParamValue (u32 id) idx count
                         (strncpy (prq_param_id param_req) PT_ID_SIZE) value in
          r <- send_param_value msg param_value ;;
          cret (snd r)
      else if prq_has_param_index param_req then
        got <- cgets (param_get_by_idx (prq_param_index param_req)) ;;
        let '(status, param_id, value) := got in
        if negb (status =? PARAM_OK) then cret msg
        else
          id <- cgets gp_engine_id ;;
          let param_value :=
            mkParamValue (u32 id) (prq_param_index param_req) count
                         param_id value in
          r <- send_param_value msg param_value ;;
          cret (snd r)
      else
        param_dump_loop (Z.to_nat count) 0 count msg
  end.

Definition recv_param_set (dev : Z) (msg : pbstx_message_t)
    (instream : list Z) : CM pbstx_message_t :=
  count <- cgets param_count ;;
  match pbstxDecodeMessage pb_decode_ParamSet instream with
  | None => do_alert ALS_COMM AL_FAIL ;;; cret msg
  | Some param_set_ =>
      id <- cgets gp_engine_id ;;
      if negb (pst_engine_id param_set_ =? u32 id) then cret msg
      else
        ret <- ccall (param_set (pst_param_id param_set_) (pst_value param_set_))
                     (CvParamSet (pst_param_id param_set_) (pst_value param_set_)) ;;
        if negb (ret =? PARAM_OK) && negb (ret =? PARAM_LIMIT) then cret msg
        else
          got <- cgets (param_get (pst_param_id param_set_)) ;;
          let '(status, value, idx) := got in
          if negb (status =? PARAM_OK) then cret msg
          else
            id <- cgets gp_engine_id ;;
            let param_value :=
              mkParamValue (u32 id) idx count
                           (strncpy (pst_param_id param_set_) PT_ID_SIZE) value in
            r <- send_param_value msg param_value ;;
            cret (snd r)
  end.

Definition recv_log_request (dev : Z) (msg : pbstx_message_t)
    (instream : list Z) : CM pbstx_message_t :=
  match pb_make_string_substream instream with
  | None => do_alert ALS_COMM AL_FAIL ;;; cret msg
  | Some substream =>
      if pb_decode_LogRequest substream then cret msg
      else do_alert ALS_COMM AL_FAIL ;;; cret msg
  end.

(** The paging loop of [recv_memory_dump_request].  [stack] is what the
    local message object of [debug_printf] holds.  The loop ends because
    [bytes_rem] shrinks; [None] is "still paging after [fuel] pages".
    [page_msg.page.size] is taken to hold the reader's result as it is
    (the width of that member is fixed by the generated header). *)
Fixpoint memdump_loop (fuel : nat) (region : mem_region) (dev : Z)
    (stack msg : pbstx_message_t) (stream_id address bytes_rem : Z)
  : CM (option pbstx_message_t) :=
  if 0 <? bytes_rem then
    match fuel with
    | O => cret None
    | S fuel' =>
        r <- do_memdump region address
               (if MEMDUMP_SIZE <? bytes_rem then MEMDUMP_SIZE else bytes_rem) ;;
        let (ret, bytes) := r in
        if ret <=? 0 then
          debug_printf stack DP_ERROR fmt_memdump_read_error [] ;;;
          cret (Some msg)
        else
          id <- cgets gp_engine_id ;;
          let page_msg :=
            mkMemoryDumpPage (u32 id) stream_id address ret bytes in
          r <- pbstxEncodeSendComm dev msg miniecu_MemoryDumpPage_fields
                 (Msg_MemoryDumpPage page_msg) ;;
          memdump_loop fuel' region dev stack (snd r) stream_id
                       (u32 (address + ret)) (i32 (bytes_rem - ret))
    end
  else cret (Some msg).

Definition recv_memory_dump_request (fuel : nat) (dev : Z)
    (stack msg : pbstx_message_t) (instream : list Z)
  : CM (option pbstx_message_t) :=
  match pbstxDecodeMessage pb_decode_MemoryDumpRequest instream with
  | None => do_alert ALS_COMM AL_FAIL ;;; cret (Some msg)
  | Some dump_req =>
      let address := u32 (mdr_address dump_req) in
      let bytes_rem := i32 (mdr_size dump_req) in
      id <- cgets gp_engine_id ;;
      if negb (mdr_engine_id dump_req =? u32 id) then cret (Some msg)
      else if mdr_type dump_req =? miniecu_MemoryDumpRequest_Type_RAM then
        memdump_loop fuel MEM_INT_RAM dev stack msg
                     (mdr_stream_id dump_req) address bytes_rem
      else if mdr_type dump_req =? miniecu_MemoryDumpRequest_Type_FLASH then
        memdump_loop fuel MEM_EXT_FLASH dev stack msg
                     (mdr_stream_id dump_req) address bytes_rem
      else
        debug_printf stack DP_ERROR fmt_memdump_unknown_type [] ;;;
        cret (Some msg)
  end.

(** *** The status report *)

(** [send_status]: the flags, one check after the other, then the
    readings, then the send on the session's own device. *)
Definition send_status (dev : Z) (msg : pbstx_message_t) : CM pbstx_message_t :=
  fun s =>
    let w := cworld s in
    let status := miniecu_Status_init_default in
    let flags := 0 in
    let flags := if time_is_known w
                 then u32 (Z.lor flags miniecu_Status_Flags_TIME_KNOWN) else flags in
    let flags := if ctl_ignition_state w
                 then u32 (Z.lor flags miniecu_Status_Flags_IGNITION_ENABLED) else flags in
    let flags := if ctl_starter_state w
                 then u32 (Z.lor flags miniecu_Status_Flags_STARTER_ENABLED) else flags in
    let flags := if rpm_is_engine_running w
                 then u32 (Z.lor flags miniecu_Status_Flags_ENGINE_RUNNING) else flags in
    let flags := if alert_check_error w
                 then u32 (Z.lor flags miniecu_Status_Flags_ERROR) else flags in
    let flags := if batt_check_voltage w
                 then u32 (Z.lor flags miniecu_Status_Flags_UNDERVOLTAGE) else flags in
    let flags := if temp_check_temperature w
                 then u32 (Z.lor flags miniecu_Status_Flags_OVERHEAT) else flags in
    let flags := if rpm_check_limit w
                 then u32 (Z.lor flags miniecu_Status_Flags_HIGH_RPM) else flags in
    let flags := if flow_check_fuel w
                 then u32 (Z.lor flags miniecu_Status_Flags_LOW_FUEL) else flags in
    let battery := batt_get_remaining (sts_battery_remaining status) w in
    let engine2 := oilp_get_temperature (sts_temperature_engine2 status) w in
    let rtc := cpu_get_rtc_voltage (sts_cpu_rtc_vbat status) w in
    let flow := flow_get_flow (sts_fuel_flow_ml status) w in
    let remaining := flow_get_remaining (sts_fuel_remaining status) w in
    let has_fuel := fst flow in
    let adc := gp_debug_enable_adc_raw w in
    let reading (g : adc_getter) (default : Z) : Z :=
      if adc then adc_get g w else default in
    let status :=
      mkStatus
        (u32 (gp_engine_id w))
        flags
        (time_get_systime w)
        (time_is_known w)
        (time_get_timestamp w)
        (rpm_get_filtered w)
        (batt_get_voltage w)
        (fst battery) (snd battery)
        (temp_get_temperature w)
        (fst engine2) (snd engine2)
        true
        (cpu_get_temperature w)
        (fst rtc) (snd rtc)
        has_fuel (snd flow)
        (if has_fuel then flow_get_used_ml w else sts_fuel_total_used_ml status)
        (if has_fuel then fst remaining else sts_fuel_has_remaining status)
        (if has_fuel then snd remaining else sts_fuel_remaining status)
        (if adc then true else sts_has_adc_raw status)
        (reading adc_getflt_temp (sts_adc_raw_flt_temp status))
        (reading adc_getflt_oilp (sts_adc_raw_flt_oilp status))
        (reading adc_getflt_flow (sts_adc_raw_flt_flow status))
        (reading adc_getflt_vbat (sts_adc_raw_flt_vbat status))
        (reading adc_getflt_vrtc (sts_adc_raw_flt_vrtc status))
        (reading adc_getraw_temp (sts_adc_raw_raw_temp status))
        (reading adc_getraw_oilp (sts_adc_raw_raw_oilp status))
        (reading adc_getraw_flow (sts_adc_raw_raw_flow status))
        (reading adc_getraw_vbat (sts_adc_raw_raw_vbat status))
        (reading adc_getraw_vrtc (sts_adc_raw_raw_vrtc status)) in
    (r <- pbstxEncodeSendComm dev msg miniecu_Status_fields (Msg_Status status) ;;
     cret (snd r)) s.

(** *** The session thread *)

(** The search of [pbstxDecodeType] in [miniecu_Message_fields]. *)
Fixpoint find_submessage (fields : list pb_field_t) (tag : Z) : option msgtype :=
  match fields with
  | [] => None
  | f :: rest =>
      if f_tag f =? 0 then None
      else if (f_tag f =? tag) && negb (Z.land (f_type f) PB_LTYPE_SUBMESSAGE =? 0)
      then Some (f_ptr f)
      else find_submessage rest tag
  end.

(** [pbstxDecodeType]: [Some None] is [NULL], [Some (Some (t, stream))]
    the descriptor found and the stream behind its tag; [None] is
    "still reading tags after [fuel] of them". *)
Fixpoint pbstxDecodeType (fuel : nat) (stream : list Z)
  : option (option (msgtype * list Z)) :=
  match fuel with
  | O => None
  | S fuel' =>
      match pb_decode_tag stream with
      | None => Some None
      | Some (wire_type, tag, stream) =>
          match (if wire_type =? PB_WT_STRING
                 then find_submessage miniecu_Message_fields tag
                 else None) with
          | Some t => Some (Some (t, stream))
          | None => pbstxDecodeType fuel' (pb_skip_field stream wire_type)
          end
      end
  end.

Definition do_pbstxReceive (dev : Z) (msg : pbstx_message_t)
  : CM (Z * pbstx_message_t) := fun s =>
  let '(ret, msg', w) := pbstxReceive dev msg (cworld s) in
  ((ret, msg'),
   mkCstate w (ctrace s ++ [CvReceive dev ret]) (m_instances s)).

Definition do_chThdShouldTerminateX : CM bool := fun s =>
  let (b, w) := chThdShouldTerminateX (cworld s) in
  (b, mkCstate w (ctrace s) (m_instances s)).

(** The if-chain of the thread loop on the descriptor found. *)
Definition dispatch (fuel : nat) (dev : Z) (stack msg : pbstx_message_t)
    (field : msgtype) (instream : list Z) : CM (option pbstx_message_t) :=
  match field with
  | miniecu_ParamRequest_fields =>
      m <- recv_param_request dev msg instream ;; cret (Some m)
  | miniecu_ParamSet_fields =>
      m <- recv_param_set dev msg instream ;; cret (Some m)
  | miniecu_TimeReference_fields =>
      m <- recv_time_reference dev msg instream ;; cret (Some m)
  | miniecu_Command_fields =>
      m <- recv_command dev msg instream ;; cret (Some m)
  | miniecu_LogRequest_fields =>
      m <- recv_log_request dev msg instream ;; cret (Some m)
  | miniecu_MemoryDumpRequest_fields =>
      enabled <- cgets gp_debug_enable_memdump ;;
      if enabled then recv_memory_dump_request fuel dev stack msg instream
      else cret (Some msg)
  | _ => cret (Some msg)
  end.

(** The loop of [th_comm_pbstx]; [None] is "still running after [fuel]
    iterations" (or an inner loop out of fuel). *)
Fixpoint comm_loop (fuel : nat) (dev : Z) (stack msg : pbstx_message_t)
    (send_time : Z) : CM (option unit) :=
  match fuel with
  | O => cret None
  | S fuel' =>
      stop <- do_chThdShouldTerminateX ;;
      if stop then cret (Some tt)
      else
        elapsed <- cgets (chVTTimeElapsedSinceX send_time) ;;
        period <- cgets gp_status_period ;;
        r <- (if MS2ST period <=? elapsed
              then m <- send_status dev msg ;;
                   now <- cgets osalOsGetSystemTimeX ;;
                   cret (m, now)
              else cret (msg, send_time)) ;;
        let (msg, send_time) := r in
        rr <- do_pbstxReceive dev msg ;;
        let (ret, msg) := rr in
        if negb (ret =? MSG_OK) then comm_loop fuel' dev stack msg send_time
        else
          match pbstxDecodeType fuel
                  (firstn (Z.to_nat (msg_size msg)) (msg_payload msg)) with
          | None => cret None
          | Some None => comm_loop fuel' dev stack msg send_time
          | Some (Some (field, instream)) =>
              m <- dispatch fuel dev stack msg field instream ;;
              match m with
              | None => cret None
              | Some msg => comm_loop fuel' dev stack msg send_time
              end
          end
  end.

(** Where the registration loop stops on [slots], counting from [i]. *)
Fixpoint first_free (slots : list (option Z)) (i : nat) : nat :=
  match slots with
  | [] => i
  | None :: _ => i
  | Some _ :: rest => first_free rest (S i)
  end.

(** [m_instances[i] = v]. *)
Fixpoint set_slot (i : nat) (v : option Z) (slots : list (option Z))
  : list (option Z) :=
  match slots, i with
  | [], _ => []
  | _ :: rest, O => v :: rest
  | x :: rest, S i' => x :: set_slot i' v rest
  end.

Definition set_instance (i : nat) (v : option Z) : CM unit := fun s =>
  (tt, mkCstate (cworld s) (ctrace s) (set_slot i v (m_instances s))).

(** [th_comm_pbstx] for the channel [arg]; [stack] and [msg] are what
    the local message objects hold at first. *)
Definition th_comm_pbstx (fuel : nat) (arg : Z) (stack msg : pbstx_message_t)
  : CM (option Z) :=
  (fun s => (tt, mkCstate (pbstxObjectInit arg (chRegSetThreadName (cworld s)))
                          (ctrace s) (m_instances s))) ;;;
  slots <- (fun s => (firstn MAX_INSTANCES (m_instances s), s)) ;;
  let instance_id := first_free slots 0 in
  if (MAX_INSTANCES <=? instance_id)%nat then cret (Some MSG_RESET)
  else
    set_instance instance_id (Some arg) ;;;
    do_alert ALS_COMM AL_NORMAL ;;;
    done <- comm_loop fuel arg stack msg 0 ;;
    match done with
    | None => cret None
    | Some _ =>
        slots <- (fun s => (m_instances s, s)) ;;
        (match nth instance_id slots None with
         | Some _ => set_instance instance_id None
         | None => cret tt
         end) ;;;
        debug_printf stack DP_DEBUG fmt_terminated [Z.of_nat instance_id] ;;;
        cret (Some MSG_OK)
    end.

(** *** Vocabulary for the properties *)

(** What the encoding steps of [pbstxEncodeSend] make of a message
    object: [inl] the object ready to be sent, [inr] the object as a
    failed attempt leaves it. *)
Definition encoded (msg : pbstx_message_t) (t : msgtype) (m : submsg)
  : pbstx_message_t + pbstx_message_t :=
  match find_field miniecu_Message_fields t with
  | None => inr msg
  | Some field =>
      let os1 := pb_encode_tag_for_field field
                   (mkOstream (msg_payload msg) PBSTX_PAYLOAD_BYTES 0) in
      if fst os1 then
        let os2 := pb_encode_submessage t m (snd os1) in
        if fst os2
        then inl (mkMessage (os_buffer (snd os2)) (bytes_written (snd os2)))
        else inr (mkMessage (os_buffer (snd os2)) (msg_size msg))
      else inr (mkMessage (os_buffer (snd os1)) (msg_size msg))
  end.

(** The devices of the live sessions, in slot order. *)
Fixpoint live (slots : list (option Z)) : list Z :=
  match slots with
  | [] => []
  | None :: rest => live rest
  | Some dev :: rest => dev :: live rest
  end.

(** [ret] after a run of sends with results [rs]: the last negative one. *)
Definition last_negative (rs : list Z) (ret : Z) : Z :=
  fold_left (fun acc r => if r <? 0 then r else acc) rs ret.

Definition sends_to (msg : pbstx_message_t) (devs rs : list Z) : list cevent :=
  map (fun dr => CvSend (fst dr) msg (snd dr)) (combine devs rs).

Definition is_csend (e : cevent) : bool :=
  match e with CvSend _ _ _ => true | _ => false end.

Definition is_ccommand (e : cevent) : bool :=
  match e with CvCommand _ _ => true | _ => false end.

Definition is_cmemread (e : cevent) : bool :=
  match e with CvMemRead _ _ _ _ _ => true | _ => false end.

(** The messages a run asked [pbstxEncodeSendBroadcast] to send, and
    those it asked [pbstxEncodeSend] to send. *)
Fixpoint broadcasts (evs : list cevent) : list submsg :=
  match evs with
  | [] => []
  | CvBroadcast _ m :: rest => m :: broadcasts rest
  | _ :: rest => broadcasts rest
  end.

Fixpoint unicasts (evs : list cevent) : list (Z * msgtype * submsg) :=
  match evs with
  | [] => []
  | CvEncodeSend dev t m :: rest => (dev, t, m) :: unicasts rest
  | _ :: rest => unicasts rest
  end.

(** The reads of a memory dump. *)
Record mem_read : Type := mkMemRead {
  rd_region : mem_region;
  rd_address : Z;
  rd_size : Z;
  rd_ret : Z;
  rd_data : list Z
}.

Fixpoint mem_reads (evs : list cevent) : list mem_read :=
  match evs with
  | [] => []
  | CvMemRead g a n r d :: rest => mkMemRead g a n r d :: mem_reads rest
  | _ :: rest => mem_reads rest
  end.

(** The pages among the messages a run asked [pbstxEncodeSend] to send. *)
Fixpoint dump_pages (evs : list cevent) : list miniecu_MemoryDumpPage :=
  match evs with
  | [] => []
  | CvEncodeSend _ _ (Msg_MemoryDumpPage p) :: rest => p :: dump_pages rest
  | _ :: rest => dump_pages rest
  end.

(** What a broadcast of [m] adds to the trace after its own entry: the
    entries into [pbstxEncodeSend] for [m], sends and alerts. *)
Definition broadcast_detail (t : msgtype) (m : submsg) (e : cevent) : Prop :=
  (exists dev, e = CvEncodeSend dev t m) \/
  (exists dev msg r, e = CvSend dev msg r) \/
  e = CvAlert ALS_COMM AL_FAIL.

(** [l] ascends by at least one per element and stays in [lo, hi). *)
Fixpoint ascending_within (lo hi : Z) (l : list Z) : Prop :=
  match l with
  | [] => True
  | x :: rest => lo <= x < hi /\ ascending_within (x + 1) hi rest
  end.

(** The indices [lo], [lo]+1, ... ([n] of them). *)
Fixpoint indices_from (lo : Z) (n : nat) : list Z :=
  match n with
  | O => []
  | S n' => lo :: indices_from (lo + 1) n'
  end.

(** The shape of a paged dump of [region] for stream [stream_id], from
    [address] with [bytes_rem] bytes to go: its reads, the pages it
    sends, and whether it ended on a failed read. *)
Inductive paged (region : mem_region) (stream_id : Z)
  : Z -> Z -> list mem_read -> list miniecu_MemoryDumpPage -> bool -> Prop :=
| paged_end address bytes_rem :
    paged region stream_id address bytes_rem [] [] false
| paged_failed address bytes_rem r data :
    0 < bytes_rem -> r <= 0 ->
    paged region stream_id address bytes_rem
      [mkMemRead region address (Z.min MEMDUMP_SIZE bytes_rem) r data] [] true
| paged_page address bytes_rem r data id reads pages failed :
    0 < bytes_rem -> 0 < r ->
    paged region stream_id (u32 (address + r)) (i32 (bytes_rem - r))
          reads pages failed ->
    paged region stream_id address bytes_rem
      (mkMemRead region address (Z.min MEMDUMP_SIZE bytes_rem) r data :: reads)
      (mkMemoryDumpPage id stream_id address r data :: pages) failed.

(** The (address, size) of the pages of a dump of [bytes_rem] bytes from
    [address] when every read is complete; [k] bounds their number. *)
Fixpoint chunks (k : nat) (address bytes_rem : Z) : list (Z * Z) :=
  match k with
  | O => []
  | S k' =>
      if 0 <? bytes_rem then
        (address, Z.min MEMDUMP_SIZE bytes_rem) ::
        chunks k' (u32 (address + Z.min MEMDUMP_SIZE bytes_rem))
               (bytes_rem - Z.min MEMDUMP_SIZE bytes_rem)
      else []
  end.

(** A reader that always delivers what it is asked for. *)
Definition complete_reads : Prop :=
  forall region address size w,
    0 < size <= MEMDUMP_SIZE ->
    i32 (fst (fst (match region with
                   | MEM_INT_RAM => memdump_int_ram address size w
                   | MEM_EXT_FLASH => memdump_ext_flash address size w
                   end))) = size.

Definition is_int32 (z : Z) : Prop := - 2 ^ 31 <= z < 2 ^ 31.

(** The number of pages of a dump of [n] bytes, and the region a request
    type selects. *)
Definition page_count (n : Z) : nat := Z.to_nat ((n + (MEMDUMP_SIZE - 1)) / MEMDUMP_SIZE).

Definition region_of (type : Z) : option mem_region :=
  if type =? miniecu_MemoryDumpRequest_Type_RAM then Some MEM_INT_RAM
  else if type =? miniecu_MemoryDumpRequest_Type_FLASH then Some MEM_EXT_FLASH
  else None.

(** Only the entry into [pbstxEncodeSend] and what it calls. *)
Definition is_send_detail (e : cevent) : bool :=
  match e with CvSend _ _ _ | CvAlert _ _ => true | _ => false end.

(** A computation that leaves the registry alone and only adds to the
    trace. *)
Definition tidy {A} (c : CM A) : Prop :=
  forall s, m_instances (snd (c s)) = m_instances s /\
            exists evs, ctrace (snd (c s)) = ctrace s ++ evs.

(** The checks of [send_status] and their flags, in source order, and
    the flag word as a fold over both. *)
Definition status_flags : list Z :=
  [miniecu_Status_Flags_TIME_KNOWN;
   miniecu_Status_Flags_IGNITION_ENABLED;
   miniecu_Status_Flags_STARTER_ENABLED;
   miniecu_Status_Flags_ENGINE_RUNNING;
   miniecu_Status_Flags_ERROR;
   miniecu_Status_Flags_UNDERVOLTAGE;
   miniecu_Status_Flags_OVERHEAT;
   miniecu_Status_Flags_HIGH_RPM;
   miniecu_Status_Flags_LOW_FUEL].

Definition status_checks (w : W) : list bool :=
  [time_is_known w;
   ctl_ignition_state w;
   ctl_starter_state w;
   rpm_is_engine_running w;
   alert_check_error w;
   batt_check_voltage w;
   temp_check_temperature w;
   rpm_check_limit w;
   flow_check_fuel w].

Definition set_flags (checks : list (bool * Z)) (flags : Z) : Z :=
  fold_left (fun (acc : Z) (cf : bool * Z) =>
               if fst cf then u32 (Z.lor acc (snd cf)) else acc)
            checks flags.

(** A failed poll of the line of device [dev]. *)
Definition failed_poll (dev : Z) (e : cevent) : Prop :=
  exists ret, e = CvReceive dev ret /\ ret <> MSG_OK.

End CommModel.

(** ** A scripted message layer

    A [CommPlatform] over the scripted channel, to run the message layer
    on.  A submessage is its fields one per byte behind a length byte, a
    tag is [8 * tag + wire type] in one byte, and the encoder fails when
    the buffer is too small.  The parameter store holds three parameters
    named [p0], [p1], [p2]; both memory regions deliver what they are
    asked for.  [receive] is the device layer's receive call. *)

Definition demo_fields : list pb_field_t :=
  [mkField 1 7 miniecu_Status_fields;
   mkField 2 7 miniecu_StatusText_fields;
   mkField 3 7 miniecu_TimeReference_fields;
   mkField 4 7 miniecu_Command_fields;
   mkField 5 7 miniecu_ParamRequest_fields;
   mkField 6 7 miniecu_ParamSet_fields;
   mkField 7 7 miniecu_ParamValue_fields;
   mkField 8 7 miniecu_LogRequest_fields;
   mkField 9 7 miniecu_MemoryDumpRequest_fields;
   mkField 10 7 miniecu_MemoryDumpPage_fields;
   mkField 0 0 miniecu_Status_fields].

Definition os_write (bytes : list Z) (os : pb_ostream_t) : bool * pb_ostream_t :=
  let n := Z.of_nat (length bytes) in
  if bytes_written os + n <=? os_max_size os
  then (true,
        mkOstream (firstn (Z.to_nat (bytes_written os)) (os_buffer os) ++ bytes)
                  (os_max_size os) (bytes_written os + n))
  else (false, os).

Definition demo_body (m : submsg) : list Z :=
  match m with
  | Msg_Status st => [sts_engine_id st; sts_status st]
  | Msg_StatusText st => st_text st
  | Msg_TimeReference r =>
      [tr_engine_id r; tr_timestamp_ms r] ++
      (if tr_has_timediff r then [tr_timediff r] else [])
  | Msg_Command c =>
      [cmd_engine_id c; cmd_operation c] ++
      (if cmd_has_response c then [cmd_response c] else [])
  | Msg_ParamValue pv =>
      [pv_engine_id pv; pv_param_index pv; pv_param_count pv] ++ pv_value pv
  | Msg_MemoryDumpPage p =>
      [mdp_engine_id p; mdp_stream_id p; mdp_address p; mdp_page_size p] ++
      mdp_page_bytes p
  end.

Definition demo_substream (s : list Z) : option (list Z) :=
  match s with
  | [] => None
  | n :: rest =>
      if (0 <=? n) && (n <=? Z.of_nat (length rest))
      then Some (firstn (Z.to_nat n) rest) else None
  end.

Definition demo_decode_tag (s : list Z) : option (Z * Z * list Z) :=
  match s with
  | [] => None
  | k :: rest => Some (k mod 8, k / 8, rest)
  end.

Definition demo_skip_field (s : list Z) (wire_type : Z) : list Z :=
  if wire_type =? 2 then
    match s with
    | [] => []
    | n :: rest => skipn (Z.to_nat n) rest
    end
  else skipn 1 s.

Definition demo_decode_TimeReference (s : list Z) : bool * miniecu_TimeReference :=
  match s with
  | [id; ts] => (true, mkTimeReference id false 0 ts false 0)
  | [id; ts; diff] => (true, mkTimeReference id false 0 ts true diff)
  | _ => (false, mkTimeReference 0 false 0 0 false 0)
  end.

Definition demo_decode_Command (s : list Z) : bool * miniecu_Command :=
  match s with
  | [id; op] => (true, mkCommand id op false 0)
  | [id; op; r] => (true, mkCommand id op true r)
  | _ => (false, mkCommand 0 0 false 0)
  end.

Definition demo_decode_ParamRequest (s : list Z) : bool * miniecu_ParamRequest :=
  match s with
  | [id] => (true, mkParamRequest id false [] false 0)
  | [id; 0; idx] => (true, mkParamRequest id false [] true idx)
  | id :: 1 :: name => (true, mkParamRequest id true name false 0)
  | _ => (false, mkParamRequest 0 false [] false 0)
  end.

Definition demo_decode_ParamSet (s : list Z) : bool * miniecu_ParamSet :=
  match s with
  | id :: v :: name => (true, mkParamSet id name [v])
  | _ => (false, mkParamSet 0 [] [])
  end.

Definition demo_decode_MemoryDumpRequest (s : list Z)
  : bool * miniecu_MemoryDumpRequest :=
  match s with
  | [id; type; stream_id; address; size] =>
      (true, mkMemoryDumpRequest id type stream_id address size)
  | _ => (false, mkMemoryDumpRequest 0 0 0 0 0)
  end.

(** Parameter [p<i>] has index [i] and value [10 * i]. *)
Definition demo_param_get (id : list Z) (w : stream_world) : Z * ParamT * Z :=
  match c_string id with
  | [112; d] =>
      if (48 <=? d) && (d <? 51) then (0, [10 * (d - 48)], d - 48)
      else (2, [], 0)
  | _ => (2, [], 0)
  end.

Definition demo_param_get_by_idx (idx : Z) (w : stream_world)
  : Z * list Z * ParamT :=
  if (0 <=? idx) && (idx <? 3) then (0, [112; 48 + idx; 0], [10 * idx])
  else (2, [], []).

Definition demo_memdump (fill : Z) (address size : Z) (w : stream_world)
  : (Z * list Z) * stream_world :=
  (size, repeat fill (Z.to_nat size), w).

(** A frame on the receive script: a length, then that many bytes. *)
Definition frame_receive (dev : Z) (msg : pbstx_message_t) (w : stream_world)
  : (Z * pbstx_message_t) * stream_world :=
  match rxq w with
  | RxByte n :: q =>
      let '(f, d, q') := take_bytes (Z.to_nat n) q in
      match f with
      | Some code =>
          (code, msg, mkStream q' (term_script w) (tx_script w))
      | None =>
          (0, mkMessage d n, mkStream q' (term_script w) (tx_script w))
      end
  | RxReset :: q => (-2, msg, mkStream q (term_script w) (tx_script w))
  | RxTimeout :: q => (-1, msg, mkStream q (term_script w) (tx_script w))
  | [] => (-1, msg, w)
  end.

(** A line on which nothing ever arrives. *)
Definition silent_receive (dev : Z) (msg : pbstx_message_t) (w : stream_world)
  : (Z * pbstx_message_t) * stream_world := (-1, msg, w).

Definition scripted_comm
    (receive : Z -> pbstx_message_t -> stream_world ->
               (Z * pbstx_message_t) * stream_world)
    (elapsed : Z) : CommPlatform := {|
  comm_base := demo;
  PBSTX_PAYLOAD_BYTES := 255;
  PT_ID_SIZE := 16;
  PARAM_OK := 0;
  PARAM_LIMIT := 1;
  miniecu_MemoryDumpRequest_Type_RAM := 0;
  miniecu_MemoryDumpRequest_Type_FLASH := 1;
  miniecu_Message_fields := demo_fields;
  gp_engine_id := fun _ => 1;
  pb_encode_tag_for_field := fun f os => os_write [8 * f_tag f + 2] os;
  pb_encode_submessage := fun _ m os =>
    os_write (Z.of_nat (length (demo_body m)) :: demo_body m) os;
  pbstxSend := fun _ _ w => stream_put 0 0 w;
  pb_make_string_substream := demo_substream;
  pb_decode_TimeReference := demo_decode_TimeReference;
  pb_decode_Command := demo_decode_Command;
  pb_decode_ParamRequest := demo_decode_ParamRequest;
  pb_decode_ParamSet := demo_decode_ParamSet;
  pb_decode_LogRequest := fun _ => true;
  pb_decode_MemoryDumpRequest := demo_decode_MemoryDumpRequest;
  command_request := fun op w => (100 + op, w);
  time_get_systime := fun _ => 1000;
  time_set_timestamp := fun ts w => (ts - 1000, w);
  param_count := fun _ => 3;
  param_get := demo_param_get;
  param_get_by_idx := demo_param_get_by_idx;
  param_set := fun _ _ w => (0, w);
  memdump_int_ram := demo_memdump 170;
  memdump_ext_flash := demo_memdump 255;
  chvprintf := fun fmt _ => fmt;
  PB_WT_STRING := 2;
  PB_LTYPE_SUBMESSAGE := 7;
  pb_decode_tag := demo_decode_tag;
  pb_skip_field := demo_skip_field;
  pbstxReceive := receive;
  pbstxObjectInit := fun _ w => w;
  chRegSetThreadName := fun w => w;
  chThdShouldTerminateX := stream_should_terminate;
  chVTTimeElapsedSinceX := fun _ _ => elapsed;
  osalOsGetSystemTimeX := fun _ => 0;
  gp_status_period := fun _ => 1000;
  gp_debug_enable_adc_raw := fun _ => false;
  gp_debug_enable_memdump := fun _ => true;
  miniecu_Status_init_default :=
    mkStatus 0 0 0 false 0 0 0 false 0 0 false 0 false 0 false 0
             false 0 0 false 0 false 0 0 0 0 0 0 0 0 0 0;
  miniecu_Status_Flags_TIME_KNOWN := 1;
  miniecu_Status_Flags_IGNITION_ENABLED := 2;
  miniecu_Status_Flags_STARTER_ENABLED := 4;
  miniecu_Status_Flags_ENGINE_RUNNING := 8;
  miniecu_Status_Flags_ERROR := 16;
  miniecu_Status_Flags_UNDERVOLTAGE := 32;
  miniecu_Status_Flags_OVERHEAT := 64;
  miniecu_Status_Flags_HIGH_RPM := 128;
  miniecu_Status_Flags_LOW_FUEL := 256;
  time_is_known := fun _ => true;
  ctl_ignition_state := fun _ => true;
  ctl_starter_state := fun _ => false;
  rpm_is_engine_running := fun _ => true;
  alert_check_error := fun _ => false;
  batt_check_voltage := fun _ => false;
  temp_check_temperature := fun _ => true;
  rpm_check_limit := fun _ => false;
  flow_check_fuel := fun _ => true;
  time_get_timestamp := fun _ => 0;
  rpm_get_filtered := fun _ => 3000;
  batt_get_voltage := fun _ => 12;
  batt_get_remaining := fun old _ => (false, old);
  temp_get_temperature := fun _ => 90;
  oilp_get_temperature := fun old _ => (false, old);
  cpu_get_temperature := fun _ => 40;
  cpu_get_rtc_voltage := fun _ _ => (true, 3);
  flow_get_flow := fun old _ => (false, old);
  flow_get_used_ml := fun _ => 0;
  flow_get_remaining := fun old _ => (false, old);
  adc_get := fun _ _ => 0
|}.

Definition demo_comm : CommPlatform := scripted_comm frame_receive 0.
Definition quiet_comm : CommPlatform := scripted_comm silent_receive 0.

(** A state of the scripted layer: the channel scripts, an empty trace
    and the registry [slots]. *)
Definition demo_cstate (q : list rx_item) (ts : list bool) (ws : list Z)
    (slots : list (option Z)) : @cstate demo_comm :=
  mkCstate (CP:=demo_comm) (mkStream q ts ws) [] slots.

Definition quiet_cstate (ts : list bool) (slots : list (option Z))
  : @cstate quiet_comm :=
  mkCstate (CP:=quiet_comm) (mkStream [] ts []) [] slots.

(** An empty message object. *)
Definition no_message : pbstx_message_t := mkMessage [] 0.
(** ** Properties over any platform *)

Ltac fields :=
  cbv beta iota;
  cbn [world trace seq pkt_crc rx_state tx_seq msgid_cell payload_buf
       payload_len_cell log set_world set_seq set_pkt_crc set_rx_state
       set_tx_seq set_msgid set_payload set_payload_len fst snd].

Ltac settle :=
  unfold set_world, set_seq, set_pkt_crc, set_rx_state, set_tx_seq,
    set_msgid, set_payload, set_payload_len, log;
  cbv beta iota;
  cbn [world trace seq pkt_crc rx_state tx_seq msgid_cell payload_buf
       payload_len_cell fst snd rxq term_script tx_script].

Ltac unfold_calls :=
  unfold rx_loop_body, rx_switch, case_PR_PAYLOAD, unlock_ret, send_crc,
    do_chThdShouldTerminate, do_chnGetTimeout, do_chnReadTimeout,
    do_chnWriteTimeout, do_chnPutTimeout, do_chMtxLock, do_chMtxUnlock,
    do_alert_component, mbind, mret, modify, gets in *.

Section Properties.

Context {P : Platform}.

(** One round of the loop when the byte read fails: the code goes back
    to the caller and nothing but the world and the trace has moved. *)
Lemma receive_get_failed (fuel : nat) (s : machine) (w1 w2 : W) (r : Z) :
  chThdShouldTerminate (world s) = (false, w1) ->
  chnGetTimeout SER_TIMEOUT w1 = (r, w2) ->
  chan_failed r = true ->
  pbstx_receive (S fuel) s =
    (Some r,
     mkMachine w2 (trace s ++ [EvShouldTerminate false; EvGet SER_TIMEOUT r])
               (seq s) (pkt_crc s) (rx_state s) (tx_seq s)
               (msgid_cell s) (payload_buf s) (payload_len_cell s)).
Proof.
  intros Hterm Hget Hfail.
  cbn [pbstx_receive]. unfold_calls.
  rewrite Hterm. cbn. rewrite Hget, Hfail. cbn.
  unfold log, set_world; cbn. rewrite <- app_assoc. reflexivity.
Qed.

Lemma chan_failed_codes (r : Z) :
  chan_failed r = true <-> r = Q_TIMEOUT \/ r = Q_RESET.
Proof.
  unfold chan_failed. rewrite orb_true_iff, !Z.eqb_eq. tauto.
Qed.

(** One round of the loop when a byte arrives: the switch runs on it. *)
Lemma receive_byte (fuel : nat) (s : machine) (w1 w2 : W) (r : Z) :
  chThdShouldTerminate (world s) = (false, w1) ->
  chnGetTimeout SER_TIMEOUT w1 = (r, w2) ->
  chan_failed r = false ->
  pbstx_receive (S fuel) s =
    let (o, s') :=
      rx_switch r
        (mkMachine w2 (trace s ++ [EvShouldTerminate false; EvGet SER_TIMEOUT r])
                   (seq s) (pkt_crc s) (rx_state s) (tx_seq s)
                   (msgid_cell s) (payload_buf s) (payload_len_cell s)) in
    match o with
    | Some v => (Some v, s')
    | None => pbstx_receive fuel s'
    end.
Proof.
  intros Hterm Hget Hok.
  cbn [pbstx_receive]. unfold rx_loop_body, do_chThdShouldTerminate,
    do_chnGetTimeout, mbind, mret.
  rewrite Hterm. fields. rewrite Hget. fields. rewrite Hok.
  unfold log, set_world. fields. rewrite <- app_assoc. cbn [app].
  destruct (rx_switch r _) as [[v|] s']; reflexivity.
Qed.

(** The loop leaves on the spot when asked to terminate. *)
Lemma receive_terminate (fuel : nat) (s : machine) (w1 : W) :
  chThdShouldTerminate (world s) = (true, w1) ->
  pbstx_receive (S fuel) s =
    (Some MSG_RESET,
     mkMachine w1 (trace s ++ [EvShouldTerminate true])
               (seq s) (pkt_crc s) (rx_state s) (tx_seq s)
               (msgid_cell s) (payload_buf s) (payload_len_cell s)).
Proof.
  intros Hterm. cbn [pbstx_receive].
  unfold do_chThdShouldTerminate, mbind, mret. rewrite Hterm. reflexivity.
Qed.

(** What one pass through the loop body adds to the trace: a byte read,
    possibly a block read, possibly an alert; never a termination check. *)
Lemma rx_loop_body_trace (s : machine) :
  exists body,
    trace (snd (rx_loop_body s)) = trace s ++ body /\
    existsb is_term_check body = false.
Proof.
  unfold_calls.
  destruct (chnGetTimeout SER_TIMEOUT (world s)) as [r w2].
  destruct (chan_failed r).
  - eexists; split; [reflexivity | reflexivity].
  - cbn. destruct (rx_state s); cbn.
    + destruct (r =? HDR_START); cbn; eexists; split; reflexivity.
    + eexists; split; reflexivity.
    + eexists; split; reflexivity.
    + destruct (u8 r =? 0); cbn.
      * eexists; split; reflexivity.
      * destruct (chnReadTimeout (u8 r) SER_PAYLOAD_TIMEOUT w2) as [[r2 d] w3].
        destruct (chan_failed r2); cbn; rewrite <- !app_assoc;
          eexists; split; reflexivity.
    + destruct (chnReadTimeout (payload_len_cell s) SER_PAYLOAD_TIMEOUT w2)
        as [[r2 d] w3].
      destruct (chan_failed r2); cbn; rewrite <- !app_assoc;
        eexists; split; reflexivity.
    + destruct (pkt_crc s =? r); cbn; rewrite <- !app_assoc;
        eexists; split; reflexivity.
Qed.

(** The same, call by call: the single-byte read comes first, and what
    follows it is the switch's. *)
Lemma rx_loop_body_calls (s : machine) :
  exists r body,
    trace (snd (rx_loop_body s)) = trace s ++ EvGet SER_TIMEOUT r :: body /\
    forallb is_switch_call body = true.
Proof.
  unfold_calls.
  destruct (chnGetTimeout SER_TIMEOUT (world s)) as [r w2].
  exists r.
  destruct (chan_failed r).
  - eexists; split; [reflexivity | reflexivity].
  - cbn. destruct (rx_state s); cbn.
    + destruct (r =? HDR_START); cbn; eexists; split; reflexivity.
    + eexists; split; reflexivity.
    + eexists; split; reflexivity.
    + destruct (u8 r =? 0); cbn.
      * eexists; split; reflexivity.
      * destruct (chnReadTimeout (u8 r) SER_PAYLOAD_TIMEOUT w2) as [[r2 d] w3].
        destruct (chan_failed r2); cbn; rewrite <- !app_assoc;
          eexists; split; reflexivity.
    + destruct (chnReadTimeout (payload_len_cell s) SER_PAYLOAD_TIMEOUT w2)
        as [[r2 d] w3].
      destruct (chan_failed r2); cbn; rewrite <- !app_assoc;
        eexists; split; reflexivity.
    + destruct (pkt_crc s =? r); cbn; rewrite <- !app_assoc;
        eexists; split; reflexivity.
Qed.

Lemma receive_loop_run (fuel : nat) :
  forall s, exists n evs,
    trace (snd (pbstx_receive fuel s)) = trace s ++ evs /\
    loop_run n evs (fst (pbstx_receive fuel s)) /\
    (n <= fuel)%nat /\
    (fst (pbstx_receive fuel s) = None -> n = fuel).
Proof.
  induction fuel as [|fuel IH]; intros s.
  - exists 0%nat, []. cbn. rewrite app_nil_r.
    repeat split; [constructor | lia].
  - cbn [pbstx_receive]. unfold do_chThdShouldTerminate, mbind, mret.
    destruct (chThdShouldTerminate (world s)) as [[|] w1].
    + exists 1%nat, [EvShouldTerminate true].
      repeat split; [constructor | lia | intros H; discriminate H].
    + set (s1 := log (EvShouldTerminate false) (set_world w1 s)).
      destruct (rx_loop_body_calls s1) as (r & body & Hb & Hsw).
      destruct (rx_loop_body s1) as [[v|] s2] eqn:Hbody; cbn in Hb.
      * exists 1%nat, (EvShouldTerminate false :: EvGet SER_TIMEOUT r :: body).
        split; [cbn; rewrite Hb; subst s1; cbn; rewrite <- app_assoc; reflexivity|].
        split; [cbn; constructor; exact Hsw|].
        split; [lia | intros H; discriminate H].
      * destruct (IH s2) as (n & rest & Hr & Hrun & Hn & Hfuel).
        exists (S n), (EvShouldTerminate false :: EvGet SER_TIMEOUT r :: body ++ rest).
        split; [rewrite Hr, Hb; subst s1; cbn; rewrite <- !app_assoc; reflexivity|].
        split; [constructor; assumption|].
        split; [lia | intros H; rewrite (Hfuel H); reflexivity].
Qed.

Lemma switch_call_no_check (body : list event) :
  forallb is_switch_call body = true -> filter is_term_check body = [].
Proof.
  induction body as [|e body IH]; [reflexivity|].
  cbn. intros H. apply andb_prop in H. destruct H as [He Hb].
  destruct e; try discriminate He; cbn; exact (IH Hb).
Qed.

Lemma no_term_check_not_in (body : list event) (b : bool) :
  forallb is_switch_call body = true -> ~ In (EvShouldTerminate b) body.
Proof.
  intros H Hin. rewrite forallb_forall in H.
  specialize (H _ Hin). discriminate H.
Qed.

(** In a run, the checks are as many as the iterations. *)
Lemma loop_run_checks (n : nat) (evs : list event) (res : option Z) :
  loop_run n evs res -> length (filter is_term_check evs) = n.
Proof.
  induction 1 as [| |r body v Hsw|n r body rest res Hsw Hrun IH].
  - reflexivity.
  - reflexivity.
  - cbn. rewrite (switch_call_no_check _ Hsw). reflexivity.
  - cbn. rewrite filter_app, (switch_call_no_check _ Hsw). cbn.
    rewrite IH. reflexivity.
Qed.

Lemma loop_run_stop_last (n : nat) (evs : list event) (res : option Z) :
  loop_run n evs res ->
  In (EvShouldTerminate true) evs ->
  res = Some MSG_RESET /\ exists pre, evs = pre ++ [EvShouldTerminate true].
Proof.
  induction 1 as [| |r body v Hsw|n r body rest res Hsw Hrun IH]; intros Hin.
  - destruct Hin.
  - split; [reflexivity | exists []; reflexivity].
  - destruct Hin as [Heq|[Heq|Hin]]; [discriminate|discriminate|].
    exfalso. eapply no_term_check_not_in; eassumption.
  - destruct Hin as [Heq|[Heq|Hin]]; [discriminate|discriminate|].
    apply in_app_or in Hin. destruct Hin as [Hin|Hin].
    + exfalso. eapply no_term_check_not_in; eassumption.
    + destruct (IH Hin) as (Hres & pre & Hpre). split; [exact Hres|].
      exists (EvShouldTerminate false :: EvGet SER_TIMEOUT r :: body ++ pre).
      rewrite Hpre. cbn. rewrite <- app_assoc. reflexivity.
Qed.

Lemma receive_calls_S (fuel k : nat) (s : machine) :
  fst (receive_calls fuel (S k) s) =
  fst (pbstx_receive fuel s) ::
  fst (receive_calls fuel k (snd (pbstx_receive fuel s))).
Proof.
  cbn [receive_calls]. destruct (pbstx_receive fuel s) as [r s1].
  cbn [fst snd]. destruct (receive_calls fuel k s1) as [rs s2]. reflexivity.
Qed.

(** [PR_PAYLOAD] is only passed through: a loop body entered in any
    other state never ends in it. *)
Lemma rx_loop_body_not_payload (s : machine) :
  rx_state s <> PR_PAYLOAD ->
  rx_state (snd (rx_loop_body s)) <> PR_PAYLOAD.
Proof.
  intros Hst. unfold_calls.
  destruct (chnGetTimeout SER_TIMEOUT (world s)) as [r w2]. fields.
  destruct (chan_failed r); fields; [exact Hst|].
  destruct (rx_state s) eqn:E; fields; rewrite ?E; try discriminate.
  - destruct (r =? HDR_START); fields; rewrite ?E; discriminate.
  - destruct (u8 r =? 0); fields; [discriminate|].
    destruct (chnReadTimeout (u8 r) SER_PAYLOAD_TIMEOUT w2) as [[r2 d] w3].
    fields. destruct (chan_failed r2); fields; discriminate.
  - congruence.
  - destruct (pkt_crc s =? r); fields; discriminate.
Qed.

(** *** The receiver, state by state *)

(** C4.  When the receiver is idle ([PR_WAIT_START]) and the single-byte
    read times out or the channel resets, [pbstx_receive] returns that
    code as its "no data" result: no alert is raised, the receiver stays
    idle, and neither its statics nor the caller's out-parameters are
    touched. *)
Theorem idle_read_failure_is_no_data
    (fuel : nat) (s : machine) (w1 w2 : W) (r : Z) :
  rx_state s = PR_WAIT_START ->
  chThdShouldTerminate (world s) = (false, w1) ->
  chnGetTimeout SER_TIMEOUT w1 = (r, w2) ->
  r = Q_TIMEOUT \/ r = Q_RESET ->
  exists s' evs,
    pbstx_receive (S fuel) s = (Some r, s') /\
    trace s' = trace s ++ evs /\
    existsb is_alert evs = false /\
    rx_state s' = PR_WAIT_START /\
    seq s' = seq s /\ pkt_crc s' = pkt_crc s /\
    msgid_cell s' = msgid_cell s /\
    payload_buf s' = payload_buf s /\
    payload_len_cell s' = payload_len_cell s.
Proof.
  intros Hst Hterm Hget Hr. apply chan_failed_codes in Hr.
  rewrite (receive_get_failed fuel s w1 w2 r Hterm Hget Hr).
  eexists. exists [EvShouldTerminate false; EvGet SER_TIMEOUT r].
  split; [reflexivity|]. cbn. rewrite Hst. repeat split; reflexivity.
Qed.

(** C9.  In the mid-frame states [PR_SEQ], [PR_MSGID], [PR_LEN] and
    [PR_CRC] a single-byte read that times out or resets makes
    [pbstx_receive] return that code with [rx_state], [pkt_crc] and [seq]
    as they were, and without an alert; the next call resumes in the
    same state. *)
Theorem midframe_byte_timeout_keeps_state
    (fuel : nat) (s : machine) (w1 w2 : W) (r : Z) :
  rx_state s = PR_SEQ \/ rx_state s = PR_MSGID \/
  rx_state s = PR_LEN \/ rx_state s = PR_CRC ->
  chThdShouldTerminate (world s) = (false, w1) ->
  chnGetTimeout SER_TIMEOUT w1 = (r, w2) ->
  r = Q_TIMEOUT \/ r = Q_RESET ->
  exists s' evs,
    pbstx_receive (S fuel) s = (Some r, s') /\
    rx_state s' = rx_state s /\
    pkt_crc s' = pkt_crc s /\
    seq s' = seq s /\
    trace s' = trace s ++ evs /\
    existsb is_alert evs = false.
Proof.
  intros _ Hterm Hget Hr. apply chan_failed_codes in Hr.
  rewrite (receive_get_failed fuel s w1 w2 r Hterm Hget Hr).
  eexists. exists [EvShouldTerminate false; EvGet SER_TIMEOUT r].
  cbn. repeat split; reflexivity.
Qed.

(** One round of the loop in [PR_CRC]: the byte is compared with
    [pkt_crc]. *)
Lemma receive_crc_byte
    (fuel : nat) (s : machine) (w1 w2 : W) (r : Z) :
  rx_state s = PR_CRC ->
  chThdShouldTerminate (world s) = (false, w1) ->
  chnGetTimeout SER_TIMEOUT w1 = (r, w2) ->
  chan_failed r = false ->
  exists s',
    pbstx_receive (S fuel) s =
      (Some (if pkt_crc s =? r then MSG_OK else MSG_RESET), s') /\
    rx_state s' = PR_WAIT_START /\
    trace s' = trace s ++
      [EvShouldTerminate false; EvGet SER_TIMEOUT r;
       EvAlert ALS_COMM (if pkt_crc s =? r then AL_NORMAL else AL_FAIL)].
Proof.
  intros Hst Hterm Hget Hok.
  rewrite (receive_byte fuel s w1 w2 r Hterm Hget Hok).
  unfold_calls. fields. rewrite Hst. fields.
  destruct (pkt_crc s =? r); fields; eexists;
    (split; [reflexivity|]); cbn; rewrite <- app_assoc; split; reflexivity.
Qed.

(** C3, as the code has it.  When the block read of the payload, entered
    from [PR_LEN] on a non-zero length byte, returns [Q_TIMEOUT] or
    [Q_RESET], [pbstx_receive] returns that code, raises [AL_FAIL] for
    [ALS_COMM] and leaves [rx_state] at [PR_WAIT_START]. *)
Theorem payload_read_failure_resyncs
    (fuel : nat) (s : machine) (w1 w2 w3 : W) (r r2 : Z) (data : list Z) :
  rx_state s = PR_LEN ->
  chThdShouldTerminate (world s) = (false, w1) ->
  chnGetTimeout SER_TIMEOUT w1 = (r, w2) ->
  chan_failed r = false ->
  u8 r <> 0 ->
  chnReadTimeout (u8 r) SER_PAYLOAD_TIMEOUT w2 = (r2, data, w3) ->
  r2 = Q_TIMEOUT \/ r2 = Q_RESET ->
  exists s',
    pbstx_receive (S fuel) s = (Some r2, s') /\
    rx_state s' = PR_WAIT_START /\
    trace s' = trace s ++
      [EvShouldTerminate false; EvGet SER_TIMEOUT r;
       EvRead (u8 r) SER_PAYLOAD_TIMEOUT r2 (firstn (Z.to_nat (u8 r)) data);
       EvAlert ALS_COMM AL_FAIL].
Proof.
  intros Hst Hterm Hget Hok Hlen Hread Hr2. apply chan_failed_codes in Hr2.
  rewrite (receive_byte fuel s w1 w2 r Hterm Hget Hok).
  unfold_calls. fields. rewrite Hst. fields.
  apply Z.eqb_neq in Hlen. rewrite Hlen. fields. rewrite Hread. fields.
  rewrite Hr2. fields.
  eexists. split; [reflexivity|]. cbn. rewrite <- !app_assoc.
  split; reflexivity.
Qed.

(** C7.  In state [PR_LEN], on a received length byte: when it is zero,
    the loop body ends in [PR_CRC] having made no block read (the byte
    read is its only call and the payload buffer is untouched); when it
    is not zero, the next call is the block read of exactly that many
    bytes. *)
Theorem len_state_zero_skips_payload (s : machine) (w2 : W) (r : Z) :
  rx_state s = PR_LEN ->
  chnGetTimeout SER_TIMEOUT (world s) = (r, w2) ->
  chan_failed r = false ->
  (u8 r = 0 ->
   exists s',
     rx_loop_body s = (None, s') /\
     rx_state s' = PR_CRC /\
     payload_len_cell s' = 0 /\
     payload_buf s' = payload_buf s /\
     trace s' = trace s ++ [EvGet SER_TIMEOUT r]) /\
  (u8 r <> 0 ->
   exists o s' r2 data tail,
     rx_loop_body s = (o, s') /\
     payload_len_cell s' = u8 r /\
     trace s' = trace s ++
       EvGet SER_TIMEOUT r :: EvRead (u8 r) SER_PAYLOAD_TIMEOUT r2 data :: tail /\
     existsb is_chan_read tail = false).
Proof.
  intros Hst Hget Hok. split; intros Hlen.
  - unfold_calls. rewrite Hget. fields. rewrite Hok. fields. rewrite Hst. fields.
    rewrite Hlen. cbn [Z.eqb]. fields.
    eexists. repeat split; reflexivity.
  - unfold_calls. rewrite Hget. fields. rewrite Hok. fields. rewrite Hst. fields.
    apply Z.eqb_neq in Hlen. rewrite Hlen. fields.
    destruct (chnReadTimeout (u8 r) SER_PAYLOAD_TIMEOUT w2) as [[r2 d] w3].
    fields. destruct (chan_failed r2); fields.
    + do 2 eexists. exists r2, (firstn (Z.to_nat (u8 r)) d), [EvAlert ALS_COMM AL_FAIL].
      split; [reflexivity|]. cbn. rewrite <- !app_assoc. repeat split; reflexivity.
    + do 2 eexists. exists r2, (firstn (Z.to_nat (u8 r)) d), [].
      split; [reflexivity|]. cbn. rewrite <- !app_assoc. repeat split; reflexivity.
Qed.

(** C8.  The loop of [pbstx_receive] asks for termination exactly once
    per iteration.  The calls of every run are a sequence of iterations,
    each made of one termination check, then (on a no) the one
    single-byte read of the loop body, then what the switch does on it,
    with no second check and no second single-byte read before the next
    iteration; so the checks are as many as the iterations, at most the
    fuel, and exactly the fuel when the loop is still running.  A yes is
    the last call of the run: the function returns [MSG_RESET] at once,
    with no channel read after it and none of its state changed. *)
Theorem termination_checked_once_per_iteration (fuel : nat) (s : machine) :
  (exists n evs,
     trace (snd (pbstx_receive fuel s)) = trace s ++ evs /\
     loop_run n evs (fst (pbstx_receive fuel s)) /\
     length (filter is_term_check evs) = n /\
     (n <= fuel)%nat /\
     (fst (pbstx_receive fuel s) = None -> n = fuel) /\
     (In (EvShouldTerminate true) evs ->
      fst (pbstx_receive fuel s) = Some MSG_RESET /\
      exists pre, evs = pre ++ [EvShouldTerminate true])) /\
  (forall w1,
     chThdShouldTerminate (world s) = (true, w1) ->
     pbstx_receive (S fuel) s =
       (Some MSG_RESET,
        mkMachine w1 (trace s ++ [EvShouldTerminate true])
                  (seq s) (pkt_crc s) (rx_state s) (tx_seq s)
                  (msgid_cell s) (payload_buf s) (payload_len_cell s))).
Proof.
  split.
  - destruct (receive_loop_run fuel s) as (n & evs & Htr & Hrun & Hn & Hfuel).
    exists n, evs. split; [exact Htr|]. split; [exact Hrun|].
    split; [exact (loop_run_checks _ _ _ Hrun)|].
    split; [exact Hn|]. split; [exact Hfuel|].
    intros Hin. exact (loop_run_stop_last _ _ _ Hrun Hin).
  - intros w1 Hterm. exact (receive_terminate fuel s w1 Hterm).
Qed.

(** *** The sender *)

Lemma updateCRC_app (crc : Z) (xs ys : list Z) :
  fold_left PIOS_CRC_updateByte ys (fold_left PIOS_CRC_updateByte xs crc) =
  fold_left PIOS_CRC_updateByte (xs ++ ys) crc.
Proof. symmetry. apply fold_left_app. Qed.

Lemma pbstx_send_paths (m : Z) (p : list Z) (n : Z) (s : machine) :
  let body := firstn (Z.to_nat (u8 n)) p in
  exists evs,
    trace (snd (pbstx_send m p n s)) = trace s ++ evs /\
    tx_seq (snd (pbstx_send m p n s)) = u8 (tx_seq s + 1) /\
    send_path [HDR_START; tx_seq s; u8 m; u8 n] body
              (crc8 (tx_seq s :: u8 m :: u8 n :: if 0 <? u8 n then body else []))
              (u8 n) evs (fst (pbstx_send m p n s)).
Proof.
  intros body. unfold pbstx_send, PIOS_CRC_updateCRC. unfold_calls. fields.
  match goal with |- context [chnWriteTimeout ?b ?t ?w] =>
    destruct (chnWriteTimeout b t w) as [r1 w1] end.
  fields. destruct (chan_failed r1) eqn:H1; fields.
  - eexists. split; [cbn; rewrite <- !app_assoc; reflexivity|].
    split; [reflexivity|]. cbn [app]. constructor. exact H1.
  - destruct (0 <? u8 n) eqn:Hn.
    + apply Z.ltb_lt in Hn.
      match goal with |- context [chnWriteTimeout ?b ?t ?w] =>
        destruct (chnWriteTimeout b t w) as [r2 w2] end.
      fields. destruct (chan_failed r2) eqn:H2; fields.
      * eexists. split; [cbn; rewrite <- !app_assoc; reflexivity|].
        split; [reflexivity|]. cbn [app]. constructor; assumption.
      * match goal with |- context [chnPutTimeout ?b ?t ?w] =>
          destruct (chnPutTimeout b t w) as [r3 w3] end. fields.
        eexists. split; [cbn; rewrite <- !app_assoc; reflexivity|].
        split; [reflexivity|]. cbn [app]. rewrite updateCRC_app.
        apply send_with_payload; assumption.
    + apply Z.ltb_ge in Hn.
      match goal with |- context [chnPutTimeout ?b ?t ?w] =>
        destruct (chnPutTimeout b t w) as [r3 w3] end. fields.
      eexists. split; [cbn; rewrite <- !app_assoc; reflexivity|].
      split; [reflexivity|]. cbn [app].
      apply send_without_payload; assumption.
Qed.

Lemma u8_byte (b : Z) : is_byte b -> u8 b = b.
Proof. unfold is_byte, u8. intros H. apply Z.mod_small. exact H. Qed.


(** C6.  When a write of the header or of the payload inside
    [pbstx_send] returns [Q_TIMEOUT] or [Q_RESET], that code is what the
    caller gets, the failed write is followed by the mutex release and
    nothing else (no CRC byte, no second attempt), and a failed header
    write is not followed by the payload. *)
Theorem send_failure_aborts
    (m : Z) (p : list Z) (n : Z) (s : machine) (ret : Z) (s' : machine)
    (evs : list event) (bs : list Z) (t r : Z) :
  pbstx_send m p n s = (ret, s') ->
  trace s' = trace s ++ evs ->
  In (EvWrite bs t r) evs ->
  r = Q_TIMEOUT \/ r = Q_RESET ->
  ret = r /\
  existsb is_put evs = false /\
  (evs = [EvLock; EvWrite bs t r; EvUnlock] /\
   bs = [HDR_START; tx_seq s; u8 m; u8 n]
   \/
   exists r1,
     chan_failed r1 = false /\
     evs = [EvLock; EvWrite [HDR_START; tx_seq s; u8 m; u8 n] SER_TIMEOUT r1;
            EvWrite bs t r; EvUnlock] /\
     bs = firstn (Z.to_nat (u8 n)) p).
Proof.
  intros Hsend Htr Hin Hr. apply chan_failed_codes in Hr.
  destruct (pbstx_send_paths m p n s) as (evs' & Htr' & _ & Hpath).
  rewrite Hsend in Htr', Hpath. cbn [fst snd] in *.
  rewrite Htr in Htr'. apply app_inv_head in Htr'. subst evs'.
  inversion Hpath; subst; cbn in Hin;
    repeat match goal with
           | H : _ \/ _ |- _ => destruct H
           | H : False |- _ => destruct H
           | H : _ = EvWrite _ _ _ |- _ => inversion H; subst; clear H
           | H : _ = _ :> event |- _ => discriminate H
           end; try congruence.
  - split; [reflexivity|]. split; [reflexivity|]. left. split; reflexivity.
  - split; [reflexivity|]. split; [reflexivity|]. right.
    eexists. split; [eassumption|]. split; reflexivity.
Qed.

End Properties.

(** ** The running CRC, over any platform *)

(** One round of the loop on the next byte of a [delivers] hypothesis. *)
Ltac take_byte H :=
  let Hterm := fresh "Hterm" in
  let Hget := fresh "Hget" in
  let Hok := fresh "Hok" in
  let Hrest := fresh "Hrest" in
  inversion H as [|? ? ? ? ? ? Hterm Hget Hok Hrest]; subst; clear H;
  erewrite receive_byte; [|exact Hterm|exact Hget|exact Hok];
  unfold rx_switch at 1; unfold mbind, mret, modify, gets; settle.

Section Frame_CRC.

Context {P : Platform}.


Lemma updateByte_u8 (c x : Z) :
  PIOS_CRC_updateByte c (u8 x) = PIOS_CRC_updateByte c x.
Proof.
  unfold PIOS_CRC_updateByte, u8. rewrite (Z.mod_mod x 256) by lia. reflexivity.
Qed.

(** [pbstx_send] leaves the receiver's statics and the out-parameter
    objects alone. *)
Lemma pbstx_send_keeps_receiver (m : Z) (p : list Z) (n : Z) (s : machine) :
  let s' := snd (pbstx_send m p n s) in
  seq s' = seq s /\ pkt_crc s' = pkt_crc s /\ rx_state s' = rx_state s /\
  msgid_cell s' = msgid_cell s /\ payload_buf s' = payload_buf s /\
  payload_len_cell s' = payload_len_cell s.
Proof.
  unfold pbstx_send. unfold_calls. fields.
  match goal with |- context [chnWriteTimeout ?b ?t ?w] =>
    destruct (chnWriteTimeout b t w) as [r1 w1] end.
  fields. destruct (chan_failed r1); fields; [repeat split|].
  destruct (0 <? u8 n); fields.
  - match goal with |- context [chnWriteTimeout ?b ?t ?w] =>
      destruct (chnWriteTimeout b t w) as [r2 w2] end.
    fields. destruct (chan_failed r2); fields; [repeat split|].
    match goal with |- context [chnPutTimeout ?b ?t ?w] =>
      destruct (chnPutTimeout b t w) as [r3 w3] end.
    fields. repeat split.
  - match goal with |- context [chnPutTimeout ?b ?t ?w] =>
      destruct (chnPutTimeout b t w) as [r3 w3] end.
    fields. repeat split.
Qed.

(** One pass through the loop body keeps [pkt_crc] the CRC-8 of the
    fields taken in: this is where the three header bytes and the
    payload are accumulated. *)
Lemma rx_loop_body_covers (s : machine) :
  crc_covers_frame s -> crc_covers_frame (snd (rx_loop_body s)).
Proof.
  unfold crc_covers_frame, frame_fields, crc8. unfold_calls.
  destruct (chnGetTimeout SER_TIMEOUT (world s)) as [r w2]. fields.
  destruct (chan_failed r); fields; [intros H; exact H|].
  destruct (rx_state s) eqn:Hst; fields; intros H.
  - destruct (r =? HDR_START); fields; rewrite ?Hst; exact I.
  - cbn [fold_left]. symmetry. apply updateByte_u8.
  - cbn [fold_left] in *. rewrite H. symmetry. apply updateByte_u8.
  - cbn [fold_left] in H. destruct (u8 r =? 0) eqn:Hz; fields.
    + apply Z.eqb_eq in Hz. rewrite Hz. cbn [Z.to_nat firstn fold_left].
      rewrite H, <- Hz. symmetry. apply updateByte_u8.
    + destruct (chnReadTimeout (u8 r) SER_PAYLOAD_TIMEOUT w2) as [[r2 d] w3].
      fields. destruct (chan_failed r2); fields; [exact I|].
      unfold PIOS_CRC_updateCRC. cbn [fold_left]. rewrite H.
      rewrite (updateByte_u8 _ r). reflexivity.
  - destruct (chnReadTimeout (payload_len_cell s) SER_PAYLOAD_TIMEOUT w2)
      as [[r2 d] w3].
    fields. destruct (chan_failed r2); fields; [exact I|].
    unfold PIOS_CRC_updateCRC. cbn [fold_left] in *. rewrite H. reflexivity.
  - destruct (pkt_crc s =? r); fields; exact I.
Qed.

Lemma pbstx_receive_covers (fuel : nat) :
  forall s, crc_covers_frame s -> crc_covers_frame (snd (pbstx_receive fuel s)).
Proof.
  induction fuel as [|fuel IH]; intros s H; [exact H|].
  cbn [pbstx_receive]. unfold do_chThdShouldTerminate, mbind, mret.
  destruct (chThdShouldTerminate (world s)) as [[|] w1]; [exact H|].
  set (s1 := log (EvShouldTerminate false) (set_world w1 s)).
  assert (H1 : crc_covers_frame s1) by exact H.
  pose proof (rx_loop_body_covers s1 H1) as H2.
  destruct (rx_loop_body s1) as [[v|] s2]; [exact H2|].
  apply IH. exact H2.
Qed.

Lemma reached_covers (s0 s : machine) :
  rx_state s0 = PR_WAIT_START -> reached s0 s -> crc_covers_frame s.
Proof.
  intros Hidle Hr. induction Hr as [|fuel s Hr IH|m p n s Hr IH].
  - unfold crc_covers_frame. rewrite Hidle. exact I.
  - apply pbstx_receive_covers. exact IH.
  - destruct (pbstx_send_keeps_receiver m p n s)
      as (Hseq & Hcrc & Hst & Hm & Hbuf & Hlen).
    revert IH. unfold crc_covers_frame, frame_fields.
    rewrite Hseq, Hcrc, Hst, Hm, Hbuf, Hlen. intros H; exact H.
Qed.

Lemma delivers_end (w w' : W) : delivers w [] w' -> w' = w.
Proof. intros H. inversion H. reflexivity. Qed.

(** Start marker, sequence byte and message-id delivered to an idle
    receiver: three rounds of the loop, and the receiver waits for the
    length. *)
Lemma receive_header (fuel : nat) (s : machine) (sq m : Z) (rest : list Z)
    (w' : W) :
  rx_state s = PR_WAIT_START ->
  delivers (world s) (HDR_START :: sq :: m :: rest) w' ->
  exists w3,
    delivers w3 rest w' /\
    pbstx_receive (3 + fuel) s =
    pbstx_receive fuel
      (mkMachine w3
         (trace s ++ [EvShouldTerminate false; EvGet SER_TIMEOUT HDR_START;
                      EvShouldTerminate false; EvGet SER_TIMEOUT sq;
                      EvShouldTerminate false; EvGet SER_TIMEOUT m])
         (u8 sq) (crc8 [sq; m]) PR_LEN (tx_seq s) (u8 m)
         (payload_buf s) (payload_len_cell s)).
Proof.
  intros Hst Hd.
  change (3 + fuel)%nat with (S (S (S fuel))).
  take_byte Hd. rewrite Hst. change (HDR_START =? HDR_START) with true. settle.
  take_byte Hrest. take_byte Hrest0.
  eexists. split; [eassumption|].
  rewrite <- !app_assoc. reflexivity.
Qed.

(** Start marker, sequence, message-id, length and payload delivered to
    an idle receiver: four rounds of the loop take them in and leave the
    receiver in [PR_CRC], the out-parameters written and [pkt_crc] the
    CRC-8 of what came after the start marker. *)
Lemma receive_body (fuel : nat) (s : machine) (sq m n : Z)
    (data : list Z) (w4 w5 : W) :
  rx_state s = PR_WAIT_START ->
  delivers (world s) [HDR_START; sq; m; n] w4 ->
  delivers_payload w4 (u8 n) data w5 ->
  let buf := store data (payload_buf s) in
  let crc := crc8 (sq :: m :: n :: firstn (Z.to_nat (u8 n)) buf) in
  exists evs,
    pbstx_receive (4 + fuel) s =
      pbstx_receive fuel
        (mkMachine w5 (trace s ++ evs) (u8 sq) crc PR_CRC (tx_seq s)
                   (u8 m) buf (u8 n)) /\
    filter is_alert evs = [].
Proof.
  intros Hst Hd Hp buf crc.
  destruct (receive_header (1 + fuel) s sq m [n] w4 Hst Hd) as (w3 & Hn & Hrun).
  change (4 + fuel)%nat with (3 + (1 + fuel))%nat. rewrite Hrun. clear Hrun.
  change (1 + fuel)%nat with (S fuel).
  take_byte Hn. apply delivers_end in Hrest. subst w4.
  unfold delivers_payload in Hp.
  destruct (u8 n =? 0) eqn:Hz.
  - destruct Hp as [-> ->]. settle.
    assert (Hcrc : PIOS_CRC_updateByte (crc8 [sq; m]) n = crc).
    { subst crc buf. apply Z.eqb_eq in Hz. rewrite Hz. reflexivity. }
    rewrite Hcrc. eexists.
    split; [rewrite <- !app_assoc; reflexivity|reflexivity].
  - destruct Hp as (r & d & Hread & Hrok & ->).
    unfold case_PR_PAYLOAD at 1.
    unfold do_chnReadTimeout, mbind, mret, modify, gets. settle.
    rewrite Hread. settle. rewrite Hrok. settle.
    assert (Hcrc : PIOS_CRC_updateCRC (PIOS_CRC_updateByte (crc8 [sq; m]) n)
                     (store (firstn (Z.to_nat (u8 n)) d) (payload_buf s)) (u8 n)
                   = crc) by reflexivity.
    rewrite Hcrc. eexists.
    split; [rewrite <- !app_assoc; reflexivity|reflexivity].
Qed.

(** A whole frame delivered to an idle receiver: five rounds of the
    loop take it in, the verdict is the comparison of the trailing byte
    with the CRC-8 of the bytes that came after the start marker, and
    the out-parameters hold the frame's fields. *)
Lemma receive_frame (fuel : nat) (s : machine) (sq m n c : Z)
    (data : list Z) (w4 w5 w6 : W) :
  rx_state s = PR_WAIT_START ->
  delivers (world s) [HDR_START; sq; m; n] w4 ->
  delivers_payload w4 (u8 n) data w5 ->
  delivers w5 [c] w6 ->
  let buf := store data (payload_buf s) in
  let crc := crc8 (sq :: m :: n :: firstn (Z.to_nat (u8 n)) buf) in
  let level := if crc =? c then AL_NORMAL else AL_FAIL in
  exists evs,
    pbstx_receive (5 + fuel) s =
      (Some (if crc =? c then MSG_OK else MSG_RESET),
       mkMachine (alert_component ALS_COMM level w6) (trace s ++ evs)
                 (u8 sq) crc PR_WAIT_START (tx_seq s) (u8 m) buf (u8 n)) /\
    filter is_alert evs = [EvAlert ALS_COMM level].
Proof.
  intros Hst Hd Hp Hc buf crc level.
  destruct (receive_body (S fuel) s sq m n data w4 w5 Hst Hd Hp)
    as (evs & Hrun & Hquiet).
  change (5 + fuel)%nat with (4 + S fuel)%nat. rewrite Hrun. clear Hrun.
  fold buf crc.
  take_byte Hc. apply delivers_end in Hrest. subst w6.
  unfold do_alert_component, mbind, mret. settle. subst level.
  destruct (crc =? c); settle; eexists;
    (split; [rewrite <- !app_assoc; reflexivity|]);
    rewrite filter_app, Hquiet; reflexivity.
Qed.

(** C2.  In state [PR_CRC] the running CRC is the CRC-8 accumulated
    over the frame's sequence byte, message-id, length and payload, and
    the received trailing byte is judged against it: when it equals that
    CRC, [pbstx_receive] raises [AL_NORMAL] for [ALS_COMM] and returns
    [MSG_OK]; otherwise it raises [AL_FAIL] and returns [MSG_RESET];
    either way [rx_state] is [PR_WAIT_START] on return.  Stated twice:
    on the bytes, for a frame the channel delivers to an idle receiver
    (four rounds of the loop leave the receiver in [PR_CRC] with
    [pkt_crc] the CRC-8 of the sequence, message-id and length bytes
    received and of the payload the block read left in the buffer, and
    then every trailing byte gets the verdict of the comparison); and on
    the receiver's own record, for every [PR_CRC] state it can be in
    after any calls from idle, among them frames interrupted by timeouts
    and taken up again by a later call ([pkt_crc] is the CRC-8 of [seq],
    [*msgid], [*payload_len] and the first [*payload_len] bytes of
    [payload]). *)
Theorem crc_state_verdict (fuel : nat) :
  (forall (s : machine) (sq m n : Z) (data : list Z) (w4 w5 : W),
     rx_state s = PR_WAIT_START ->
     delivers (world s) [HDR_START; sq; m; n] w4 ->
     delivers_payload w4 (u8 n) data w5 ->
     let payload := firstn (Z.to_nat (u8 n)) (store data (payload_buf s)) in
     let frame_crc := crc8 (sq :: m :: n :: payload) in
     exists s_crc,
       pbstx_receive 4 s = (None, s_crc) /\
       rx_state s_crc = PR_CRC /\
       pkt_crc s_crc = frame_crc /\
       world s_crc = w5 /\
       seq s_crc = u8 sq /\ msgid_cell s_crc = u8 m /\
       payload_len_cell s_crc = u8 n /\
       firstn (Z.to_nat (u8 n)) (payload_buf s_crc) = payload /\
       forall (c : Z) (w6 : W),
         delivers w5 [c] w6 ->
         exists s',
           pbstx_receive (S fuel) s_crc =
             (Some (if frame_crc =? c then MSG_OK else MSG_RESET), s') /\
           rx_state s' = PR_WAIT_START /\
           trace s' = trace s_crc ++
             [EvShouldTerminate false; EvGet SER_TIMEOUT c;
              EvAlert ALS_COMM (if frame_crc =? c then AL_NORMAL else AL_FAIL)]) /\
  (forall (s0 s : machine) (w1 w2 : W) (r : Z),
     rx_state s0 = PR_WAIT_START ->
     reached s0 s ->
     rx_state s = PR_CRC ->
     chThdShouldTerminate (world s) = (false, w1) ->
     chnGetTimeout SER_TIMEOUT w1 = (r, w2) ->
     chan_failed r = false ->
     let frame_crc :=
       crc8 (seq s :: msgid_cell s :: payload_len_cell s ::
             firstn (Z.to_nat (payload_len_cell s)) (payload_buf s)) in
     pkt_crc s = frame_crc /\
     exists s',
       pbstx_receive (S fuel) s =
         (Some (if frame_crc =? r then MSG_OK else MSG_RESET), s') /\
       rx_state s' = PR_WAIT_START /\
       trace s' = trace s ++
         [EvShouldTerminate false; EvGet SER_TIMEOUT r;
          EvAlert ALS_COMM (if frame_crc =? r then AL_NORMAL else AL_FAIL)]).
Proof.
  split.
  - intros s sq m n data w4 w5 Hst Hd Hp payload frame_crc.
    destruct (receive_body 0 s sq m n data w4 w5 Hst Hd Hp) as (evs & Hrun & _).
    fold payload frame_crc in Hrun.
    match type of Hrun with _ = pbstx_receive 0 ?st => exists st end.
    split; [exact Hrun|]. settle.
    repeat (split; [reflexivity|]).
    intros c w6 Hc.
    inversion Hc as [|? w1 w2 ? ? ? Hterm Hget Hok Hrest]; subst.
    apply delivers_end in Hrest. subst w6.
    match goal with |- context [pbstx_receive (S fuel) ?st] =>
      exact (receive_crc_byte fuel st w1 w2 c eq_refl Hterm Hget Hok) end.
  - intros s0 s w1 w2 r Hidle Hreach Hst Hterm Hget Hok frame_crc.
    pose proof (reached_covers s0 s Hidle Hreach) as Hcov.
    unfold crc_covers_frame, frame_fields in Hcov. rewrite Hst in Hcov.
    fold frame_crc in Hcov.
    split; [exact Hcov|].
    rewrite <- Hcov.
    exact (receive_crc_byte fuel s w1 w2 r Hst Hterm Hget Hok).
Qed.

End Frame_CRC.

(** ** Frames through the scripted platform *)

Section Stream.

Variable crc : Z -> Z -> Z.

Local Abbreviation SP := (stream_platform crc).

Lemma byte_not_failed (b : Z) : is_byte b -> chan_failed (P:=SP) b = false.
Proof.
  unfold is_byte, chan_failed. cbn. intros H.
  apply orb_false_iff. split; apply Z.eqb_neq; lia.
Qed.

Lemma take_bytes_map (p : list Z) (q : list rx_item) :
  take_bytes (length p) (map RxByte p ++ q) = (None, p, q).
Proof.
  induction p as [|b p IH]; cbn; [reflexivity|].
  rewrite IH. reflexivity.
Qed.

Lemma firstn_store (p buf : list Z) :
  firstn (length p) (store p buf) = p.
Proof.
  unfold store. rewrite firstn_app, Nat.sub_diag, firstn_all.
  cbn. apply app_nil_r.
Qed.

(** One round of the loop on a script that opens with a byte. *)
Lemma stream_step (fuel : nat) (s : @machine SP) (b : Z) (q : list rx_item) :
  term_script (world s) = [] ->
  rxq (world s) = RxByte b :: q ->
  is_byte b ->
  pbstx_receive (S fuel) s =
    let (o, s') :=
      rx_switch b
        (@mkMachine SP (mkStream q [] (tx_script (world s)))
                    (trace s ++ [EvShouldTerminate false; EvGet 10 b])
                    (seq s) (pkt_crc s) (rx_state s) (tx_seq s)
                    (msgid_cell s) (payload_buf s) (payload_len_cell s)) in
    match o with
    | Some v => (Some v, s')
    | None => pbstx_receive fuel s'
    end.
Proof.
  intros Hts Hq Hb.
  apply (receive_byte (P:=SP) fuel s (world s)).
  - cbn. unfold stream_should_terminate. rewrite Hts. reflexivity.
  - cbn. unfold stream_get. rewrite Hq, Hts. reflexivity.
  - apply byte_not_failed. exact Hb.
Qed.

(** A single-byte read of an exhausted script: timeout, nothing moves. *)
Lemma stream_starved (fuel : nat) (s : @machine SP) :
  term_script (world s) = [] ->
  rxq (world s) = [] ->
  pbstx_receive (S fuel) s =
    (Some (-1),
     @mkMachine SP (world s)
                (trace s ++ [EvShouldTerminate false; EvGet 10 (-1)])
                (seq s) (pkt_crc s) (rx_state s) (tx_seq s)
                (msgid_cell s) (payload_buf s) (payload_len_cell s)).
Proof.
  intros Hts Hq.
  apply (receive_get_failed (P:=SP) fuel s (world s) (world s) (-1)).
  - cbn. unfold stream_should_terminate. rewrite Hts. reflexivity.
  - cbn. unfold stream_get. rewrite Hq. reflexivity.
  - reflexivity.
Qed.

(** Start marker, sequence, message-id, length and payload on the
    script, the receiver idle: four rounds of the loop take them in and
    leave the receiver in [PR_CRC], the out-parameters already written
    and [pkt_crc] the CRC-8 of what came after the start marker. *)
Lemma stream_receive_body
    (fuel : nat) (s : @machine SP) (sq m : Z) (p : list Z)
    (rest : list rx_item) :
  rx_state s = PR_WAIT_START ->
  term_script (world s) = [] ->
  rxq (world s) =
    map RxByte (HDR_START :: sq :: m :: Z.of_nat (length p) :: p) ++ rest ->
  is_byte sq -> is_byte m -> (length p <= 255)%nat ->
  pbstx_receive (4 + fuel) s =
  pbstx_receive fuel
    (@mkMachine SP (mkStream rest [] (tx_script (world s)))
                (trace s ++ frame_events sq m p)
                sq (crc8 (P:=SP) (sq :: m :: Z.of_nat (length p) :: p))
                PR_CRC (tx_seq s) m (store p (payload_buf s))
                (Z.of_nat (length p))).
Proof.
  intros Hst Hts Hq Hsq Hm Hlen.
  assert (Hn : is_byte (Z.of_nat (length p))) by (unfold is_byte; lia).
  assert (Hh : is_byte HDR_START) by (unfold is_byte, HDR_START; lia).
  cbn [map app] in Hq.
  change (4 + fuel)%nat with (S (S (S (S fuel)))).
  rewrite (stream_step _ s _ _ Hts Hq Hh).
  unfold rx_switch at 1. unfold mbind, mret, modify, gets. fields.
  rewrite Hst. change (HDR_START =? HDR_START) with true. settle.
  erewrite (stream_step _ _ sq); [|reflexivity|reflexivity|exact Hsq].
  unfold rx_switch at 1. unfold mbind, mret, modify, gets. settle.
  erewrite (stream_step _ _ m); [|reflexivity|reflexivity|exact Hm].
  unfold rx_switch at 1. unfold mbind, mret, modify, gets. settle.
  erewrite (stream_step _ _ (Z.of_nat (length p)));
    [|reflexivity|reflexivity|exact Hn].
  unfold rx_switch at 1. unfold mbind, mret, modify, gets. settle.
  rewrite !(u8_byte _ Hn), (u8_byte _ Hsq), (u8_byte _ Hm).
  assert (Hcrc : crc8 (P:=SP) (sq :: m :: Z.of_nat (length p) :: p) =
                 fold_left PIOS_CRC_updateByte p
                   (PIOS_CRC_updateByte
                      (PIOS_CRC_updateByte (PIOS_CRC_updateByte 0 sq) m)
                      (Z.of_nat (length p)))) by reflexivity.
  unfold frame_events.
  destruct (Z.of_nat (length p) =? 0) eqn:Hzero.
  - apply Z.eqb_eq in Hzero.
    assert (p = []) by (destruct p; [reflexivity | discriminate]). subst p.
    cbn [length Z.of_nat map app fold_left] in *. settle.
    rewrite <- !app_assoc. reflexivity.
  - unfold case_PR_PAYLOAD at 1.
    unfold do_chnReadTimeout, do_alert_component, mbind, mret, modify, gets.
    settle. cbn [chnReadTimeout SP stream_platform]. unfold stream_read.
    settle. rewrite Nat2Z.id, take_bytes_map, firstn_all.
    rewrite (byte_not_failed _ Hn). settle.
    unfold PIOS_CRC_updateCRC. rewrite Nat2Z.id, firstn_store, <- Hcrc.
    rewrite <- !app_assoc. reflexivity.
Qed.

(** A whole frame on the script, the receiver idle: five rounds of the
    loop consume it, the verdict is that of the CRC comparison, and the
    out-parameters hold the frame's fields whatever the verdict. *)
Lemma stream_receive_frame
    (fuel : nat) (s : @machine SP) (sq m c : Z) (p : list Z)
    (rest : list rx_item) :
  rx_state s = PR_WAIT_START ->
  term_script (world s) = [] ->
  rxq (world s) =
    map RxByte (HDR_START :: sq :: m :: Z.of_nat (length p) :: p ++ [c]) ++ rest ->
  is_byte sq -> is_byte m -> is_byte c -> (length p <= 255)%nat ->
  let good := crc8 (P:=SP) (sq :: m :: Z.of_nat (length p) :: p) =? c in
  pbstx_receive (5 + fuel) s =
    (Some (if good then 0 else -2),
     @mkMachine SP (mkStream rest [] (tx_script (world s)))
                (trace s ++ frame_events sq m p ++
                 [EvShouldTerminate false; EvGet 10 c;
                  EvAlert ALS_COMM (if good then AL_NORMAL else AL_FAIL)])
                sq (crc8 (P:=SP) (sq :: m :: Z.of_nat (length p) :: p))
                PR_WAIT_START (tx_seq s) m (store p (payload_buf s))
                (Z.of_nat (length p))).
Proof.
  intros Hst Hts Hq Hsq Hm Hc Hlen good.
  change (5 + fuel)%nat with (4 + S fuel)%nat.
  rewrite (stream_receive_body (S fuel) s sq m p (RxByte c :: rest));
    try assumption.
  - erewrite (stream_step _ _ c); [|reflexivity|reflexivity|exact Hc].
    unfold rx_switch at 1.
    unfold do_alert_component, mbind, mret, modify, gets. settle.
    fold good. destruct good; settle; rewrite <- !app_assoc; reflexivity.
  - rewrite Hq. cbn [map app]. rewrite map_app, <- app_assoc. reflexivity.
Qed.

Lemma updateByte_is_byte (a b : Z) : is_byte (PIOS_CRC_updateByte (P:=SP) a b).
Proof.
  unfold PIOS_CRC_updateByte, u8, is_byte. apply Z.mod_pos_bound. lia.
Qed.

Lemma crc8_is_byte (x : Z) (l : list Z) : is_byte (crc8 (P:=SP) (x :: l)).
Proof.
  unfold crc8. cbn [fold_left].
  assert (H : forall l c, is_byte c ->
                is_byte (fold_left (PIOS_CRC_updateByte (P:=SP)) l c)).
  { clear. induction l as [|y l IH]; intros c Hc; cbn [fold_left].
    - exact Hc.
    - apply IH, updateByte_is_byte. }
  apply H, updateByte_is_byte.
Qed.

(** Once the script is exhausted every further call times out. *)
Lemma stream_starved_calls (fuel k : nat) :
  forall s : @machine SP,
    term_script (world s) = [] ->
    rxq (world s) = [] ->
    fst (receive_calls (S fuel) k s) = repeat (Some (-1)) k.
Proof.
  induction k as [|k IH]; intros s Hts Hq; [reflexivity|].
  cbn [receive_calls repeat]. rewrite (stream_starved fuel s Hts Hq).
  match goal with |- context [receive_calls _ k ?s1] =>
    specialize (IH s1 Hts Hq); destruct (receive_calls (S fuel) k s1) end.
  cbn [fst] in *. rewrite IH. reflexivity.
Qed.

Lemma filter_alert_frame_events (sq m : Z) (p : list Z) :
  filter is_alert (frame_events sq m p) = [].
Proof.
  unfold frame_events. destruct (Z.of_nat (length p) =? 0); reflexivity.
Qed.

(** C5, as the code has it.  A frame whose start marker and length byte
    are intact but whose trailing byte is not the CRC-8 of its sequence,
    message-id, length and payload, immediately followed by a well-formed
    frame: the first call of [pbstx_receive] reports [MSG_RESET] and
    raises [AL_FAIL]; the second call returns [MSG_OK] and the caller's
    out-parameters hold the second frame's message-id, length and
    payload. *)
Theorem resync_after_bad_crc
    (fuel1 fuel2 : nat) (s : @machine SP)
    (sq1 m1 c1 : Z) (p1 : list Z) (sq2 m2 : Z) (p2 : list Z)
    (rest : list rx_item) :
  rx_state s = PR_WAIT_START ->
  term_script (world s) = [] ->
  rxq (world s) =
    map RxByte ((HDR_START :: sq1 :: m1 :: Z.of_nat (length p1) :: p1 ++ [c1])
                ++ frame (P:=SP) sq2 m2 p2) ++ rest ->
  is_byte sq1 -> is_byte m1 -> is_byte c1 -> (length p1 <= 255)%nat ->
  c1 <> crc8 (P:=SP) (sq1 :: m1 :: Z.of_nat (length p1) :: p1) ->
  is_byte sq2 -> is_byte m2 -> (length p2 <= 255)%nat ->
  (5 <= fuel1)%nat -> (5 <= fuel2)%nat ->
  exists s1 s2 evs1,
    pbstx_receive fuel1 s = (Some (MSG_RESET (P:=SP)), s1) /\
    trace s1 = trace s ++ evs1 /\
    filter is_alert evs1 = [EvAlert ALS_COMM AL_FAIL] /\
    pbstx_receive fuel2 s1 = (Some (MSG_OK (P:=SP)), s2) /\
    msgid_cell s2 = m2 /\
    payload_len_cell s2 = Z.of_nat (length p2) /\
    firstn (length p2) (payload_buf s2) = p2 /\
    rxq (world s2) = rest.
Proof.
  intros Hst Hts Hq Hsq1 Hm1 Hc1 Hl1 Hbad Hsq2 Hm2 Hl2 Hf1 Hf2.
  replace fuel1 with (5 + (fuel1 - 5))%nat by lia.
  replace fuel2 with (5 + (fuel2 - 5))%nat by lia.
  rewrite map_app, <- app_assoc in Hq.
  rewrite (stream_receive_frame _ s sq1 m1 c1 p1 _ Hst Hts Hq Hsq1 Hm1 Hc1 Hl1).
  assert (Hne : (crc8 (P:=SP) (sq1 :: m1 :: Z.of_nat (length p1) :: p1) =? c1) = false)
    by (apply Z.eqb_neq; congruence).
  rewrite Hne.
  match goal with |- context [(Some (-2), ?m1)] => set (s1 := m1) end.
  assert (Hq1 : rxq (world s1) =
            map RxByte (HDR_START :: sq2 :: m2 :: Z.of_nat (length p2) :: p2 ++
                        [crc8 (P:=SP) (sq2 :: m2 :: Z.of_nat (length p2) :: p2)])
            ++ rest) by reflexivity.
  exists s1.
  rewrite (stream_receive_frame _ s1 sq2 m2 _ p2 rest eq_refl eq_refl Hq1
             Hsq2 Hm2 (crc8_is_byte _ _) Hl2).
  rewrite Z.eqb_refl.
  do 2 eexists. split; [reflexivity|]. split; [reflexivity|].
  split.
  { rewrite filter_app, filter_alert_frame_events. reflexivity. }
  split; [reflexivity|]. cbn [msgid_cell payload_len_cell payload_buf world rxq].
  repeat split. apply firstn_store.
Qed.

(** C10.  The out-parameters are written as the frame comes in, before
    the CRC byte is read: after a frame with a wrong trailing byte has
    made [pbstx_receive] return [MSG_RESET], [*msgid], [*payload_len] and
    the front of the payload buffer hold the rejected frame's message-id,
    length and payload, whatever they held before. *)
Theorem rejected_frame_stays_in_out_params
    (fuel : nat) (s : @machine SP) (sq m c : Z) (p : list Z)
    (rest : list rx_item) :
  rx_state s = PR_WAIT_START ->
  term_script (world s) = [] ->
  rxq (world s) =
    map RxByte (HDR_START :: sq :: m :: Z.of_nat (length p) :: p ++ [c]) ++ rest ->
  is_byte sq -> is_byte m -> is_byte c -> (length p <= 255)%nat ->
  c <> crc8 (P:=SP) (sq :: m :: Z.of_nat (length p) :: p) ->
  exists s',
    pbstx_receive (5 + fuel) s = (Some (MSG_RESET (P:=SP)), s') /\
    msgid_cell s' = m /\
    payload_len_cell s' = Z.of_nat (length p) /\
    payload_buf s' = store p (payload_buf s) /\
    firstn (length p) (payload_buf s') = p /\
    (exists s4,
       pbstx_receive (4 + S fuel) s = pbstx_receive (S fuel) s4 /\
       rx_state s4 = PR_CRC /\
       msgid_cell s4 = m /\
       payload_len_cell s4 = Z.of_nat (length p) /\
       payload_buf s4 = store p (payload_buf s)).
Proof.
  intros Hst Hts Hq Hsq Hm Hc Hl Hbad.
  rewrite (stream_receive_frame _ s sq m c p _ Hst Hts Hq Hsq Hm Hc Hl).
  assert (Hne : (crc8 (P:=SP) (sq :: m :: Z.of_nat (length p) :: p) =? c) = false)
    by (apply Z.eqb_neq; congruence).
  rewrite Hne. eexists. split; [reflexivity|].
  cbn [msgid_cell payload_len_cell payload_buf].
  repeat split; [apply firstn_store|].
  eexists. split.
  - apply (stream_receive_body (S fuel) s sq m p (RxByte c :: rest));
      try assumption.
    rewrite Hq. cbn [map app]. rewrite map_app, <- app_assoc. reflexivity.
  - repeat split.
Qed.

End Stream.

(** ** Concrete runs on the scripted platform *)

Lemma demo_is_byte_0 : is_byte 0. Proof. unfold is_byte; lia. Defined.
Lemma demo_is_byte_1 : is_byte 1. Proof. unfold is_byte; lia. Defined.
Lemma demo_is_byte_2 : is_byte 2. Proof. unfold is_byte; lia. Defined.


(** C2 on the frame seq 7, msgid 3, payload 10 20, whose CRC-8 is 43.
    Delivered whole, the trailing byte 43 is accepted and 44 is refused;
    and interrupted by a timeout after the sequence byte and taken up
    again by a second call, the trailing byte 43 is accepted. *)
Lemma crc_state_verdict_witness :
  let good := demo_machine (map RxByte [0xa5; 7; 3; 2; 10; 20; 43]) [] [] in
  let bad := demo_machine (map RxByte [0xa5; 7; 3; 2; 10; 20; 44]) [] [] in
  let cut := demo_machine (map RxByte [0xa5; 7] ++ RxTimeout ::
                           map RxByte [3; 2; 10; 20; 43]) [] [] in
  let resumed := snd (pbstx_receive 2 (snd (pbstx_receive 5 cut))) in
  crc8 (P:=demo) [7; 3; 2; 10; 20] = 43 /\
  (pkt_crc (snd (pbstx_receive 4 good)) = 43 /\
   fst (pbstx_receive 1 (snd (pbstx_receive 4 good))) = Some 0) /\
  (pkt_crc (snd (pbstx_receive 4 bad)) = 43 /\
   fst (pbstx_receive 1 (snd (pbstx_receive 4 bad))) = Some (-2)) /\
  (rx_state resumed = PR_CRC /\ pkt_crc resumed = 43 /\
   fst (pbstx_receive 1 resumed) = Some 0).
Proof.
  intros good bad cut resumed.
  destruct (crc_state_verdict (P:=demo) 0) as [Hbytes Hstates].
  assert (Hcrc43 : crc8 (P:=demo) [7; 3; 2; 10; 20] = 43)
    by (vm_compute; reflexivity).
  split; [exact Hcrc43|]. split; [|split].
  - destruct (Hbytes good 7 3 2 [10; 20]
                (mkStream (map RxByte [10; 20; 43]) [] [])
                (mkStream [RxByte 43] [] []))
      as (s_crc & Hrun & _ & Hcrc & _ & _ & _ & _ & _ & Hverdict).
    + reflexivity.
    + repeat (eapply delivers_cons; [reflexivity|reflexivity|reflexivity|]).
      apply delivers_nil.
    + exists 2, [10; 20]. repeat split.
    + destruct (Hverdict 43 (mkStream [] [] [])) as (s' & Hlast & _).
      { eapply delivers_cons; [reflexivity|reflexivity|reflexivity|].
        apply delivers_nil. }
      rewrite Hrun. cbn [snd]. rewrite Hcrc, Hlast.
      split; [exact Hcrc43 | reflexivity].
  - destruct (Hbytes bad 7 3 2 [10; 20]
                (mkStream (map RxByte [10; 20; 44]) [] [])
                (mkStream [RxByte 44] [] []))
      as (s_crc & Hrun & _ & Hcrc & _ & _ & _ & _ & _ & Hverdict).
    + reflexivity.
    + repeat (eapply delivers_cons; [reflexivity|reflexivity|reflexivity|]).
      apply delivers_nil.
    + exists 2, [10; 20]. repeat split.
    + destruct (Hverdict 44 (mkStream [] [] [])) as (s' & Hlast & _).
      { eapply delivers_cons; [reflexivity|reflexivity|reflexivity|].
        apply delivers_nil. }
      rewrite Hrun. cbn [snd]. rewrite Hcrc, Hlast.
      split; [exact Hcrc43 | reflexivity].
  - assert (Hst : rx_state resumed = PR_CRC) by (vm_compute; reflexivity).
    destruct (Hstates cut resumed (mkStream [RxByte 43] [] [])
                (mkStream [] [] []) 43)
      as (Hcrc & s' & Hrun & _).
    + reflexivity.
    + apply reached_receive, reached_receive, reached_start.
    + exact Hst.
    + vm_compute; reflexivity.
    + reflexivity.
    + reflexivity.
    + split; [exact Hst|].
      split; [rewrite Hcrc; vm_compute; reflexivity|].
      rewrite Hrun. vm_compute; reflexivity.
Defined.

(** C3 at a payload of two announced bytes of which one arrives. *)
Lemma payload_read_failure_witness :
  exists s',
    pbstx_receive 1 (demo_in_state PR_LEN 0 [RxByte 2; RxByte 7]) = (Some (-1), s') /\
    rx_state s' = PR_WAIT_START /\
    trace s' = [EvShouldTerminate false; EvGet 10 2; EvRead 2 50 (-1) [7];
                EvAlert ALS_COMM AL_FAIL].
Proof.
  refine (payload_read_failure_resyncs (P:=demo) 0
            (demo_in_state PR_LEN 0 [RxByte 2; RxByte 7])
            (mkStream [RxByte 2; RxByte 7] [] []) (mkStream [RxByte 7] [] [])
            (mkStream [] [] []) 2 (-1) [7]
            eq_refl eq_refl eq_refl eq_refl _ eq_refl (or_introl eq_refl)).
  discriminate.
Defined.

(** C4 on an empty script. *)
Lemma idle_read_failure_witness :
  exists s' evs,
    pbstx_receive 1 (demo_machine [] [] []) = (Some (-1), s') /\
    trace s' = trace (demo_machine [] [] []) ++ evs /\
    existsb is_alert evs = false /\
    rx_state s' = PR_WAIT_START /\
    seq s' = 0 /\ pkt_crc s' = 0 /\ msgid_cell s' = 0 /\
    payload_buf s' = repeat 0 8 /\ payload_len_cell s' = 0.
Proof.
  exact (idle_read_failure_is_no_data (P:=demo) 0 (demo_machine [] [] [])
           (mkStream [] [] []) (mkStream [] [] []) (-1)
           eq_refl eq_refl eq_refl (or_introl eq_refl)).
Defined.

(** C9 in [PR_MSGID] with a reset on the script. *)
Lemma midframe_byte_timeout_witness :
  exists s' evs,
    pbstx_receive 1 (demo_in_state PR_MSGID 33 [RxReset]) = (Some (-2), s') /\
    rx_state s' = PR_MSGID /\ pkt_crc s' = 33 /\ seq s' = 0 /\
    trace s' = [] ++ evs /\ existsb is_alert evs = false.
Proof.
  exact (midframe_byte_timeout_keeps_state (P:=demo) 0
           (demo_in_state PR_MSGID 33 [RxReset])
           (mkStream [RxReset] [] []) (mkStream [] [] []) (-2)
           (or_intror (or_introl eq_refl)) eq_refl eq_refl (or_intror eq_refl)).
Defined.

(** C6 with the header write timing out. *)
Lemma send_failure_aborts_witness :
  let s := demo_machine [] [] [-1] in
  fst (pbstx_send 1 [7; 9] 2 s) = -1 /\
  existsb is_put (trace (snd (pbstx_send 1 [7; 9] 2 s))) = false.
Proof.
  intros s.
  destruct (send_failure_aborts (P:=demo) 1 [7; 9] 2 s
              (fst (pbstx_send 1 [7; 9] 2 s)) (snd (pbstx_send 1 [7; 9] 2 s))
              [EvLock; EvWrite [0xa5; 0; 1; 2] 10 (-1); EvUnlock]
              [0xa5; 0; 1; 2] 10 (-1))
    as (Hret & Hput & _).
  - reflexivity.
  - reflexivity.
  - right; left; reflexivity.
  - left; reflexivity.
  - split; [exact Hret | exact Hput].
Defined.

(** C7 at a zero and at a non-zero length byte. *)
Lemma len_state_witness :
  (exists s',
     rx_loop_body (demo_in_state PR_LEN 0 [RxByte 0]) = (None, s') /\
     rx_state s' = PR_CRC /\
     trace s' = [EvGet 10 0]) /\
  (exists o s' r2 data tail,
     rx_loop_body (demo_in_state PR_LEN 0 [RxByte 2; RxByte 7; RxByte 9]) = (o, s') /\
     trace s' = EvGet 10 2 :: EvRead 2 50 r2 data :: tail /\
     existsb is_chan_read tail = false).
Proof.
  split.
  - destruct (len_state_zero_skips_payload (P:=demo)
                (demo_in_state PR_LEN 0 [RxByte 0]) (mkStream [] [] []) 0
                eq_refl eq_refl eq_refl) as [Hzero _].
    destruct (Hzero eq_refl) as (s' & Hrun & Hst & _ & _ & Htr).
    exists s'. repeat split; assumption.
  - destruct (len_state_zero_skips_payload (P:=demo)
                (demo_in_state PR_LEN 0 [RxByte 2; RxByte 7; RxByte 9])
                (mkStream [RxByte 7; RxByte 9] [] []) 2
                eq_refl eq_refl eq_refl) as [_ Hnz].
    assert (Hne : u8 2 <> 0) by discriminate.
    destruct (Hnz Hne) as (o & s' & r2 & data & tail & Hrun & _ & Htr & Hrd).
    exists o, s', r2, data, tail. repeat split; assumption.
Defined.

(** C8 on a run of two iterations that read a byte each and a third
    that is told to stop: three checks, the yes last, and the byte
    still on the channel is not read. *)
Lemma termination_witness :
  let s := demo_machine [RxByte 0xa5; RxByte 1; RxByte 2] [false; false; true] [] in
  let s2 := snd (pbstx_receive 2 s) in
  (exists evs,
     trace (snd (pbstx_receive 5 s)) = evs /\
     loop_run (P:=demo) 3 evs (Some (-2)) /\
     length (filter is_term_check evs) = 3%nat) /\
  fst (pbstx_receive 1 s2) = Some (-2) /\
  trace (snd (pbstx_receive 1 s2)) = trace s2 ++ [EvShouldTerminate true] /\
  rxq (world (snd (pbstx_receive 1 s2))) = [RxByte 2] /\
  rx_state (snd (pbstx_receive 1 s2)) = rx_state s2.
Proof.
  intros s s2.
  destruct (termination_checked_once_per_iteration (P:=demo) 5 s)
    as [(n & evs & Htr & Hrun & Hchecks & _) _].
  destruct (termination_checked_once_per_iteration (P:=demo) 0 s2)
    as [_ Hstop].
  split.
  - assert (Hevs : evs = trace (snd (pbstx_receive 5 s)))
      by (symmetry; exact Htr).
    assert (Hn : n = 3%nat).
    { rewrite <- Hchecks, Hevs. vm_compute. reflexivity. }
    assert (Hres : fst (pbstx_receive 5 s) = Some (-2))
      by (vm_compute; reflexivity).
    rewrite Hn, Hres in Hrun.
    exists evs. split; [exact Htr|]. split; [exact Hrun|].
    rewrite <- Hn. exact Hchecks.
  - rewrite (Hstop (mkStream [RxByte 2] [] []));
      [|vm_compute; reflexivity].
    repeat split.
Defined.

(** C5 on a frame with a wrong trailing byte followed by a good one. *)
Lemma resync_after_bad_crc_witness :
  let s := demo_machine
             (map RxByte ([0xa5; 0; 1; 2; 7; 9; 0] ++ frame (P:=demo) 1 2 [5]))
             [] [] in
  exists s1 s2,
    pbstx_receive 8 s = (Some (-2), s1) /\
    pbstx_receive 8 s1 = (Some 0, s2) /\
    msgid_cell s2 = 2 /\ payload_len_cell s2 = 1 /\
    firstn 1 (payload_buf s2) = [5].
Proof.
  intros s.
  destruct (resync_after_bad_crc crc8_poly07 8 8 s 0 1 0 [7; 9] 1 2 [5] [])
    as (s1 & s2 & evs1 & H1 & _ & _ & H2 & Hm & Hl & Hp & _).
  - reflexivity.
  - reflexivity.
  - vm_compute; reflexivity.
  - exact demo_is_byte_0.
  - exact demo_is_byte_1.
  - exact demo_is_byte_0.
  - cbn; lia.
  - intros H; vm_compute in H; discriminate H.
  - exact demo_is_byte_1.
  - exact demo_is_byte_2.
  - cbn; lia.
  - lia.
  - lia.
  - exists s1, s2. repeat split; assumption.
Defined.

(** C10 on a frame with a wrong trailing byte. *)
Lemma rejected_frame_witness :
  let s := demo_machine (map RxByte [0xa5; 0; 1; 2; 7; 9; 0]) [] [] in
  exists s',
    pbstx_receive 5 s = (Some (-2), s') /\
    msgid_cell s' = 1 /\ payload_len_cell s' = 2 /\
    payload_buf s' = [7; 9; 0; 0; 0; 0; 0; 0].
Proof.
  intros s.
  destruct (rejected_frame_stays_in_out_params crc8_poly07 0 s 0 1 0 [7; 9] [])
    as (s' & Hrun & Hm & Hl & Hp & _).
  - reflexivity.
  - reflexivity.
  - vm_compute; reflexivity.
  - exact demo_is_byte_0.
  - exact demo_is_byte_1.
  - exact demo_is_byte_0.
  - cbn; lia.
  - intros H; vm_compute in H; discriminate H.
  - exists s'. repeat split; assumption.
Defined.

(** C3 as stated fails: the start marker has been taken in, the next
    single-byte read times out, and the call comes back with the timeout
    code, no alert raised and the receiver still in [PR_SEQ]. *)
Lemma midframe_timeout_counterexample :
  let s := demo_machine [RxByte HDR_START] [] [] in
  fst (pbstx_receive 8 s) = Some (@Q_TIMEOUT demo) /\
  rx_state (snd (pbstx_receive 8 s)) = PR_SEQ /\
  rx_state (snd (pbstx_receive 8 s)) <> PR_WAIT_START /\
  existsb is_alert (trace (snd (pbstx_receive 8 s))) = false /\
  trace (snd (pbstx_receive 8 s)) =
    [EvShouldTerminate false; EvGet 10 HDR_START;
     EvShouldTerminate false; EvGet 10 (-1)].
Proof.
  vm_compute. repeat split; try reflexivity. discriminate.
Qed.

(** C5 as stated fails: a well-formed frame whose length byte alone is
    corrupted (2 becomes 3), immediately followed by a well-formed frame.
    The first call reports a failure; the block read has swallowed the
    first frame's CRC byte and the CRC state the second frame's start
    marker, so the rest of the second frame is discarded as noise and no
    later call ever returns [MSG_OK]. *)
Lemma resync_counterexample :
  let sent := frame (P:=demo) 0 1 [7; 9] in
  let corrupted := [0xa5; 0; 1; 3; 7; 9; 148] in
  let second := frame (P:=demo) 1 2 [] in
  let s := demo_machine (map RxByte (corrupted ++ second)) [] [] in
  sent = [0xa5; 0; 1; 2; 7; 9; 148] /\
  fst (pbstx_receive 16 s) = Some (MSG_RESET (P:=demo)) /\
  rxq (world (snd (pbstx_receive 16 s))) = map RxByte (tl second) /\
  (forall k,
     fst (receive_calls 16 (2 + k) s) =
       Some (MSG_RESET (P:=demo)) :: repeat (Some (@Q_TIMEOUT demo)) (1 + k)) /\
  (forall k, ~ In (Some (MSG_OK (P:=demo))) (fst (receive_calls 16 k s))).
Proof.
  cbv zeta.
  assert (Hcalls : forall k,
    fst (receive_calls 16 (2 + k)
           (demo_machine
              (map RxByte ([0xa5; 0; 1; 3; 7; 9; 148] ++ frame (P:=demo) 1 2 []))
              [] [])) =
    Some (-2) :: repeat (Some (-1)) (1 + k)).
  { intros k. change (2 + k)%nat with (S (S k)).
    rewrite !receive_calls_S.
    match goal with |- ?r1 :: ?r2 :: fst (receive_calls 16 k ?m2) = _ =>
      replace r1 with (Some (-2)) by (vm_compute; reflexivity);
      replace r2 with (Some (-1)) by (vm_compute; reflexivity);
      pose proof (stream_starved_calls crc8_poly07 15 k m2) as Hk
    end.
    change (1 + k)%nat with (S k). cbn [repeat]. do 2 f_equal.
    apply Hk; vm_compute; reflexivity. }
  split; [vm_compute; reflexivity|].
  split; [vm_compute; reflexivity|].
  split; [vm_compute; reflexivity|].
  split; [exact Hcalls|].
  intros k Hin.
  destruct k as [|[|k]].
  - destruct Hin.
  - vm_compute in Hin. destruct Hin as [Hin|[]]. discriminate Hin.
  - change (S (S k)) with (2 + k)%nat in Hin. rewrite Hcalls in Hin.
    destruct Hin as [Hin|Hin]; [discriminate Hin|].
    apply repeat_spec in Hin. discriminate Hin.
Qed.

(** ** How calls end, over any platform *)

Section Outcomes_Properties.

Context {P : Platform}.

Lemma filter_alert_app_nil (xs ys : list event) :
  filter is_alert xs = [] -> filter is_alert ys = [] ->
  filter is_alert (xs ++ ys) = [].
Proof. intros Hx Hy. rewrite filter_app, Hx, Hy. reflexivity. Qed.

(** One pass through the loop body: it either goes round again without
    an alert, or returns in one of the ways of [rx_outcome]. *)
Lemma rx_loop_body_outcome (s : machine) :
  exists body,
    trace (snd (rx_loop_body s)) = trace s ++ body /\
    existsb is_term_check body = false /\
    rx_outcome body (fst (rx_loop_body s))
               (rx_state (snd (rx_loop_body s)))
               (pkt_crc (snd (rx_loop_body s))).
Proof.
  unfold_calls.
  destruct (chnGetTimeout SER_TIMEOUT (world s)) as [r w2]. fields.
  destruct (chan_failed r) eqn:Hr; fields.
  - exists ([] ++ [EvGet SER_TIMEOUT r]). repeat split.
    apply rx_byte_read_failed; [reflexivity | exact Hr].
  - destruct (rx_state s); fields.
    + destruct (r =? HDR_START); fields;
        (eexists; split; [reflexivity|]; split; [reflexivity|];
         constructor; reflexivity).
    + eexists; split; [reflexivity|]; split; [reflexivity|].
      constructor; reflexivity.
    + eexists; split; [reflexivity|]; split; [reflexivity|].
      constructor; reflexivity.
    + destruct (u8 r =? 0); fields.
      * eexists; split; [reflexivity|]; split; [reflexivity|].
        constructor; reflexivity.
      * destruct (chnReadTimeout (u8 r) SER_PAYLOAD_TIMEOUT w2) as [[r2 d] w3].
        fields. destruct (chan_failed r2) eqn:Hr2; fields; rewrite <- !app_assoc.
        -- exists ([EvGet SER_TIMEOUT r] ++
                   [EvRead (u8 r) SER_PAYLOAD_TIMEOUT r2
                           (firstn (Z.to_nat (u8 r)) d);
                    EvAlert ALS_COMM AL_FAIL]).
           split; [reflexivity|]. split; [reflexivity|].
           apply rx_payload_read_failed; [reflexivity | exact Hr2].
        -- eexists; split; [reflexivity|]; split; [reflexivity|].
           constructor; reflexivity.
    + destruct (chnReadTimeout (payload_len_cell s) SER_PAYLOAD_TIMEOUT w2)
        as [[r2 d] w3].
      fields. destruct (chan_failed r2) eqn:Hr2; fields; rewrite <- !app_assoc.
      * exists ([EvGet SER_TIMEOUT r] ++
                [EvRead (payload_len_cell s) SER_PAYLOAD_TIMEOUT r2
                        (firstn (Z.to_nat (payload_len_cell s)) d);
                 EvAlert ALS_COMM AL_FAIL]).
        split; [reflexivity|]. split; [reflexivity|].
        apply rx_payload_read_failed; [reflexivity | exact Hr2].
      * eexists; split; [reflexivity|]; split; [reflexivity|].
        constructor; reflexivity.
    + destruct (pkt_crc s =? r) eqn:Hc; fields; rewrite <- !app_assoc.
      * apply Z.eqb_eq in Hc. subst r.
        exists ([] ++ [EvGet SER_TIMEOUT (pkt_crc s); EvAlert ALS_COMM AL_NORMAL]).
        split; [reflexivity|]. split; [reflexivity|].
        apply rx_crc_matched. reflexivity.
      * apply Z.eqb_neq in Hc.
        exists ([] ++ [EvGet SER_TIMEOUT r; EvAlert ALS_COMM AL_FAIL]).
        split; [reflexivity|]. split; [reflexivity|].
        apply rx_crc_mismatched; [reflexivity | exact Hc].
Qed.

(** Putting alert-free calls in front of a run does not change how it
    ends. *)
Lemma rx_outcome_prepend (pre evs : list event) (res : option Z)
    (st : rx_state_t) (c : Z) :
  filter is_alert pre = [] ->
  rx_outcome evs res st c ->
  rx_outcome (pre ++ evs) res st c.
Proof.
  intros Hpre H. destruct H; rewrite ?app_assoc.
  - apply rx_still_looping. apply filter_alert_app_nil; assumption.
  - apply rx_terminated. apply filter_alert_app_nil; assumption.
  - apply rx_byte_read_failed; [apply filter_alert_app_nil|]; assumption.
  - apply rx_payload_read_failed; [apply filter_alert_app_nil|]; assumption.
  - apply rx_crc_matched. apply filter_alert_app_nil; assumption.
  - apply rx_crc_mismatched; [apply filter_alert_app_nil|]; assumption.
Qed.

Lemma receive_outcome (fuel : nat) :
  forall s, exists evs,
    trace (snd (pbstx_receive fuel s)) = trace s ++ evs /\
    rx_outcome evs (fst (pbstx_receive fuel s))
               (rx_state (snd (pbstx_receive fuel s)))
               (pkt_crc (snd (pbstx_receive fuel s))).
Proof.
  induction fuel as [|fuel IH]; intros s.
  - exists []. cbn. rewrite app_nil_r. split; [reflexivity|].
    constructor. reflexivity.
  - cbn [pbstx_receive]. unfold do_chThdShouldTerminate, mbind, mret.
    destruct (chThdShouldTerminate (world s)) as [[|] w1].
    + exists ([] ++ [EvShouldTerminate true]). split; [reflexivity|].
      apply rx_terminated. reflexivity.
    + set (s1 := log (EvShouldTerminate false) (set_world w1 s)).
      destruct (rx_loop_body_outcome s1) as (body & Hb & _ & Hout).
      destruct (rx_loop_body s1) as [[v|] s2] eqn:Hbody; cbn [fst snd] in *.
      * exists ([EvShouldTerminate false] ++ body). split.
        -- rewrite Hb. subst s1. cbn. rewrite <- app_assoc. reflexivity.
        -- apply rx_outcome_prepend; [reflexivity | exact Hout].
      * destruct (IH s2) as (rest & Hr & Hrun).
        exists (([EvShouldTerminate false] ++ body) ++ rest). split.
        -- rewrite Hr, Hb. subst s1. cbn. rewrite <- !app_assoc. reflexivity.
        -- apply rx_outcome_prepend; [|exact Hrun].
           inversion Hout; subst. assumption.
Qed.

(** X1.  A call of [pbstx_receive] raises at most one alert; when it
    raises one, that is its last call, the function is returning, and the
    receiver is back in [PR_WAIT_START]. *)
Theorem receive_alert_is_last_and_resyncs (fuel : nat) (s : machine) :
  exists evs,
    trace (snd (pbstx_receive fuel s)) = trace s ++ evs /\
    (length (filter is_alert evs) <= 1)%nat /\
    (filter is_alert evs <> [] ->
     rx_state (snd (pbstx_receive fuel s)) = PR_WAIT_START /\
     fst (pbstx_receive fuel s) <> None /\
     exists pre l,
       evs = pre ++ [EvAlert ALS_COMM l] /\ filter is_alert pre = []).
Proof.
  destruct (receive_outcome fuel s) as (evs & Htr & Hout).
  exists evs. split; [exact Htr|].
  destruct Hout as [evs st c H|pre st c H|pre r st c H Hr|pre n r d c H Hr
                   |pre c H|pre r c H Hne];
    rewrite ?filter_app, ?H; cbn [filter is_alert app length].
  - split; [lia|]. intros Hx; congruence.
  - split; [lia|]. intros Hx; congruence.
  - split; [lia|]. intros Hx; congruence.
  - split; [lia|]. intros _. split; [reflexivity|]. split; [discriminate|].
    exists (pre ++ [EvRead n SER_PAYLOAD_TIMEOUT r d]), AL_FAIL.
    rewrite <- app_assoc. split; [reflexivity|].
    apply filter_alert_app_nil; [exact H | reflexivity].
  - split; [lia|]. intros _. split; [reflexivity|]. split; [discriminate|].
    exists (pre ++ [EvGet SER_TIMEOUT c]), AL_NORMAL.
    rewrite <- app_assoc. split; [reflexivity|].
    apply filter_alert_app_nil; [exact H | reflexivity].
  - split; [lia|]. intros _. split; [reflexivity|]. split; [discriminate|].
    exists (pre ++ [EvGet SER_TIMEOUT r]), AL_FAIL.
    rewrite <- app_assoc. split; [reflexivity|].
    apply filter_alert_app_nil; [exact H | reflexivity].
Qed.

Lemma in_alert_filter (evs : list event) (l : alert_level) :
  In (EvAlert ALS_COMM l) evs -> In (EvAlert ALS_COMM l) (filter is_alert evs).
Proof. intros H. apply filter_In. split; [exact H | reflexivity]. Qed.

(** X2.  [pbstx_receive] reports success only for a verified frame.
    Where [RDY_OK] is neither [RDY_RESET] nor one of the channel's
    failure codes, a call that returns [MSG_OK] ends with the read of a
    byte equal to the running CRC followed by the [AL_NORMAL] alert, and
    leaves the receiver in [PR_WAIT_START]; and on any platform the
    [AL_NORMAL] alert is raised by no call that returns anything else. *)
Theorem receive_ok_only_on_crc_match (fuel : nat) (s : machine) :
  RDY_OK <> RDY_RESET ->
  chan_failed RDY_OK = false ->
  (fst (pbstx_receive fuel s) = Some MSG_OK ->
   rx_state (snd (pbstx_receive fuel s)) = PR_WAIT_START /\
   exists pre,
     trace (snd (pbstx_receive fuel s)) =
       trace s ++ pre ++
       [EvGet SER_TIMEOUT (pkt_crc (snd (pbstx_receive fuel s)));
        EvAlert ALS_COMM AL_NORMAL] /\
     filter is_alert pre = []) /\
  (forall evs,
     trace (snd (pbstx_receive fuel s)) = trace s ++ evs ->
     In (EvAlert ALS_COMM AL_NORMAL) evs ->
     fst (pbstx_receive fuel s) = Some MSG_OK).
Proof.
  intros Hcodes Hok.
  destruct (receive_outcome fuel s) as (evs & Htr & Hout).
  split.
  - intros Hres. rewrite Htr.
    remember (fst (pbstx_receive fuel s)) as res eqn:Er.
    remember (rx_state (snd (pbstx_receive fuel s))) as st eqn:Es.
    remember (pkt_crc (snd (pbstx_receive fuel s))) as c eqn:Ec.
    clear Er Es Ec Htr. unfold MSG_OK, MSG_RESET in *.
    destruct Hout as [evs st c H|pre st c H|pre r st c H Hr|pre n r d c H Hr
                     |pre c H|pre r c H Hne];
      unfold MSG_OK, MSG_RESET in Hres; try discriminate Hres;
      try (injection Hres as Hres; try subst r; congruence).
    split; [reflexivity|]. exists pre. split; [reflexivity | exact H].
  - intros evs' Htr' Hin. rewrite Htr in Htr'. apply app_inv_head in Htr'.
    subst evs'. apply in_alert_filter in Hin.
    destruct Hout as [evs st c H|pre st c H|pre r st c H Hr|pre n r d c H Hr
                     |pre c H|pre r c H Hne];
      rewrite ?filter_app, ?H in Hin; cbn in Hin;
      repeat match goal with
             | Hx : _ \/ _ |- _ => destruct Hx
             | Hx : False |- _ => destruct Hx
             | Hx : _ = _ :> event |- _ => discriminate Hx
             end; reflexivity.
Qed.

(** X3.  [PR_PAYLOAD] is never a resting state: a call entered in any
    other state never returns, nor runs out of fuel, with the receiver in
    [PR_PAYLOAD], so the block read always follows its length byte within
    one call. *)
Theorem receive_never_rests_in_payload (fuel : nat) :
  forall s : machine,
    rx_state s <> PR_PAYLOAD ->
    rx_state (snd (pbstx_receive fuel s)) <> PR_PAYLOAD.
Proof.
  induction fuel as [|fuel IH]; intros s Hst; [exact Hst|].
  cbn [pbstx_receive]. unfold do_chThdShouldTerminate, mbind, mret.
  destruct (chThdShouldTerminate (world s)) as [[|] w1]; [exact Hst|].
  set (s1 := log (EvShouldTerminate false) (set_world w1 s)).
  assert (H1 : rx_state s1 <> PR_PAYLOAD) by exact Hst.
  apply rx_loop_body_not_payload in H1.
  destruct (rx_loop_body s1) as [[v|] s2]; cbn [snd] in *; [exact H1|].
  apply IH. exact H1.
Qed.

Lemma rx_loop_body_footprint (s : machine) :
  tx_seq (snd (rx_loop_body s)) = tx_seq s /\
  exists body,
    trace (snd (rx_loop_body s)) = trace s ++ body /\
    forallb is_rx_event body = true.
Proof.
  unfold_calls.
  destruct (chnGetTimeout SER_TIMEOUT (world s)) as [r w2]. fields.
  destruct (chan_failed r); fields.
  - split; [reflexivity|]. eexists; split; reflexivity.
  - destruct (rx_state s); fields.
    + destruct (r =? HDR_START); fields;
        (split; [reflexivity|]; eexists; split; reflexivity).
    + split; [reflexivity|]. eexists; split; reflexivity.
    + split; [reflexivity|]. eexists; split; reflexivity.
    + destruct (u8 r =? 0); fields.
      * split; [reflexivity|]. eexists; split; reflexivity.
      * destruct (chnReadTimeout (u8 r) SER_PAYLOAD_TIMEOUT w2) as [[r2 d] w3].
        fields. destruct (chan_failed r2); fields; rewrite <- !app_assoc;
          (split; [reflexivity|]; eexists; split; reflexivity).
    + destruct (chnReadTimeout (payload_len_cell s) SER_PAYLOAD_TIMEOUT w2)
        as [[r2 d] w3].
      fields. destruct (chan_failed r2); fields; rewrite <- !app_assoc;
        (split; [reflexivity|]; eexists; split; reflexivity).
    + destruct (pkt_crc s =? r); fields; rewrite <- !app_assoc;
        (split; [reflexivity|]; eexists; split; reflexivity).
Qed.

Lemma receive_footprint (fuel : nat) :
  forall s : machine,
    tx_seq (snd (pbstx_receive fuel s)) = tx_seq s /\
    exists evs,
      trace (snd (pbstx_receive fuel s)) = trace s ++ evs /\
      forallb is_rx_event evs = true.
Proof.
  induction fuel as [|fuel IH]; intros s.
  - split; [reflexivity|]. exists []. cbn. rewrite app_nil_r. split; reflexivity.
  - cbn [pbstx_receive]. unfold do_chThdShouldTerminate, mbind, mret.
    destruct (chThdShouldTerminate (world s)) as [[|] w1].
    + split; [reflexivity|]. eexists; split; reflexivity.
    + set (s1 := log (EvShouldTerminate false) (set_world w1 s)).
      destruct (rx_loop_body_footprint s1) as (Hseq & body & Hb & Hev).
      destruct (rx_loop_body s1) as [[v|] s2]; cbn [fst snd] in *.
      * split; [exact Hseq|].
        exists (EvShouldTerminate false :: body). split.
        -- rewrite Hb. subst s1. cbn. rewrite <- app_assoc. reflexivity.
        -- cbn. exact Hev.
      * destruct (IH s2) as (Hseq2 & rest & Hr & Hev2).
        split; [rewrite Hseq2; exact Hseq|].
        exists (EvShouldTerminate false :: body ++ rest). split.
        -- rewrite Hr, Hb. subst s1. cbn. rewrite <- !app_assoc. reflexivity.
        -- cbn. rewrite forallb_app, Hev, Hev2. reflexivity.
Qed.

Lemma send_footprint (m : Z) (p : list Z) (n : Z) (s : machine) :
  let s' := snd (pbstx_send m p n s) in
  seq s' = seq s /\ pkt_crc s' = pkt_crc s /\ rx_state s' = rx_state s /\
  msgid_cell s' = msgid_cell s /\ payload_buf s' = payload_buf s /\
  payload_len_cell s' = payload_len_cell s.
Proof.
  unfold pbstx_send. unfold_calls. fields.
  match goal with |- context [chnWriteTimeout ?b ?t ?w] =>
    destruct (chnWriteTimeout b t w) as [r1 w1] end.
  fields. destruct (chan_failed r1); fields; [repeat split|].
  destruct (0 <? u8 n).
  - match goal with |- context [chnWriteTimeout ?b ?t ?w] =>
      destruct (chnWriteTimeout b t w) as [r2 w2] end.
    fields. destruct (chan_failed r2); fields; [repeat split|].
    match goal with |- context [chnPutTimeout ?b ?t ?w] =>
      destruct (chnPutTimeout b t w) as [r3 w3] end.
    fields. repeat split.
  - match goal with |- context [chnPutTimeout ?b ?t ?w] =>
      destruct (chnPutTimeout b t w) as [r3 w3] end.
    fields. repeat split.
Qed.

(** X4.  The receiver and the sender share nothing but the channel:
    [pbstx_receive] never changes the send sequence counter and makes no
    call other than termination checks, channel reads and alerts (it
    neither writes to the channel nor takes the transmit mutex);
    [pbstx_send] never changes the receiver's statics or the caller's
    receive buffers and makes no call other than mutex operations and
    channel writes (it raises no alert, whatever the writes return). *)
Theorem receive_and_send_are_independent
    (fuel : nat) (m : Z) (p : list Z) (n : Z) (s : machine) :
  (tx_seq (snd (pbstx_receive fuel s)) = tx_seq s /\
   exists evs,
     trace (snd (pbstx_receive fuel s)) = trace s ++ evs /\
     forallb is_rx_event evs = true) /\
  (seq (snd (pbstx_send m p n s)) = seq s /\
   pkt_crc (snd (pbstx_send m p n s)) = pkt_crc s /\
   rx_state (snd (pbstx_send m p n s)) = rx_state s /\
   msgid_cell (snd (pbstx_send m p n s)) = msgid_cell s /\
   payload_buf (snd (pbstx_send m p n s)) = payload_buf s /\
   payload_len_cell (snd (pbstx_send m p n s)) = payload_len_cell s /\
   exists evs,
     trace (snd (pbstx_send m p n s)) = trace s ++ evs /\
     forallb is_tx_event evs = true).
Proof.
  split; [exact (receive_footprint fuel s)|].
  destruct (send_footprint m p n s) as (H1 & H2 & H3 & H4 & H5 & H6).
  repeat (split; [assumption|]).
  destruct (pbstx_send_paths m p n s) as (evs & Htr & _ & Hpath).
  exists evs. split; [exact Htr|].
  inversion Hpath; reflexivity.
Qed.

(** X5.  [pbstx_send] holds the transmit mutex around everything it
    writes, on every path: its calls are one [chMtxLock], then between
    one and three channel writes, then one [chMtxUnlock], also when a
    write fails. *)
Theorem send_holds_mutex_around_writes
    (m : Z) (p : list Z) (n : Z) (s : machine) :
  exists mid,
    trace (snd (pbstx_send m p n s)) = trace s ++ EvLock :: mid ++ [EvUnlock] /\
    forallb is_chan_write mid = true /\
    (1 <= length mid <= 3)%nat.
Proof.
  destruct (pbstx_send_paths m p n s) as (evs & Htr & _ & Hpath).
  rewrite Htr.
  inversion Hpath; subst;
    [ eexists [_] | eexists [_; _] | eexists [_; _; _] | eexists [_; _] ];
    cbn; repeat split; lia.
Qed.

Lemma send_all_step (m : Z) (p : list Z) (rest : list (Z * list Z)) (s : machine) :
  send_all ((m, p) :: rest) s =
    (fst (pbstx_send m p (Z.of_nat (length p)) s) ::
       fst (send_all rest (snd (pbstx_send m p (Z.of_nat (length p)) s))),
     snd (send_all rest (snd (pbstx_send m p (Z.of_nat (length p)) s)))).
Proof.
  cbn [send_all]. unfold mbind, mret.
  destruct (pbstx_send m p (Z.of_nat (length p)) s) as [r s1]. cbn [fst snd].
  destruct (send_all rest s1) as [rs s2]. reflexivity.
Qed.

Lemma send_all_counter (msgs : list (Z * list Z)) :
  forall s : machine,
    is_byte (tx_seq s) ->
    tx_seq (snd (send_all msgs s)) =
      (tx_seq s + Z.of_nat (length msgs)) mod 256.
Proof.
  induction msgs as [|[m p] rest IH]; intros s Hb.
  - cbn. rewrite Z.add_0_r. symmetry. apply Z.mod_small. exact Hb.
  - rewrite send_all_step. cbn [snd].
    destruct (pbstx_send_paths m p (Z.of_nat (length p)) s) as (_ & _ & Hseq & _).
    rewrite IH.
    + rewrite Hseq. unfold u8. rewrite Zplus_mod_idemp_l.
      f_equal. cbn [length]. lia.
    + rewrite Hseq. unfold u8, is_byte. apply Z.mod_pos_bound. lia.
Qed.

(** X6.  The send sequence counter counts calls, not successes: after a
    run of sends it has advanced by the number of calls modulo 256,
    whatever the writes returned, and so 256 sends in a row bring it
    back to where it was. *)
Theorem send_counter_counts_calls (msgs : list (Z * list Z)) (s : machine) :
  is_byte (tx_seq s) ->
  tx_seq (snd (send_all msgs s)) =
    (tx_seq s + Z.of_nat (length msgs)) mod 256 /\
  (length msgs = 256%nat -> tx_seq (snd (send_all msgs s)) = tx_seq s).
Proof.
  intros Hb. split; [apply send_all_counter; exact Hb|].
  intros Hlen. rewrite send_all_counter by exact Hb. rewrite Hlen.
  change (Z.of_nat 256) with (1 * 256).
  rewrite Z.mod_add by lia. apply Z.mod_small. exact Hb.
Qed.

End Outcomes_Properties.

(** ** A payload read that fails, over any platform *)

Section Failed_Payload.

Context {P : Platform}.

(** X10.  A payload read that fails costs that frame only.  When the
    block read of the payload returns [Q_TIMEOUT] or [Q_RESET] (the test
    the code makes; whether a channel reports a payload cut short this
    way is the channel's business), [pbstx_receive] returns that code
    with one [AL_FAIL] alert, the receiver is back in [PR_WAIT_START]
    with whatever the read stored left in the buffer; and when the
    channel then delivers a whole frame, the next call decodes it: it
    returns the verdict of that frame's CRC and the out-parameters hold
    that frame's fields. *)
Theorem short_payload_costs_one_frame
    (f1 f2 : nat) (s : machine) (sq m n r : Z) (d : list Z) (w4 w5 : W)
    (sq2 m2 n2 c2 : Z) (data2 : list Z) (w9 w10 w11 : W) :
  rx_state s = PR_WAIT_START ->
  delivers (world s) [HDR_START; sq; m; n] w4 ->
  u8 n <> 0 ->
  chnReadTimeout (u8 n) SER_PAYLOAD_TIMEOUT w4 = (r, d, w5) ->
  r = Q_TIMEOUT \/ r = Q_RESET ->
  delivers (alert_component ALS_COMM AL_FAIL w5) [HDR_START; sq2; m2; n2] w9 ->
  delivers_payload w9 (u8 n2) data2 w10 ->
  delivers w10 [c2] w11 ->
  let partial := store (firstn (Z.to_nat (u8 n)) d) (payload_buf s) in
  let payload2 := firstn (Z.to_nat (u8 n2)) (store data2 partial) in
  let good := crc8 (sq2 :: m2 :: n2 :: payload2) =? c2 in
  exists s1 s2 evs1,
    pbstx_receive (4 + f1) s = (Some r, s1) /\
    rx_state s1 = PR_WAIT_START /\
    payload_buf s1 = partial /\
    trace s1 = trace s ++ evs1 /\
    filter is_alert evs1 = [EvAlert ALS_COMM AL_FAIL] /\
    pbstx_receive (5 + f2) s1 =
      (Some (if good then MSG_OK else MSG_RESET), s2) /\
    rx_state s2 = PR_WAIT_START /\
    seq s2 = u8 sq2 /\
    msgid_cell s2 = u8 m2 /\
    payload_len_cell s2 = u8 n2 /\
    firstn (Z.to_nat (u8 n2)) (payload_buf s2) = payload2.
Proof.
  intros Hst Hd Hnz Hread Hr Hd2 Hp2 Hc2 partial payload2 good.
  apply chan_failed_codes in Hr.
  destruct (receive_header (1 + f1) s sq m [n] w4 Hst Hd) as (w3 & Hn & Hrun).
  change (4 + f1)%nat with (3 + (1 + f1))%nat. rewrite Hrun. clear Hrun.
  change (1 + f1)%nat with (S f1).
  take_byte Hn. apply delivers_end in Hrest. subst w4.
  apply Z.eqb_neq in Hnz. rewrite Hnz.
  unfold case_PR_PAYLOAD at 1.
  unfold do_chnReadTimeout, do_alert_component, mbind, mret, modify, gets.
  settle. rewrite Hread. settle. rewrite Hr. settle.
  match goal with |- exists s1 _ _, (_, ?st) = (_, s1) /\ _ =>
    destruct (receive_frame f2 st sq2 m2 n2 c2 data2 w9 w10 w11 eq_refl Hd2 Hp2 Hc2)
      as (evs2 & Hrun2 & _)
  end.
  cbn [payload_buf trace tx_seq] in Hrun2.
  do 3 eexists. split; [reflexivity|]. settle.
  split; [reflexivity|]. split; [reflexivity|].
  split; [rewrite <- !app_assoc; reflexivity|]. split; [reflexivity|].
  split; [exact Hrun2|]. settle. repeat split.
Qed.

End Failed_Payload.

(** ** More runs through the scripted platform *)

Section Stream_More.

Variable crc : Z -> Z -> Z.

Local Abbreviation SP := (stream_platform crc).

Ltac on_byte b H :=
  erewrite (stream_step crc _ _ b); [|reflexivity|reflexivity|exact H];
  unfold rx_switch at 1;
  unfold do_alert_component, mbind, mret, modify, gets; settle.

(** A gap or a reset at the head of the script: the call comes back with
    its code and only the script has moved. *)
Lemma stream_gap (fuel : nat) (s : @machine SP) (g : rx_item) (q : list rx_item) :
  term_script (world s) = [] ->
  rxq (world s) = g :: q ->
  is_gap g ->
  pbstx_receive (S fuel) s =
    (Some (gap_code g),
     @mkMachine SP (mkStream q [] (tx_script (world s)))
                (trace s ++ [EvShouldTerminate false; EvGet 10 (gap_code g)])
                (seq s) (pkt_crc s) (rx_state s) (tx_seq s)
                (msgid_cell s) (payload_buf s) (payload_len_cell s)).
Proof.
  intros Hts Hq Hg.
  apply (receive_get_failed (P:=SP) fuel s (world s)).
  - cbn. unfold stream_should_terminate. rewrite Hts. reflexivity.
  - cbn. unfold stream_get. rewrite Hq, Hts.
    destruct Hg as [-> | ->]; reflexivity.
  - destruct Hg as [-> | ->]; reflexivity.
Qed.

Lemma stream_skip_noise (noise : list Z) :
  forall (fuel : nat) (s : @machine SP) (q : list rx_item),
    rx_state s = PR_WAIT_START ->
    term_script (world s) = [] ->
    rxq (world s) = map RxByte noise ++ q ->
    Forall is_noise noise ->
    pbstx_receive (length noise + fuel) s =
    pbstx_receive fuel
      (@mkMachine SP (mkStream q [] (tx_script (world s)))
                  (trace s ++ noise_events noise)
                  (seq s) (pkt_crc s) PR_WAIT_START (tx_seq s)
                  (msgid_cell s) (payload_buf s) (payload_len_cell s)).
Proof.
  induction noise as [|b noise IH]; intros fuel s q Hst Hts Hq Hn.
  - cbn [length Nat.add noise_events flat_map]. rewrite app_nil_r.
    destruct s as [[rq ts tx] tr sq0 c0 st txs mid buf pl].
    cbn in *. subst. reflexivity.
  - inversion Hn as [|b' n' [Hb Hne] Hn']; subst.
    cbn [length Nat.add map app] in *.
    rewrite (stream_step crc _ s b _ Hts Hq Hb).
    unfold rx_switch at 1. unfold mbind, mret, modify, gets. fields.
    rewrite Hst. apply Z.eqb_neq in Hne. rewrite Hne. settle.
    rewrite IH with (q := q); try reflexivity; [|exact Hn'].
    settle. unfold noise_events. cbn [flat_map app].
    rewrite <- app_assoc. reflexivity.
Qed.

(** X7.  Bytes that are not the start marker are discarded while the
    receiver is idle: with any such bytes in front of a frame, one call
    with fuel for each of them and five rounds for the frame returns the
    frame's verdict with its fields in the out-parameters, exactly as if
    the frame had come alone, and no alert is raised for the noise. *)
Theorem leading_noise_is_discarded
    (fuel : nat) (s : @machine SP) (noise : list Z) (sq m c : Z) (p : list Z)
    (rest : list rx_item) :
  rx_state s = PR_WAIT_START ->
  term_script (world s) = [] ->
  Forall is_noise noise ->
  rxq (world s) =
    map RxByte noise ++
    map RxByte (HDR_START :: sq :: m :: Z.of_nat (length p) :: p ++ [c]) ++ rest ->
  is_byte sq -> is_byte m -> is_byte c -> (length p <= 255)%nat ->
  let good := crc8 (P:=SP) (sq :: m :: Z.of_nat (length p) :: p) =? c in
  exists s' evs,
    pbstx_receive (length noise + (5 + fuel)) s =
      (Some (if good then 0 else -2), s') /\
    rx_state s' = PR_WAIT_START /\
    rxq (world s') = rest /\
    seq s' = sq /\ msgid_cell s' = m /\
    payload_len_cell s' = Z.of_nat (length p) /\
    payload_buf s' = store p (payload_buf s) /\
    trace s' = trace s ++ evs /\
    filter is_alert evs =
      [EvAlert ALS_COMM (if good then AL_NORMAL else AL_FAIL)].
Proof.
  intros Hst Hts Hn Hq Hsq Hm Hc Hl good.
  rewrite (stream_skip_noise noise (5 + fuel) s _ Hst Hts Hq Hn).
  rewrite stream_receive_frame with (sq := sq) (m := m) (c := c) (p := p)
    (rest := rest); try assumption; try reflexivity.
  fold good. do 2 eexists. split; [reflexivity|]. settle.
  repeat (split; [reflexivity|]). rewrite <- app_assoc.
  split; [reflexivity|].
  rewrite !filter_app, filter_alert_frame_events.
  assert (Hnz : filter is_alert (noise_events noise) = []).
  { clear. induction noise as [|b l IH]; [reflexivity | exact IH]. }
  rewrite Hnz. reflexivity.
Qed.

Lemma take_bytes_shrinks (n : nat) :
  forall q, (length (snd (take_bytes n q)) <= length q)%nat.
Proof.
  induction n as [|n IH]; intros q; cbn; [lia|].
  destruct q as [|[b| |] q]; cbn; try lia.
  specialize (IH q). destruct (take_bytes n q) as [[f d] q']. cbn in *. lia.
Qed.

(** A pass through the loop body that goes round again has taken at
    least one item off the script. *)
Lemma stream_body_consumes (s : @machine SP) :
  fst (rx_loop_body s) = None ->
  (length (rxq (world (snd (rx_loop_body s)))) < length (rxq (world s)))%nat.
Proof.
  unfold_calls. cbn [chnGetTimeout chnReadTimeout SP stream_platform].
  unfold stream_get, stream_read.
  destruct (rxq (world s)) as [|[b| |] q] eqn:Hq; fields;
    try (cbn; discriminate).
  destruct (chan_failed (P:=SP) b); fields; [discriminate|].
  destruct (rx_state s); fields.
  - destruct (b =? HDR_START); settle; intros _; cbn; lia.
  - settle; intros _; cbn; lia.
  - settle; intros _; cbn; lia.
  - settle. destruct (u8 b =? 0); settle; [intros _; cbn; lia|].
    pose proof (take_bytes_shrinks (Z.to_nat (u8 b)) q) as Hs.
    destruct (take_bytes (Z.to_nat (u8 b)) q) as [[f d] q']. settle.
    match goal with |- context [chan_failed ?r] => destruct (chan_failed r) end;
      settle; [discriminate|]. intros _. cbn in *. lia.
  - settle.
    pose proof (take_bytes_shrinks (Z.to_nat (payload_len_cell s)) q) as Hs.
    destruct (take_bytes (Z.to_nat (payload_len_cell s)) q) as [[f d] q']. settle.
    match goal with |- context [chan_failed ?r] => destruct (chan_failed r) end;
      settle; [discriminate|]. intros _. cbn in *. lia.
  - settle. destruct (pkt_crc s =? b); settle; discriminate.
Qed.

(** X8.  On a finite script [pbstx_receive] always returns: whatever the
    receiver state and whatever the script holds (bytes, gaps, resets,
    termination answers), fuel exceeding the number of items left on the
    script is enough for the call to come back with a result. *)
Theorem receive_returns_on_finite_script (fuel : nat) :
  forall s : @machine SP,
    (length (rxq (world s)) < fuel)%nat ->
    exists v, fst (pbstx_receive fuel s) = Some v.
Proof.
  induction fuel as [|fuel IH]; intros s Hlen; [lia|].
  cbn [pbstx_receive]. unfold do_chThdShouldTerminate, mbind, mret.
  cbn [chThdShouldTerminate SP stream_platform].
  destruct (stream_should_terminate (world s)) as [[|] w1] eqn:Ht.
  - eexists. reflexivity.
  - set (s1 := @log SP (EvShouldTerminate false) (@set_world SP w1 s)).
    assert (Hq : rxq (world s1) = rxq (world s)).
    { subst s1. cbn. unfold stream_should_terminate in Ht.
      destruct (term_script (world s)); inversion Ht; reflexivity. }
    pose proof (stream_body_consumes s1) as Hc.
    destruct (rx_loop_body s1) as [[v|] s2]; cbn [fst snd] in *.
    + eexists. reflexivity.
    + apply IH. specialize (Hc eq_refl). rewrite Hq in Hc. lia.
Qed.

(** From [PR_LEN]: the length byte and the payload it announces. *)
Lemma stream_from_len
    (fuel : nat) (s : @machine SP) (p : list Z) (rest : list rx_item) :
  rx_state s = PR_LEN ->
  term_script (world s) = [] ->
  rxq (world s) = map RxByte (Z.of_nat (length p) :: p) ++ rest ->
  (length p <= 255)%nat ->
  pbstx_receive (S fuel) s =
  pbstx_receive fuel
    (@mkMachine SP (mkStream rest [] (tx_script (world s)))
                (trace s ++ len_events p)
                (seq s)
                (fold_left (PIOS_CRC_updateByte (P:=SP)) p
                   (PIOS_CRC_updateByte (P:=SP) (pkt_crc s) (Z.of_nat (length p))))
                PR_CRC (tx_seq s) (msgid_cell s) (store p (payload_buf s))
                (Z.of_nat (length p))).
Proof.
  intros Hst Hts Hq Hlen.
  assert (Hn : is_byte (Z.of_nat (length p))) by (unfold is_byte; lia).
  cbn [map app] in Hq.
  rewrite (stream_step crc _ s _ _ Hts Hq Hn).
  unfold rx_switch at 1. unfold mbind, mret, modify, gets. fields.
  rewrite Hst. settle. rewrite !(u8_byte _ Hn).
  unfold len_events.
  destruct (Z.of_nat (length p) =? 0) eqn:Hzero.
  - apply Z.eqb_eq in Hzero.
    assert (p = []) by (destruct p; [reflexivity | discriminate]). subst p.
    cbn [length Z.of_nat map app fold_left] in *. settle. reflexivity.
  - unfold case_PR_PAYLOAD at 1.
    unfold do_chnReadTimeout, do_alert_component, mbind, mret, modify, gets.
    settle. cbn [chnReadTimeout SP stream_platform]. unfold stream_read.
    settle. rewrite Nat2Z.id, take_bytes_map, firstn_all.
    rewrite (byte_not_failed crc _ Hn). settle.
    unfold PIOS_CRC_updateCRC. rewrite Nat2Z.id, firstn_store.
    rewrite <- !app_assoc. reflexivity.
Qed.

(** From [PR_CRC]: the trailing byte and the verdict. *)
Lemma stream_from_crc
    (fuel : nat) (s : @machine SP) (c : Z) (rest : list rx_item) :
  rx_state s = PR_CRC ->
  term_script (world s) = [] ->
  rxq (world s) = RxByte c :: rest ->
  is_byte c ->
  pbstx_receive (S fuel) s =
    (Some (if pkt_crc s =? c then 0 else -2),
     @mkMachine SP (mkStream rest [] (tx_script (world s)))
                (trace s ++
                 [EvShouldTerminate false; EvGet 10 c;
                  EvAlert ALS_COMM (if pkt_crc s =? c then AL_NORMAL else AL_FAIL)])
                (seq s) (pkt_crc s) PR_WAIT_START (tx_seq s)
                (msgid_cell s) (payload_buf s) (payload_len_cell s)).
Proof.
  intros Hst Hts Hq Hc.
  rewrite (stream_step crc _ s _ _ Hts Hq Hc).
  unfold rx_switch at 1.
  unfold do_alert_component, mbind, mret, modify, gets. fields.
  rewrite Hst. settle.
  destruct (pkt_crc s =? c); settle; rewrite <- !app_assoc; reflexivity.
Qed.

Lemma filter_alert_len_events (p : list Z) :
  filter is_alert (len_events p) = [].
Proof.
  unfold len_events. destruct (Z.of_nat (length p) =? 0); reflexivity.
Qed.

(** X9.  A frame is not lost to a pause between its bytes.  With one
    gap or reset on the script after the start marker, after the
    sequence byte, after the message-id, or between the payload and the
    CRC byte, the first call returns the channel's code without an alert
    and the next call finishes the same frame: it returns the frame's
    verdict and the out-parameters hold the frame's fields. *)
Theorem single_byte_gap_does_not_lose_frame
    (f1 f2 : nat) (s : @machine SP) (sq m c : Z) (p pre post : list Z)
    (g : rx_item) (rest : list rx_item) :
  rx_state s = PR_WAIT_START ->
  term_script (world s) = [] ->
  pre ++ post = HDR_START :: sq :: m :: Z.of_nat (length p) :: p ++ [c] ->
  In pre [[HDR_START]; [HDR_START; sq]; [HDR_START; sq; m];
          HDR_START :: sq :: m :: Z.of_nat (length p) :: p] ->
  is_gap g ->
  rxq (world s) = map RxByte pre ++ g :: map RxByte post ++ rest ->
  is_byte sq -> is_byte m -> is_byte c -> (length p <= 255)%nat ->
  let good := crc8 (P:=SP) (sq :: m :: Z.of_nat (length p) :: p) =? c in
  exists s1 s2 evs1,
    pbstx_receive (5 + f1) s = (Some (gap_code g), s1) /\
    trace s1 = trace s ++ evs1 /\
    filter is_alert evs1 = [] /\
    pbstx_receive (5 + f2) s1 = (Some (if good then 0 else -2), s2) /\
    rx_state s2 = PR_WAIT_START /\
    rxq (world s2) = rest /\
    seq s2 = sq /\ msgid_cell s2 = m /\
    payload_len_cell s2 = Z.of_nat (length p) /\
    payload_buf s2 = store p (payload_buf s).
Proof.
  intros Hst Hts Hsplit Hpre Hg Hq Hsq Hm Hc Hl good.
  assert (Hh : is_byte HDR_START) by (unfold is_byte, HDR_START; lia).
  assert (Hn : is_byte (Z.of_nat (length p))) by (unfold is_byte; lia).
  assert (Hcrc : crc8 (P:=SP) (sq :: m :: Z.of_nat (length p) :: p) =
                 fold_left PIOS_CRC_updateByte p
                   (PIOS_CRC_updateByte
                      (PIOS_CRC_updateByte (PIOS_CRC_updateByte 0 sq) m)
                      (Z.of_nat (length p)))) by reflexivity.
  change (5 + f1)%nat with (S (S (S (S (S f1))))).
  change (5 + f2)%nat with (S (S (S (S (S f2))))).
  cbn [In] in Hpre.
  destruct Hpre as [<-|[<-|[<-|[<-|[]]]]];
    cbn [app] in Hsplit; repeat (injection Hsplit as Hsplit);
    try (apply app_inv_head in Hsplit); subst post;
    cbn [map app] in Hq.
  - (* after the start marker *)
    rewrite (stream_step crc _ s _ _ Hts Hq Hh).
    unfold rx_switch at 1. unfold mbind, mret, modify, gets. fields.
    rewrite Hst. change (HDR_START =? HDR_START) with true. settle.
    erewrite stream_gap; [|reflexivity|reflexivity|exact Hg].
    do 3 eexists.
    split; [reflexivity|]. settle. rewrite <- app_assoc.
    split; [reflexivity|]. split; [reflexivity|].
    on_byte sq Hsq. on_byte m Hm.
    rewrite map_app. cbn [map]. rewrite <- app_assoc. cbn [app].
    erewrite (stream_from_len _ _ p); [|reflexivity|reflexivity|reflexivity|exact Hl].
    settle. erewrite stream_from_crc; [|reflexivity|reflexivity|reflexivity|exact Hc].
    settle. rewrite (u8_byte _ Hsq), (u8_byte _ Hm), <- Hcrc. fold good.
    repeat split.
  - (* after the sequence byte *)
    rewrite (stream_step crc _ s _ _ Hts Hq Hh).
    unfold rx_switch at 1. unfold mbind, mret, modify, gets. fields.
    rewrite Hst. change (HDR_START =? HDR_START) with true. settle.
    on_byte sq Hsq.
    erewrite stream_gap; [|reflexivity|reflexivity|exact Hg].
    do 3 eexists.
    split; [reflexivity|]. settle. rewrite <- !app_assoc.
    split; [reflexivity|]. split; [reflexivity|].
    on_byte m Hm.
    rewrite map_app. cbn [map]. rewrite <- app_assoc. cbn [app].
    erewrite (stream_from_len _ _ p); [|reflexivity|reflexivity|reflexivity|exact Hl].
    settle. erewrite stream_from_crc; [|reflexivity|reflexivity|reflexivity|exact Hc].
    settle. rewrite (u8_byte _ Hsq), (u8_byte _ Hm), <- Hcrc. fold good.
    repeat split.
  - (* after the message-id *)
    rewrite (stream_step crc _ s _ _ Hts Hq Hh).
    unfold rx_switch at 1. unfold mbind, mret, modify, gets. fields.
    rewrite Hst. change (HDR_START =? HDR_START) with true. settle.
    on_byte sq Hsq. on_byte m Hm.
    erewrite stream_gap; [|reflexivity|reflexivity|exact Hg].
    do 3 eexists.
    split; [reflexivity|]. settle. rewrite <- !app_assoc.
    split; [reflexivity|]. split; [reflexivity|].
    rewrite map_app. cbn [map]. rewrite <- app_assoc. cbn [app].
    erewrite (stream_from_len _ _ p); [|reflexivity|reflexivity|reflexivity|exact Hl].
    settle. erewrite stream_from_crc; [|reflexivity|reflexivity|reflexivity|exact Hc].
    settle. rewrite (u8_byte _ Hsq), (u8_byte _ Hm), <- Hcrc. fold good.
    repeat split.
  - (* between the payload and the CRC byte *)
    change (S (S (S (S (S f1))))) with (4 + S f1)%nat.
    rewrite (stream_receive_body crc (S f1) s sq m p (g :: RxByte c :: rest));
      try assumption.
    erewrite stream_gap; [|reflexivity|reflexivity|exact Hg].
    do 3 eexists.
    split; [reflexivity|]. settle. rewrite <- !app_assoc.
    split; [reflexivity|].
    split; [rewrite filter_app, filter_alert_frame_events; reflexivity|].
    erewrite stream_from_crc; [|reflexivity|reflexivity|reflexivity|exact Hc].
    settle. fold good. repeat split.
Qed.

Lemma tx_bytes_app (xs ys : list event) :
  tx_bytes (xs ++ ys) = tx_bytes xs ++ tx_bytes ys.
Proof.
  induction xs as [|e xs IH]; [reflexivity|].
  destruct e; cbn [app tx_bytes]; rewrite IH; try reflexivity.
  rewrite app_assoc. reflexivity.
Qed.

(** A send of a whole payload that reports no failure has put the frame
    on the wire. *)
Lemma send_ok_frame (m : Z) (p : list Z) (s : @machine SP) :
  is_byte m -> (length p <= 255)%nat ->
  chan_failed (P:=SP) (fst (pbstx_send m p (Z.of_nat (length p)) s)) = false ->
  exists evs,
    trace (snd (pbstx_send m p (Z.of_nat (length p)) s)) = trace s ++ evs /\
    tx_bytes evs = frame (P:=SP) (tx_seq s) m p.
Proof.
  intros Hm Hl Hok.
  destruct (pbstx_send_paths (P:=SP) m p (Z.of_nat (length p)) s)
    as (evs & Htr & _ & Hpath).
  exists evs. split; [exact Htr|].
  rewrite (u8_byte m Hm) in Hpath.
  rewrite (u8_byte (Z.of_nat (length p))) in Hpath by (unfold is_byte; lia).
  rewrite Nat2Z.id, firstn_all in Hpath. unfold frame.
  remember (fst (pbstx_send m p (Z.of_nat (length p)) s)) as ret eqn:Eret.
  clear Eret Htr.
  inversion Hpath; subst; try congruence.
  - match goal with Hn : 0 < Z.of_nat (length p) |- _ =>
      apply Z.ltb_lt in Hn; rewrite Hn end.
    reflexivity.
  - assert (p = []) by (destruct p; [reflexivity | cbn in *; lia]). subst p.
    reflexivity.
Qed.

Lemma send_all_frames (msgs : list (Z * list Z)) :
  forall s : @machine SP,
    Forall well_sized msgs ->
    Forall (fun r => chan_failed (P:=SP) r = false) (fst (send_all msgs s)) ->
    exists evs,
      trace (snd (send_all msgs s)) = trace s ++ evs /\
      tx_bytes evs = frames (P:=SP) (tx_seq s) msgs.
Proof.
  induction msgs as [|[m p] rest IH]; intros s Hw Hok.
  - exists []. cbn. rewrite app_nil_r. split; reflexivity.
  - inversion Hw as [|x l [Hm Hl] Hw']; subst. cbn [fst snd] in Hm, Hl.
    rewrite send_all_step in *. cbn [fst snd] in *.
    inversion Hok as [|r rs Hr Hrs]; subst.
    destruct (send_ok_frame m p s Hm Hl Hr) as (e1 & Ht1 & Hb1).
    destruct (IH _ Hw' Hrs) as (e2 & Ht2 & Hb2).
    exists (e1 ++ e2). split.
    + rewrite Ht2, Ht1, app_assoc. reflexivity.
    + rewrite tx_bytes_app, Hb1, Hb2. cbn [frames].
      destruct (pbstx_send_paths (P:=SP) m p (Z.of_nat (length p)) s)
        as (_ & _ & Hseq & _).
      rewrite Hseq. reflexivity.
Qed.

Lemma receive_frames_S (fuel k : nat) (s : @machine SP) :
  fst (receive_frames fuel (S k) s) =
    match fst (pbstx_receive fuel s) with
    | Some v =>
        if v =? 0
        then Some (msgid_cell (snd (pbstx_receive fuel s)),
                   firstn (Z.to_nat (payload_len_cell (snd (pbstx_receive fuel s))))
                          (payload_buf (snd (pbstx_receive fuel s))))
        else None
    | None => None
    end :: fst (receive_frames fuel k (snd (pbstx_receive fuel s))) /\
  snd (receive_frames fuel (S k) s) =
    snd (receive_frames fuel k (snd (pbstx_receive fuel s))).
Proof.
  cbn [receive_frames]. destruct (pbstx_receive fuel s) as [r s1].
  cbn [fst snd]. destruct (receive_frames fuel k s1) as [rs s2].
  split; reflexivity.
Qed.

Lemma receive_frames_of_frames (fuel : nat) (msgs : list (Z * list Z)) :
  forall (sq : Z) (rx : @machine SP) (rest : list rx_item),
    Forall well_sized msgs ->
    is_byte sq ->
    rx_state rx = PR_WAIT_START ->
    term_script (world rx) = [] ->
    rxq (world rx) = map RxByte (frames (P:=SP) sq msgs) ++ rest ->
    fst (receive_frames (5 + fuel) (length msgs) rx) = map Some msgs /\
    rxq (world (snd (receive_frames (5 + fuel) (length msgs) rx))) = rest /\
    rx_state (snd (receive_frames (5 + fuel) (length msgs) rx)) = PR_WAIT_START.
Proof.
  induction msgs as [|[m p] more IH]; intros sq rx rest Hw Hsq Hst Hts Hq.
  - cbn in *. repeat split; assumption.
  - inversion Hw as [|x l [Hm Hl] Hw']; subst. cbn [fst snd] in Hm, Hl.
    cbn [frames] in Hq. unfold frame in Hq at 1.
    rewrite map_app, <- app_assoc in Hq.
    pose proof (stream_receive_frame crc fuel rx sq m _ p _ Hst Hts Hq Hsq Hm
                  (crc8_is_byte crc _ _) Hl) as Hrun.
    cbv zeta in Hrun. rewrite Z.eqb_refl in Hrun.
    cbn [length]. destruct (receive_frames_S (5 + fuel) (length more) rx)
      as [Hf Hs].
    rewrite Hf, Hs, Hrun. cbn [fst snd]. settle.
    change (0 =? 0) with true. cbv iota.
    rewrite Nat2Z.id, firstn_store.
    match goal with |- context [receive_frames _ _ ?m1] =>
      destruct (IH (u8 (sq + 1)) m1 rest Hw') as (H1 & H2 & H3);
        [unfold u8, is_byte; apply Z.mod_pos_bound; lia
        |reflexivity|reflexivity|reflexivity|]
    end.
    rewrite H1. repeat split; assumption.
Qed.

(** X11.  What is sent is what is received.  When a run of sends, each
    of a whole payload of at most 255 bytes, reports no failure, and the
    bytes it handed to the channel arrive at an idle receiver, polling
    [pbstx_receive] once per message returns [MSG_OK] every time with
    that message's id and payload in the out-parameters, in the order
    sent, and leaves the receiver idle with nothing consumed beyond the
    frames. *)
Theorem send_receive_round_trip
    (fuel : nat) (tx rx : @machine SP) (msgs : list (Z * list Z))
    (evs : list event) (rest : list rx_item) :
  Forall well_sized msgs ->
  is_byte (tx_seq tx) ->
  Forall (fun r => chan_failed (P:=SP) r = false) (fst (send_all msgs tx)) ->
  trace (snd (send_all msgs tx)) = trace tx ++ evs ->
  rx_state rx = PR_WAIT_START ->
  term_script (world rx) = [] ->
  rxq (world rx) = map RxByte (tx_bytes evs) ++ rest ->
  fst (receive_frames (5 + fuel) (length msgs) rx) = map Some msgs /\
  rxq (world (snd (receive_frames (5 + fuel) (length msgs) rx))) = rest /\
  rx_state (snd (receive_frames (5 + fuel) (length msgs) rx)) = PR_WAIT_START.
Proof.
  intros Hw Hsq Hok Htr Hst Hts Hq.
  destruct (send_all_frames msgs tx Hw Hok) as (evs' & Htr' & Hb).
  rewrite Htr in Htr'. apply app_inv_head in Htr'. subst evs'.
  rewrite Hb in Hq.
  exact (receive_frames_of_frames fuel msgs (tx_seq tx) rx rest Hw Hsq Hst Hts Hq).
Qed.

End Stream_More.

(** * Properties of the message layer *)

Ltac cfields :=
  cbv beta iota; cbn [cworld ctrace m_instances fst snd negb andb orb].

Ltac cunfold :=
  unfold pbstxEncodeSendComm, do_pbstxSend, do_alert, do_memdump,
    ccall, clog, cgets, cbind, cret in *.

Section Comm_Properties.

Context {CP : CommPlatform}.

(** [pbstxEncodeSend], path by path. *)
Lemma pbstxEncodeSend_run (dev : Z) (msg : pbstx_message_t) (t : msgtype)
    (m : submsg) (s : cstate) :
  pbstxEncodeSend dev msg t m s =
    match encoded msg t m with
    | inl ready =>
        ((fst (pbstxSend dev ready (cworld s)), ready),
         mkCstate (snd (pbstxSend dev ready (cworld s)))
                  (ctrace s ++ [CvEncodeSend dev t m;
                                CvSend dev ready (fst (pbstxSend dev ready (cworld s)))])
                  (m_instances s))
    | inr undone =>
        ((MSG_RESET, undone),
         mkCstate (alert_component ALS_COMM AL_FAIL (cworld s))
                  (ctrace s ++ [CvEncodeSend dev t m; CvAlert ALS_COMM AL_FAIL])
                  (m_instances s))
    end.
Proof.
  unfold pbstxEncodeSend, encoded. cunfold. cfields.
  destruct (find_field miniecu_Message_fields t) as [field|]; cfields.
  - destruct (pb_encode_tag_for_field field _) as [[|] os1]; cfields.
    + destruct (pb_encode_submessage t m os1) as [[|] os2]; cfields.
      * destruct (pbstxSend dev _ (cworld s)) as [r w]. cfields.
        rewrite <- app_assoc. reflexivity.
      * rewrite <- app_assoc. reflexivity.
    + rewrite <- app_assoc. reflexivity.
  - rewrite <- app_assoc. reflexivity.
Qed.

Lemma encoded_keeps_size (msg undone : pbstx_message_t) (t : msgtype) (m : submsg) :
  encoded msg t m = inr undone -> msg_size undone = msg_size msg.
Proof.
  unfold encoded.
  destruct (find_field miniecu_Message_fields t) as [field|];
    [|intros H; inversion H; reflexivity].
  destruct (fst (pb_encode_tag_for_field field _));
    [|intros H; inversion H; reflexivity].
  destruct (fst (pb_encode_submessage t m _)); intros H; inversion H; reflexivity.
Qed.

(** X12.  [pbstxEncodeSend] does exactly one of two things.  Either the
    descriptor is in the table and both encoding steps succeed: then it
    makes one [pbstxSend] of the encoded message and returns its result,
    raising no alert.  Or it raises one [AL_FAIL] alert, sends nothing,
    returns [MSG_RESET] and leaves [msg->size] as it was.  It never
    changes the registry. *)
Theorem encode_send_sends_or_alerts (dev : Z) (msg : pbstx_message_t)
    (t : msgtype) (m : submsg) (s : cstate) :
  let '(ret, msg', s') := pbstxEncodeSend dev msg t m s in
  m_instances s' = m_instances s /\
  ((exists r,
      encoded msg t m = inl msg' /\
      ret = r /\
      ctrace s' = ctrace s ++ [CvEncodeSend dev t m; CvSend dev msg' r])
   \/
   (encoded msg t m = inr msg' /\
    ret = MSG_RESET /\
    msg_size msg' = msg_size msg /\
    ctrace s' = ctrace s ++ [CvEncodeSend dev t m; CvAlert ALS_COMM AL_FAIL])).
Proof.
  rewrite pbstxEncodeSend_run.
  destruct (encoded msg t m) as [ready|undone] eqn:He.
  - split; [reflexivity|]. left. eexists. repeat split.
  - split; [reflexivity|]. right. repeat split.
    exact (encoded_keeps_size _ _ _ _ He).
Qed.

(** The broadcast loop once the message is encoded: one send per live
    session, whatever the sends return. *)
Lemma broadcast_loop_encoded (t : msgtype) (m : submsg) (msg : pbstx_message_t) :
  msg_size msg <> 0 ->
  forall (slots : list (option Z)) (ret : Z) (s : cstate),
  exists rs,
    length rs = length (live slots) /\
    fst (broadcast_loop slots ret msg t m s) = (last_negative rs ret, msg) /\
    ctrace (snd (broadcast_loop slots ret msg t m s)) =
      ctrace s ++ sends_to msg (live slots) rs /\
    m_instances (snd (broadcast_loop slots ret msg t m s)) = m_instances s.
Proof.
  intros Hsz. apply Z.eqb_neq in Hsz.
  induction slots as [|[dev|] slots IH]; intros ret s.
  - exists []. cbn. rewrite app_nil_r. repeat split.
  - cbn [broadcast_loop live]. rewrite Hsz. cunfold. cfields.
    destruct (pbstxSend dev msg (cworld s)) as [r w]. cfields.
    destruct (IH (if r <? 0 then r else ret)
                 (mkCstate w (ctrace s ++ [CvSend dev msg r]) (m_instances s)))
      as (rs & Hlen & Hres & Htr & Hreg).
    exists (r :: rs). split; [cbn; rewrite Hlen; reflexivity|].
    split; [exact Hres|]. split; [|exact Hreg].
    rewrite Htr. cbn. rewrite <- app_assoc. reflexivity.
  - cbn [broadcast_loop live]. apply IH.
Qed.

(** The broadcast loop on a fresh message object that encodes. *)
Lemma broadcast_loop_fresh (t : msgtype) (m : submsg)
    (payload : list Z) (ready : pbstx_message_t) :
  encoded (mkMessage payload 0) t m = inl ready ->
  msg_size ready <> 0 ->
  forall (slots : list (option Z)) (ret : Z) (s : cstate),
  exists rs,
    length rs = length (live slots) /\
    fst (fst (broadcast_loop slots ret (mkMessage payload 0) t m s)) =
      last_negative rs ret /\
    ctrace (snd (broadcast_loop slots ret (mkMessage payload 0) t m s)) =
      ctrace s ++
      match live slots with
      | [] => []
      | dev :: _ => CvEncodeSend dev t m :: sends_to ready (live slots) rs
      end /\
    m_instances (snd (broadcast_loop slots ret (mkMessage payload 0) t m s)) =
      m_instances s.
Proof.
  intros Henc Hsz.
  induction slots as [|[dev|] slots IH]; intros ret s.
  - exists []. cbn. rewrite app_nil_r. repeat split.
  - cbn [broadcast_loop live msg_size]. change (0 =? 0) with true. cfields.
    unfold cbind. rewrite pbstxEncodeSend_run, Henc. cfields.
    match goal with |- context [broadcast_loop slots ?r0 ready t m ?s1] =>
      destruct (broadcast_loop_encoded t m ready Hsz slots r0 s1)
        as (rs & Hlen & Hres & Htr & Hreg)
    end.
    exists (fst (pbstxSend dev ready (cworld s)) :: rs).
    split; [cbn; rewrite Hlen; reflexivity|].
    split; [rewrite Hres; reflexivity|].
    split; [|rewrite Hreg; reflexivity].
    rewrite Htr. cbn. rewrite <- !app_assoc. reflexivity.
  - cbn [broadcast_loop live]. apply IH.
Qed.

(** X13.  A broadcast is best-effort to every live session.  When the
    message encodes to a non-empty payload, [pbstxEncodeSendBroadcast]
    encodes it once, for the first live session, and then makes one
    [pbstxSend] of that same encoded message to every live session in
    slot order, whatever the earlier sends returned; it returns the last
    negative send result, or [MSG_OK] when there is none. *)
Theorem broadcast_reaches_every_live_session
    (msg ready : pbstx_message_t) (t : msgtype) (m : submsg) (s : cstate) :
  encoded (mkMessage (msg_payload msg) 0) t m = inl ready ->
  msg_size ready <> 0 ->
  exists rs,
    length rs = length (live (firstn MAX_INSTANCES (m_instances s))) /\
    fst (fst (pbstxEncodeSendBroadcast msg t m s)) = last_negative rs MSG_OK /\
    ctrace (snd (pbstxEncodeSendBroadcast msg t m s)) =
      ctrace s ++ CvBroadcast t m ::
      match live (firstn MAX_INSTANCES (m_instances s)) with
      | [] => []
      | dev :: _ =>
          CvEncodeSend dev t m ::
          sends_to ready (live (firstn MAX_INSTANCES (m_instances s))) rs
      end /\
    m_instances (snd (pbstxEncodeSendBroadcast msg t m s)) = m_instances s.
Proof.
  intros Henc Hsz.
  unfold pbstxEncodeSendBroadcast. cunfold. cfields.
  destruct (broadcast_loop_fresh t m _ ready Henc Hsz
              (firstn MAX_INSTANCES (m_instances s)) MSG_OK
              (mkCstate (cworld s) (ctrace s ++ [CvBroadcast t m]) (m_instances s)))
    as (rs & Hlen & Hres & Htr & Hreg).
  exists rs. split; [exact Hlen|]. split; [exact Hres|]. split; [|exact Hreg].
  rewrite Htr. cbn [ctrace]. rewrite <- app_assoc. reflexivity.
Qed.

(** X14.  With no live session a broadcast is a silent no-op: nothing
    is encoded, sent or signalled, [MSG_OK] is returned, and the only
    change to the message object is [size] set to zero. *)
Theorem broadcast_without_sessions_is_dropped
    (msg : pbstx_message_t) (t : msgtype) (m : submsg) (s : cstate) :
  live (firstn MAX_INSTANCES (m_instances s)) = [] ->
  pbstxEncodeSendBroadcast msg t m s =
    ((MSG_OK, mkMessage (msg_payload msg) 0),
     mkCstate (cworld s) (ctrace s ++ [CvBroadcast t m]) (m_instances s)).
Proof.
  unfold pbstxEncodeSendBroadcast. cunfold. cfields.
  generalize (mkCstate (cworld s) (ctrace s ++ [CvBroadcast t m]) (m_instances s)).
  generalize (firstn MAX_INSTANCES (m_instances s)).
  induction l as [|[dev|] slots IH]; intros s0 Hl.
  - reflexivity.
  - discriminate Hl.
  - cbn [broadcast_loop]. apply IH. exact Hl.
Qed.

(** The broadcast loop when nothing encodes: one attempt and one alert
    per live session, no send. *)
Lemma broadcast_loop_unencodable (t : msgtype) (m : submsg) :
  (forall payload, exists undone,
     encoded (mkMessage payload 0) t m = inr undone) ->
  forall (slots : list (option Z)) (ret : Z) (msg : pbstx_message_t) (s : cstate),
    msg_size msg = 0 ->
    exists evs,
      ctrace (snd (broadcast_loop slots ret msg t m s)) = ctrace s ++ evs /\
      filter is_csend evs = [] /\
      unicasts evs = map (fun dev => (dev, t, m)) (live slots) /\
      length (filter (fun e => match e with CvAlert _ _ => true | _ => false end) evs)
        = length (live slots) /\
      fst (fst (broadcast_loop slots ret msg t m s)) =
        last_negative (map (fun _ => MSG_RESET) (live slots)) ret.
Proof.
  intros Hun. induction slots as [|[dev|] slots IH]; intros ret msg s Hsz.
  - exists []. cbn. rewrite app_nil_r. repeat split.
  - cbn [broadcast_loop live]. rewrite Hsz. change (0 =? 0) with true. cfields.
    unfold cbind. rewrite pbstxEncodeSend_run.
    destruct msg as [payload sz]. cbn in Hsz. subst sz.
    destruct (Hun payload) as (undone & He). rewrite He. cfields.
    pose proof (encoded_keeps_size _ _ _ _ He) as Hkeep. cbn in Hkeep.
    match goal with |- context [broadcast_loop slots ?r undone t m ?s1] =>
      destruct (IH r undone s1 Hkeep) as (evs & Htr & Hns & Hu & Hal & Hres) end.
    exists ([CvEncodeSend dev t m; CvAlert ALS_COMM AL_FAIL] ++ evs).
    split; [rewrite Htr; cbn; rewrite <- !app_assoc; reflexivity|].
    split; [cbn; exact Hns|].
    split; [cbn; rewrite Hu; reflexivity|].
    split; [cbn; rewrite Hal; reflexivity|].
    rewrite Hres. reflexivity.
  - cbn [broadcast_loop live]. apply IH. exact Hsz.
Qed.

Lemma last_negative_const {A} (l : list A) (r ret : Z) :
  r < 0 -> l <> [] -> last_negative (map (fun _ => r) l) ret = r.
Proof.
  intros Hr. revert ret. induction l as [|a l IH]; intros ret Hn; [congruence|].
  cbn [map]. unfold last_negative. cbn [fold_left].
  assert (Hlt : (r <? 0) = true) by (apply Z.ltb_lt; exact Hr). rewrite Hlt.
  destruct l as [|b l]; [reflexivity|]. apply (IH r). discriminate.
Qed.

(** X15.  A message that cannot be encoded is attempted anew for every
    live session: each gets one [pbstxEncodeSend] and one [AL_FAIL]
    alert, nothing is sent, and where [MSG_RESET] is negative and some
    session is live the broadcast returns [MSG_RESET]. *)
Theorem unencodable_broadcast_alerts_per_session
    (msg : pbstx_message_t) (t : msgtype) (m : submsg) (s : cstate) :
  (forall payload, exists undone,
     encoded (mkMessage payload 0) t m = inr undone) ->
  exists evs,
    ctrace (snd (pbstxEncodeSendBroadcast msg t m s)) =
      ctrace s ++ CvBroadcast t m :: evs /\
    filter is_csend evs = [] /\
    unicasts evs =
      map (fun dev => (dev, t, m)) (live (firstn MAX_INSTANCES (m_instances s))) /\
    length (filter (fun e => match e with CvAlert _ _ => true | _ => false end) evs)
      = length (live (firstn MAX_INSTANCES (m_instances s))) /\
    (RDY_RESET < 0 ->
     live (firstn MAX_INSTANCES (m_instances s)) <> [] ->
     fst (fst (pbstxEncodeSendBroadcast msg t m s)) = MSG_RESET).
Proof.
  intros Hun. unfold pbstxEncodeSendBroadcast. cunfold. cfields.
  destruct (broadcast_loop_unencodable t m Hun
              (firstn MAX_INSTANCES (m_instances s)) MSG_OK
              (mkMessage (msg_payload msg) 0)
              (mkCstate (cworld s) (ctrace s ++ [CvBroadcast t m]) (m_instances s))
              eq_refl)
    as (evs & Htr & Hns & Hu & Hal & Hres).
  exists evs. split; [rewrite Htr; cbn; rewrite <- app_assoc; reflexivity|].
  repeat (split; [assumption|]).
  intros Hneg Hlive. rewrite Hres.
  apply last_negative_const; assumption.
Qed.

(** What [pbstxEncodeSend] adds to the trace: its entry, then one send
    or one alert. *)
Lemma pbstxEncodeSend_trace (dev : Z) (msg : pbstx_message_t) (t : msgtype)
    (m : submsg) (s : cstate) :
  exists e,
    ctrace (snd (pbstxEncodeSend dev msg t m s)) =
      ctrace s ++ [CvEncodeSend dev t m; e] /\
    is_send_detail e = true /\
    m_instances (snd (pbstxEncodeSend dev msg t m s)) = m_instances s.
Proof.
  rewrite pbstxEncodeSend_run.
  destruct (encoded msg t m); eexists; repeat split.
Qed.

(** X16.  [recv_command] executes a command at most once, and only for
    a request addressed to this engine that carries no response yet.
    Then it calls [command_request] once and answers on the same session
    with the same command, the response attached.  A message for another
    engine or one that already carries a response changes nothing at
    all; so the reply, decoded again, is never executed.  A message that
    does not decode raises [AL_FAIL] and nothing else. *)
Theorem command_runs_once_for_own_request
    (dev : Z) (msg : pbstx_message_t) (instream : list Z) (s : cstate) :
  match pbstxDecodeMessage pb_decode_Command instream with
  | None =>
      ctrace (snd (recv_command dev msg instream s)) =
        ctrace s ++ [CvAlert ALS_COMM AL_FAIL]
  | Some cmd =>
      if (cmd_engine_id cmd =? u32 (gp_engine_id (cworld s)))
         && negb (cmd_has_response cmd)
      then
        exists r e,
          let reply := mkCommand (cmd_engine_id cmd) (cmd_operation cmd) true r in
          ctrace (snd (recv_command dev msg instream s)) =
            ctrace s ++
            [CvCommand (cmd_operation cmd) r;
             CvEncodeSend dev miniecu_Command_fields (Msg_Command reply); e] /\
          is_send_detail e = true /\
          (forall dev' msg' instream' s',
             pbstxDecodeMessage pb_decode_Command instream' = Some reply ->
             recv_command dev' msg' instream' s' = (msg', s'))
      else recv_command dev msg instream s = (msg, s)
  end.
Proof.
  unfold recv_command.
  destruct (pbstxDecodeMessage pb_decode_Command instream) as [cmd|];
    [|reflexivity].
  cunfold. cfields.
  destruct (cmd_engine_id cmd =? u32 (gp_engine_id (cworld s))); cfields;
    [|reflexivity].
  destruct (cmd_has_response cmd); cfields; [reflexivity|].
  destruct (command_request (cmd_operation cmd) (cworld s)) as [r w]. cfields.
  match goal with |- context [pbstxEncodeSend dev msg ?t ?m ?s1] =>
    destruct (pbstxEncodeSend_trace dev msg t m s1) as (e & Htr & He & _);
    destruct (pbstxEncodeSend dev msg t m s1) as [[ret msg1] s2]
  end.
  cfields. cbn [ctrace snd] in Htr.
  exists r, e. split; [rewrite Htr, <- app_assoc; reflexivity|].
  split; [exact He|].
  intros dev' msg' instream' s' Hd. rewrite Hd.
  cbn [cmd_engine_id cmd_has_response]. cfields.
  destruct (cmd_engine_id cmd =? u32 (gp_engine_id (cworld s'))); reflexivity.
Qed.

(** X17.  [recv_time_reference] answers a request addressed to this
    engine or to engine 0 that carries no time difference yet: it sets
    the clock once from the peer's timestamp and answers on the same
    session with this engine's id, the system time read before the clock
    was set, and the difference.  Any other message changes nothing at
    all; so the reply, decoded again, is never answered.  A message that
    does not decode raises [AL_FAIL] and nothing else. *)
Theorem time_reference_answers_requests_only
    (dev : Z) (msg : pbstx_message_t) (instream : list Z) (s : cstate) :
  match pbstxDecodeMessage pb_decode_TimeReference instream with
  | None =>
      ctrace (snd (recv_time_reference dev msg instream s)) =
        ctrace s ++ [CvAlert ALS_COMM AL_FAIL]
  | Some time_ref =>
      if ((tr_engine_id time_ref =? u32 (gp_engine_id (cworld s)))
          || (tr_engine_id time_ref =? 0))
         && negb (tr_has_timediff time_ref)
      then
        exists diff e,
          let reply :=
            mkTimeReference (u32 (gp_engine_id (cworld s))) true
                            (time_get_systime (cworld s))
                            (tr_timestamp_ms time_ref) true diff in
          ctrace (snd (recv_time_reference dev msg instream s)) =
            ctrace s ++
            [CvSetTimestamp (tr_timestamp_ms time_ref) diff;
             CvEncodeSend dev miniecu_TimeReference_fields
                          (Msg_TimeReference reply); e] /\
          is_send_detail e = true /\
          (forall dev' msg' instream' s',
             pbstxDecodeMessage pb_decode_TimeReference instream' = Some reply ->
             recv_time_reference dev' msg' instream' s' = (msg', s'))
      else recv_time_reference dev msg instream s = (msg, s)
  end.
Proof.
  unfold recv_time_reference.
  destruct (pbstxDecodeMessage pb_decode_TimeReference instream) as [time_ref|];
    [|reflexivity].
  cunfold. cfields.
  destruct (tr_engine_id time_ref =? u32 (gp_engine_id (cworld s)));
    destruct (tr_engine_id time_ref =? 0); cfields; try reflexivity;
    (destruct (tr_has_timediff time_ref); cfields; [reflexivity|]);
    (destruct (time_set_timestamp (tr_timestamp_ms time_ref) (cworld s))
       as [diff w]; cfields;
     match goal with |- context [pbstxEncodeSend dev msg ?t ?m ?s1] =>
       destruct (pbstxEncodeSend_trace dev msg t m s1) as (e & Htr & He & _);
       destruct (pbstxEncodeSend dev msg t m s1) as [[ret msg1] s2]
     end;
     cfields; cbn [ctrace snd] in Htr;
     exists diff, e; split; [rewrite Htr, <- app_assoc; reflexivity|];
     split; [exact He|];
     intros dev' msg' instream' s' Hd; rewrite Hd;
     cbn [tr_engine_id tr_has_timediff]; cfields;
     destruct (u32 (gp_engine_id (cworld s)) =? u32 (gp_engine_id (cworld s')));
     destruct (u32 (gp_engine_id (cworld s)) =? 0); reflexivity).
Qed.

(** What a broadcast adds to the trace. *)
Lemma broadcast_loop_trace (t : msgtype) (m : submsg) :
  forall (slots : list (option Z)) (ret : Z) (msg : pbstx_message_t) (s : cstate),
  exists evs,
    ctrace (snd (broadcast_loop slots ret msg t m s)) = ctrace s ++ evs /\
    Forall (broadcast_detail t m) evs /\
    m_instances (snd (broadcast_loop slots ret msg t m s)) = m_instances s.
Proof.
  induction slots as [|[dev|] slots IH]; intros ret msg s.
  - exists []. cbn. rewrite app_nil_r. repeat split. constructor.
  - cbn [broadcast_loop]. destruct (msg_size msg =? 0).
    + unfold cbind. rewrite pbstxEncodeSend_run.
      destruct (encoded msg t m) as [ready|undone]; cfields;
        match goal with |- context [broadcast_loop slots ?r0 ?m0 t m ?s1] =>
          destruct (IH r0 m0 s1) as (evs & Htr & Hd & Hreg) end;
        eexists (_ :: _ :: evs);
        (split; [rewrite Htr; cbn; rewrite <- app_assoc; reflexivity|]);
        (split; [|exact Hreg]);
        (constructor; [left; eexists; reflexivity|]);
        (constructor; [|exact Hd]).
      * right; left. do 3 eexists. reflexivity.
      * right; right. reflexivity.
    + cunfold. cfields. destruct (pbstxSend dev msg (cworld s)) as [r w]. cfields.
      match goal with |- context [broadcast_loop slots ?r0 ?m0 t m ?s1] =>
        destruct (IH r0 m0 s1) as (evs & Htr & Hd & Hreg) end.
      eexists (_ :: evs).
      split; [rewrite Htr; cbn; rewrite <- app_assoc; reflexivity|].
      split; [|exact Hreg].
      constructor; [|exact Hd]. right; left. do 3 eexists. reflexivity.
  - cbn [broadcast_loop]. apply IH.
Qed.

Lemma broadcast_trace (msg : pbstx_message_t) (t : msgtype) (m : submsg)
    (s : cstate) :
  exists evs,
    ctrace (snd (pbstxEncodeSendBroadcast msg t m s)) =
      ctrace s ++ CvBroadcast t m :: evs /\
    Forall (broadcast_detail t m) evs /\
    m_instances (snd (pbstxEncodeSendBroadcast msg t m s)) = m_instances s.
Proof.
  unfold pbstxEncodeSendBroadcast. cunfold. cfields.
  match goal with |- context [broadcast_loop ?sl ?r0 ?m0 t m ?s1] =>
    destruct (broadcast_loop_trace t m sl r0 m0 s1) as (evs & Htr & Hd & Hreg) end.
  exists evs. split; [rewrite Htr; cbn; rewrite <- app_assoc; reflexivity|].
  split; assumption.
Qed.

Lemma broadcasts_app (xs ys : list cevent) :
  broadcasts (xs ++ ys) = broadcasts xs ++ broadcasts ys.
Proof.
  induction xs as [|e xs IH]; [reflexivity|].
  destruct e; cbn; rewrite IH; reflexivity.
Qed.

Lemma mem_reads_app (xs ys : list cevent) :
  mem_reads (xs ++ ys) = mem_reads xs ++ mem_reads ys.
Proof.
  induction xs as [|e xs IH]; [reflexivity|].
  destruct e; cbn; rewrite IH; reflexivity.
Qed.

Lemma dump_pages_app (xs ys : list cevent) :
  dump_pages (xs ++ ys) = dump_pages xs ++ dump_pages ys.
Proof.
  induction xs as [|e xs IH]; [reflexivity|].
  destruct e as [dev t m| | | | | | | |]; cbn; try exact IH.
  destruct m; cbn; rewrite IH; reflexivity.
Qed.

Lemma detail_broadcasts (t : msgtype) (m : submsg) (evs : list cevent) :
  Forall (broadcast_detail t m) evs -> broadcasts evs = [].
Proof.
  induction 1 as [|e evs He _ IH]; [reflexivity|].
  destruct He as [[dev ->]|[(dev & msg & r & ->)| ->]]; exact IH.
Qed.

Lemma detail_mem_reads (t : msgtype) (m : submsg) (evs : list cevent) :
  Forall (broadcast_detail t m) evs -> mem_reads evs = [].
Proof.
  induction 1 as [|e evs He _ IH]; [reflexivity|].
  destruct He as [[dev ->]|[(dev & msg & r & ->)| ->]]; exact IH.
Qed.

Lemma detail_dump_pages (t : msgtype) (m : submsg) (evs : list cevent) :
  (forall p, m <> Msg_MemoryDumpPage p) ->
  Forall (broadcast_detail t m) evs -> dump_pages evs = [].
Proof.
  intros Hm. induction 1 as [|e evs He _ IH]; [reflexivity|].
  destruct He as [[dev ->]|[(dev & msg & r & ->)| ->]]; try exact IH.
  destruct m; try exact IH. exfalso. eapply Hm. reflexivity.
Qed.

(** The "request all" loop: what it broadcasts. *)
Lemma param_dump_loop_spec (todo : nat) :
  forall (idx count : Z) (msg : pbstx_message_t) (s : cstate),
  exists evs pvs,
    ctrace (snd (param_dump_loop todo idx count msg s)) = ctrace s ++ evs /\
    broadcasts evs = map Msg_ParamValue pvs /\
    Forall (fun pv => pv_param_count pv = count) pvs /\
    ascending_within idx (idx + Z.of_nat todo) (map pv_param_index pvs) /\
    ((forall w i, idx <= i < idx + Z.of_nat todo ->
                  fst (fst (param_get_by_idx i w)) = PARAM_OK) ->
     map pv_param_index pvs = indices_from idx todo) /\
    m_instances (snd (param_dump_loop todo idx count msg s)) = m_instances s.
Proof.
  induction todo as [|todo IH]; intros idx count msg s.
  - exists [], []. cbn. rewrite app_nil_r. repeat split. constructor.
  - cbn [param_dump_loop]. cunfold. cfields.
    destruct (param_get_by_idx idx (cworld s)) as [[status pid] value] eqn:Hget.
    cfields. destruct (status =? PARAM_OK) eqn:Hst; cfields.
    + unfold send_param_value.
      match goal with |- context [pbstxEncodeSendBroadcast msg ?t ?m s] =>
        destruct (broadcast_trace msg t m s) as (e1 & Htr1 & Hd1 & Hreg1);
        destruct (pbstxEncodeSendBroadcast msg t m s) as [[r1 msg1] s1]
      end.
      cfields. cbn [ctrace m_instances snd] in Htr1, Hreg1.
      destruct (IH (idx + 1) count msg1 s1)
        as (evs & pvs & Htr & Hb & Hc & Ha & Hex & Hreg).
      eexists (_ :: e1 ++ evs), (_ :: pvs).
      split; [rewrite Htr, Htr1, <- app_assoc; reflexivity|].
      split; [cbn [broadcasts]; rewrite broadcasts_app,
                (detail_broadcasts _ _ _ Hd1), Hb; reflexivity|].
      split; [constructor; [reflexivity | exact Hc]|].
      split; [cbn; split; [lia|];
              replace (idx + Z.pos (Pos.of_succ_nat todo))
                with (idx + 1 + Z.of_nat todo) by lia; exact Ha|].
      split; [intros Hall; cbn; rewrite Hex;
                [reflexivity | intros w i Hi; apply Hall; lia]|].
      rewrite Hreg. exact Hreg1.
    + destruct (IH (idx + 1) count msg s)
        as (evs & pvs & Htr & Hb & Hc & Ha & Hex & Hreg).
      exists evs, pvs. repeat (split; [assumption|]).
      split.
      * clear - Ha. revert Ha. generalize (map pv_param_index pvs) as l.
        intros l. replace (idx + Z.of_nat (S todo)) with (idx + 1 + Z.of_nat todo)
          by lia.
        generalize (idx + 1 + Z.of_nat todo) as hi. intros hi.
        destruct l as [|x l]; cbn; [trivial|]. intros [H1 H2]. split; [lia|exact H2].
      * split; [|exact Hreg]. intros Hall. exfalso.
        specialize (Hall (cworld s) idx ltac:(lia)). rewrite Hget in Hall.
        cbn in Hall.
        apply Z.eqb_neq in Hst. contradiction.
Qed.

(** X18.  A parameter request with neither an id nor an index dumps
    the store: [recv_param_request] broadcasts only [ParamValue]
    messages, each carrying the parameter count read at entry and an
    index below it, in strictly ascending index order (so at most one per
    index); and when the lookup succeeds for every index below the count,
    exactly one for each index 0, 1, ..., count-1. *)
Theorem param_request_all_dumps_by_index
    (dev : Z) (msg : pbstx_message_t) (instream : list Z) (s : cstate)
    (req : miniecu_ParamRequest) :
  pbstxDecodeMessage pb_decode_ParamRequest instream = Some req ->
  prq_engine_id req = u32 (gp_engine_id (cworld s)) \/ prq_engine_id req = 0 ->
  prq_has_param_id req = false ->
  prq_has_param_index req = false ->
  0 <= param_count (cworld s) ->
  exists evs pvs,
    ctrace (snd (recv_param_request dev msg instream s)) = ctrace s ++ evs /\
    broadcasts evs = map Msg_ParamValue pvs /\
    Forall (fun pv => pv_param_count pv = param_count (cworld s)) pvs /\
    ascending_within 0 (param_count (cworld s)) (map pv_param_index pvs) /\
    ((forall w i, 0 <= i < param_count (cworld s) ->
                  fst (fst (param_get_by_idx i w)) = PARAM_OK) ->
     map pv_param_index pvs =
       indices_from 0 (Z.to_nat (param_count (cworld s)))) /\
    m_instances (snd (recv_param_request dev msg instream s)) = m_instances s.
Proof.
  intros Hdec Hid Hnoid Hnoidx Hcount.
  unfold recv_param_request. cunfold. cfields. rewrite Hdec. cfields.
  assert (Hacc : negb (prq_engine_id req =? u32 (gp_engine_id (cworld s)))
                 && negb (prq_engine_id req =? 0) = false).
  { destruct Hid as [-> | ->]; rewrite Z.eqb_refl; cbn;
      [reflexivity | apply andb_false_r]. }
  rewrite Hacc, Hnoid, Hnoidx.
  destruct (param_dump_loop_spec (Z.to_nat (param_count (cworld s))) 0
              (param_count (cworld s)) msg s)
    as (evs & pvs & Htr & Hb & Hc & Ha & Hex & Hreg).
  exists evs, pvs. rewrite Z2Nat.id in Ha, Hex by exact Hcount.
  repeat split; assumption.
Qed.

(** X19.  A parameter request that names a parameter is answered by at
    most one broadcast.  A request for another engine (neither this one
    nor 0) changes nothing.  With an id present the lookup is by id, even
    if an index is present too; otherwise with an index present it is by
    index.  A failed lookup changes nothing; a successful one broadcasts
    one [ParamValue] with this engine's id, the parameter's index, the
    count read at entry, its id and its value. *)
Theorem param_request_lookup_answers_once
    (dev : Z) (msg : pbstx_message_t) (instream : list Z) (s : cstate) :
  let run := recv_param_request dev msg instream s in
  let id := u32 (gp_engine_id (cworld s)) in
  let count := param_count (cworld s) in
  match pbstxDecodeMessage pb_decode_ParamRequest instream with
  | None => ctrace (snd run) = ctrace s ++ [CvAlert ALS_COMM AL_FAIL]
  | Some req =>
      if negb (prq_engine_id req =? id) && negb (prq_engine_id req =? 0)
      then run = (msg, s)
      else if prq_has_param_id req then
        let '(status, value, idx) := param_get (prq_param_id req) (cworld s) in
        if status =? PARAM_OK then
          exists evs,
            ctrace (snd run) =
              ctrace s ++
              CvBroadcast miniecu_ParamValue_fields
                (Msg_ParamValue
                   (mkParamValue id idx count
                      (strncpy (prq_param_id req) PT_ID_SIZE) value)) :: evs /\
            broadcasts evs = []
        else run = (msg, s)
      else if prq_has_param_index req then
        let '(status, param_id, value) :=
          param_get_by_idx (prq_param_index req) (cworld s) in
        if status =? PARAM_OK then
          exists evs,
            ctrace (snd run) =
              ctrace s ++
              CvBroadcast miniecu_ParamValue_fields
                (Msg_ParamValue
                   (mkParamValue id (prq_param_index req) count
                      param_id value)) :: evs /\
            broadcasts evs = []
        else run = (msg, s)
      else True
  end.
Proof.
  cbv zeta. unfold recv_param_request. cunfold. cfields.
  destruct (pbstxDecodeMessage pb_decode_ParamRequest instream) as [req|];
    cfields; [|reflexivity].
  destruct (negb (prq_engine_id req =? u32 (gp_engine_id (cworld s)))
            && negb (prq_engine_id req =? 0)); [reflexivity|].
  destruct (prq_has_param_id req).
  - destruct (param_get (prq_param_id req) (cworld s)) as [[status value] idx].
    cfields. destruct (status =? PARAM_OK); cfields; [|reflexivity].
    unfold send_param_value.
    match goal with |- context [pbstxEncodeSendBroadcast msg ?t ?m s] =>
      destruct (broadcast_trace msg t m s) as (e1 & Htr1 & Hd1 & _);
      destruct (pbstxEncodeSendBroadcast msg t m s) as [[r1 msg1] s1]
    end.
    cfields. exists e1. split; [exact Htr1|].
    exact (detail_broadcasts _ _ _ Hd1).
  - destruct (prq_has_param_index req); [|exact I].
    destruct (param_get_by_idx (prq_param_index req) (cworld s))
      as [[status pid] value].
    cfields. destruct (status =? PARAM_OK); cfields; [|reflexivity].
    unfold send_param_value.
    match goal with |- context [pbstxEncodeSendBroadcast msg ?t ?m s] =>
      destruct (broadcast_trace msg t m s) as (e1 & Htr1 & Hd1 & _);
      destruct (pbstxEncodeSendBroadcast msg t m s) as [[r1 msg1] s1]
    end.
    cfields. exists e1. split; [exact Htr1|].
    exact (detail_broadcasts _ _ _ Hd1).
Qed.

(** X20.  [recv_param_set] applies a set only for this engine, once,
    and broadcasts the stored value, not the requested one: after a set
    that returns [PARAM_OK] or [PARAM_LIMIT] it looks the parameter up
    again and broadcasts what the store holds then, with the engine id
    read after the set and the count read before it.  A request for
    another engine changes nothing; any other set result, or a failed
    lookup, leaves the set as the only call made. *)
Theorem param_set_broadcasts_stored_value
    (dev : Z) (msg : pbstx_message_t) (instream : list Z) (s : cstate) :
  let run := recv_param_set dev msg instream s in
  match pbstxDecodeMessage pb_decode_ParamSet instream with
  | None => ctrace (snd run) = ctrace s ++ [CvAlert ALS_COMM AL_FAIL]
  | Some req =>
      if negb (pst_engine_id req =? u32 (gp_engine_id (cworld s)))
      then run = (msg, s)
      else
        let (ret, w) := param_set (pst_param_id req) (pst_value req) (cworld s) in
        let set_only :=
          mkCstate w
            (ctrace s ++ [CvParamSet (pst_param_id req) (pst_value req) ret])
            (m_instances s) in
        if negb (ret =? PARAM_OK) && negb (ret =? PARAM_LIMIT)
        then run = (msg, set_only)
        else
          let '(status, value, idx) := param_get (pst_param_id req) w in
          if status =? PARAM_OK then
            exists evs,
              ctrace (snd run) =
                ctrace set_only ++
                CvBroadcast miniecu_ParamValue_fields
                  (Msg_ParamValue
                     (mkParamValue (u32 (gp_engine_id w)) idx
                        (param_count (cworld s))
                        (strncpy (pst_param_id req) PT_ID_SIZE) value)) :: evs /\
              broadcasts evs = [] /\
              filter (fun e => match e with CvParamSet _ _ _ => true | _ => false end)
                     evs = []
          else run = (msg, set_only)
  end.
Proof.
  cbv zeta. unfold recv_param_set. cunfold. cfields.
  destruct (pbstxDecodeMessage pb_decode_ParamSet instream) as [req|];
    cfields; [|reflexivity].
  destruct (negb (pst_engine_id req =? u32 (gp_engine_id (cworld s))));
    [reflexivity|].
  destruct (param_set (pst_param_id req) (pst_value req) (cworld s)) as [ret w].
  cfields.
  destruct (negb (ret =? PARAM_OK) && negb (ret =? PARAM_LIMIT)); cfields;
    [reflexivity|].
  destruct (param_get (pst_param_id req) w) as [[status value] idx].
  cfields. destruct (status =? PARAM_OK); cfields; [|reflexivity].
  unfold send_param_value.
  match goal with |- context [pbstxEncodeSendBroadcast msg ?t ?m ?s0] =>
    destruct (broadcast_trace msg t m s0) as (e1 & Htr1 & Hd1 & _);
    destruct (pbstxEncodeSendBroadcast msg t m s0) as [[r1 msg1] s1]
  end.
  cfields. exists e1. split; [exact Htr1|].
  split; [exact (detail_broadcasts _ _ _ Hd1)|].
  clear - Hd1. induction Hd1 as [|e evs He _ IH]; [reflexivity|].
  destruct He as [[d ->]|[(d & m0 & r & ->)| ->]]; exact IH.
Qed.

Lemma i32_range (z : Z) : is_int32 (i32 z).
Proof.
  unfold i32, is_int32.
  pose proof (Z.mod_pos_bound (z + 2 ^ 31) (2 ^ 32) ltac:(lia)). lia.
Qed.

Lemma i32_small (z : Z) : is_int32 z -> i32 z = z.
Proof.
  unfold i32, is_int32. intros H.
  rewrite Z.mod_small by lia. lia.
Qed.

Lemma min_chunk (b : Z) :
  (if MEMDUMP_SIZE <? b then MEMDUMP_SIZE else b) = Z.min MEMDUMP_SIZE b.
Proof.
  destruct (MEMDUMP_SIZE <? b) eqn:H;
    [apply Z.ltb_lt in H | apply Z.ltb_ge in H]; lia.
Qed.

(** What [debug_printf] adds to the trace. *)
Lemma debug_printf_trace (stack : pbstx_message_t) (sev : severity)
    (fmt args : list Z) (s : cstate) :
  exists evs,
    ctrace (snd (debug_printf stack sev fmt args s)) =
      ctrace s ++
      CvBroadcast miniecu_StatusText_fields
        (Msg_StatusText
           (mkStatusText (u32 (gp_engine_id (cworld s))) sev
                         (chvprintf fmt args ++ [0]))) :: evs /\
    broadcasts evs = [] /\ mem_reads evs = [] /\ dump_pages evs = [] /\
    m_instances (snd (debug_printf stack sev fmt args s)) = m_instances s.
Proof.
  unfold debug_printf. cunfold. cfields.
  match goal with |- context [pbstxEncodeSendBroadcast stack ?t ?m s] =>
    destruct (broadcast_trace stack t m s) as (e1 & Htr1 & Hd1 & Hreg);
    destruct (pbstxEncodeSendBroadcast stack t m s) as [[r1 msg1] s1]
  end.
  cfields. exists e1. split; [exact Htr1|].
  split; [exact (detail_broadcasts _ _ _ Hd1)|].
  split; [exact (detail_mem_reads _ _ _ Hd1)|].
  split; [|exact Hreg].
  apply detail_dump_pages with (2 := Hd1). intros p H; discriminate H.
Qed.

(** The paging loop: its reads, its pages, its error report. *)
Lemma memdump_loop_paged (fuel : nat) (region : mem_region) (dev : Z)
    (stack : pbstx_message_t) (stream_id : Z) :
  forall (msg : pbstx_message_t) (address bytes_rem : Z) (s : cstate),
  exists evs failed,
    ctrace (snd (memdump_loop fuel region dev stack msg stream_id
                              address bytes_rem s)) = ctrace s ++ evs /\
    paged region stream_id address bytes_rem
          (mem_reads evs) (dump_pages evs) failed /\
    length (broadcasts evs) = (if failed then 1 else 0)%nat /\
    Forall (fun m => exists id,
              m = Msg_StatusText
                    (mkStatusText id DP_ERROR
                       (chvprintf fmt_memdump_read_error [] ++ [0])))
           (broadcasts evs) /\
    m_instances (snd (memdump_loop fuel region dev stack msg stream_id
                                   address bytes_rem s)) = m_instances s.
Proof.
  induction fuel as [|fuel IH]; intros msg address bytes_rem s.
  - exists [], false. cbn [memdump_loop].
    destruct (0 <? bytes_rem); cbn; rewrite app_nil_r;
      repeat split; constructor.
  - cbn [memdump_loop]. destruct (0 <? bytes_rem) eqn:Hb.
    2:{ exists [], false. cbn. rewrite app_nil_r. repeat split; constructor. }
    apply Z.ltb_lt in Hb. rewrite min_chunk.
    unfold do_memdump, pbstxEncodeSendComm, cbind, cret, cgets. cfields.
    match goal with |- context [match region with
                                | MEM_INT_RAM => ?a | MEM_EXT_FLASH => ?b end] =>
      destruct (match region with MEM_INT_RAM => a | MEM_EXT_FLASH => b end)
        as [[r bytes] w] end.
    cfields. destruct (i32 r <=? 0) eqn:Hr.
    + apply Z.leb_le in Hr.
      match goal with |- context [debug_printf stack ?sv ?f ?a ?s0] =>
        destruct (debug_printf_trace stack sv f a s0)
          as (e1 & Htr1 & Hb1 & Hm1 & Hp1 & Hreg1);
        destruct (debug_printf stack sv f a s0) as [[] s1]
      end.
      cfields. cbn [ctrace m_instances snd] in Htr1, Hreg1.
      eexists (_ :: _ :: e1), true.
      split; [rewrite Htr1, <- app_assoc; reflexivity|].
      cbn [mem_reads dump_pages broadcasts]. rewrite Hm1, Hp1, Hb1.
      split; [apply paged_failed; assumption|].
      split; [reflexivity|]. split; [|exact Hreg1].
      constructor; [|constructor]. eexists. reflexivity.
    + apply Z.leb_gt in Hr.
      match goal with |- context [pbstxEncodeSend dev msg ?t ?m ?s0] =>
        destruct (pbstxEncodeSend_trace dev msg t m s0) as (e & Htr1 & He & Hreg1);
        destruct (pbstxEncodeSend dev msg t m s0) as [[ret1 msg1] s1]
      end.
      cfields. cbn [ctrace m_instances snd] in Htr1, Hreg1.
      destruct (IH msg1 (u32 (address + i32 r)) (i32 (bytes_rem - i32 r)) s1)
        as (evs & failed & Htr & Hpg & Hlen & Hall & Hreg).
      exists ([CvMemRead region address (Z.min MEMDUMP_SIZE bytes_rem) (i32 r) bytes;
               CvEncodeSend dev miniecu_MemoryDumpPage_fields
                 (Msg_MemoryDumpPage
                    (mkMemoryDumpPage (u32 (gp_engine_id w)) stream_id address
                                      (i32 r) bytes));
               e] ++ evs), failed.
      split; [rewrite Htr, Htr1, <- !app_assoc; reflexivity|].
      destruct e; try discriminate He;
        cbn [app mem_reads dump_pages broadcasts];
        (split; [apply paged_page; assumption|]);
        (split; [exact Hlen|]); (split; [exact Hall|]);
        rewrite Hreg; exact Hreg1.
Qed.

Lemma recv_memory_dump_request_accepted
    (fuel : nat) (dev : Z) (stack msg : pbstx_message_t) (instream : list Z)
    (s : cstate) (req : miniecu_MemoryDumpRequest) (region : mem_region) :
  pbstxDecodeMessage pb_decode_MemoryDumpRequest instream = Some req ->
  mdr_engine_id req = u32 (gp_engine_id (cworld s)) ->
  region_of (mdr_type req) = Some region ->
  recv_memory_dump_request fuel dev stack msg instream s =
    memdump_loop fuel region dev stack msg (mdr_stream_id req)
                 (u32 (mdr_address req)) (i32 (mdr_size req)) s.
Proof.
  intros Hdec Hid Hreg. unfold recv_memory_dump_request. rewrite Hdec.
  cunfold. cfields. rewrite Hid, Z.eqb_refl. cfields.
  unfold region_of in Hreg.
  destruct (mdr_type req =? miniecu_MemoryDumpRequest_Type_RAM).
  - inversion Hreg. reflexivity.
  - destruct (mdr_type req =? miniecu_MemoryDumpRequest_Type_FLASH).
    + inversion Hreg. reflexivity.
    + discriminate Hreg.
Qed.

(** X21.  A memory dump is a chain of reads and pages.  For a request
    addressed to this engine for RAM or flash, every read asks for
    min(64, bytes left) bytes, a positive number, at the current
    address; a read that returns a positive count is followed by exactly
    one page carrying the request's stream id, that address, that count
    and the bytes read, and the next read starts that many bytes further
    (modulo 2^32); a read that returns zero or less is the last call to
    the reader, yields no page, and is reported by one broadcast of the
    text "MemDump: read error".  Nothing else is broadcast. *)
Theorem memory_dump_is_a_chain_of_pages
    (fuel : nat) (dev : Z) (stack msg : pbstx_message_t) (instream : list Z)
    (s : cstate) (req : miniecu_MemoryDumpRequest) (region : mem_region) :
  pbstxDecodeMessage pb_decode_MemoryDumpRequest instream = Some req ->
  mdr_engine_id req = u32 (gp_engine_id (cworld s)) ->
  region_of (mdr_type req) = Some region ->
  exists evs failed,
    ctrace (snd (recv_memory_dump_request fuel dev stack msg instream s)) =
      ctrace s ++ evs /\
    paged region (mdr_stream_id req) (u32 (mdr_address req))
          (i32 (mdr_size req)) (mem_reads evs) (dump_pages evs) failed /\
    length (broadcasts evs) = (if failed then 1 else 0)%nat /\
    Forall (fun m => exists id,
              m = Msg_StatusText
                    (mkStatusText id DP_ERROR
                       (chvprintf fmt_memdump_read_error [] ++ [0])))
           (broadcasts evs).
Proof.
  intros Hdec Hid Hreg.
  rewrite (recv_memory_dump_request_accepted fuel dev stack msg instream s
             req region Hdec Hid Hreg).
  destruct (memdump_loop_paged fuel region dev stack (mdr_stream_id req) msg
              (u32 (mdr_address req)) (i32 (mdr_size req)) s)
    as (evs & failed & Htr & Hpg & Hlen & Hall & _).
  exists evs, failed. repeat split; assumption.
Qed.

Lemma memdump_loop_returns (fuel : nat) (region : mem_region) (dev : Z)
    (stack : pbstx_message_t) (stream_id : Z) :
  forall (msg : pbstx_message_t) (address bytes_rem : Z) (s : cstate),
    is_int32 bytes_rem ->
    (Z.to_nat bytes_rem <= fuel)%nat ->
    fst (memdump_loop fuel region dev stack msg stream_id address bytes_rem s)
      <> None.
Proof.
  induction fuel as [|fuel IH]; intros msg address bytes_rem s Hrange Hfuel.
  - cbn [memdump_loop]. destruct (0 <? bytes_rem) eqn:Hb; [|discriminate].
    apply Z.ltb_lt in Hb. lia.
  - cbn [memdump_loop]. destruct (0 <? bytes_rem) eqn:Hb; [|discriminate].
    apply Z.ltb_lt in Hb.
    unfold do_memdump, pbstxEncodeSendComm, cbind, cret, cgets. cfields.
    match goal with |- context [match region with
                                | MEM_INT_RAM => ?a | MEM_EXT_FLASH => ?b end] =>
      destruct (match region with MEM_INT_RAM => a | MEM_EXT_FLASH => b end)
        as [[r bytes] w] end.
    cfields. pose proof (i32_range r) as Hr32.
    destruct (i32 r <=? 0) eqn:Hr.
    + match goal with |- context [debug_printf stack ?sv ?f ?a ?s0] =>
        destruct (debug_printf stack sv f a s0) as [[] s1] end.
      discriminate.
    + apply Z.leb_gt in Hr.
      match goal with |- context [pbstxEncodeSend dev msg ?t ?m ?s0] =>
        destruct (pbstxEncodeSend dev msg t m s0) as [[ret1 msg1] s1] end.
      cfields. unfold is_int32 in *.
      apply IH; [apply i32_range|].
      rewrite i32_small by (unfold is_int32; lia). lia.
Qed.

(** X22.  The paging loop ends: the bytes left shrink by at least one
    with every page, so [recv_memory_dump_request] returns once it has
    fuel for as many pages as the request has bytes, whatever the reader
    returns. *)
Theorem memory_dump_returns
    (fuel : nat) (dev : Z) (stack msg : pbstx_message_t) (instream : list Z)
    (s : cstate) :
  (forall req,
     pbstxDecodeMessage pb_decode_MemoryDumpRequest instream = Some req ->
     (Z.to_nat (i32 (mdr_size req)) <= fuel)%nat) ->
  fst (recv_memory_dump_request fuel dev stack msg instream s) <> None.
Proof.
  intros Hfuel. unfold recv_memory_dump_request.
  destruct (pbstxDecodeMessage pb_decode_MemoryDumpRequest instream) as [req|];
    [|discriminate].
  specialize (Hfuel req eq_refl). cunfold. cfields.
  destruct (negb (mdr_engine_id req =? u32 (gp_engine_id (cworld s))));
    [discriminate|].
  destruct (mdr_type req =? miniecu_MemoryDumpRequest_Type_RAM);
    [apply memdump_loop_returns; [apply i32_range | exact Hfuel]|].
  destruct (mdr_type req =? miniecu_MemoryDumpRequest_Type_FLASH);
    [apply memdump_loop_returns; [apply i32_range | exact Hfuel]|].
  match goal with |- context [debug_printf stack ?sv ?f ?a ?s0] =>
    destruct (debug_printf stack sv f a s0) as [[] s1] end.
  discriminate.
Qed.

(** X23.  A dump request that is not for this engine does nothing at
    all, and neither does one for this engine that names RAM or flash
    and asks for no bytes, or for 2^31 bytes or more (a size that is not
    positive as an [int32_t]): no read, no page, no error report.  (The
    type is looked at before the size: a request for this engine with
    any other type is reported whatever its size, see X24.) *)
Theorem memory_dump_ignores_foreign_and_empty_requests
    (fuel : nat) (dev : Z) (stack msg : pbstx_message_t) (instream : list Z)
    (s : cstate) (req : miniecu_MemoryDumpRequest) :
  pbstxDecodeMessage pb_decode_MemoryDumpRequest instream = Some req ->
  mdr_engine_id req <> u32 (gp_engine_id (cworld s)) \/
  (region_of (mdr_type req) <> None /\
   (mdr_size req = 0 \/ 2 ^ 31 <= mdr_size req < 2 ^ 32)) ->
  recv_memory_dump_request fuel dev stack msg instream s = (Some msg, s).
Proof.
  intros Hdec H. unfold recv_memory_dump_request. rewrite Hdec.
  cunfold. cfields.
  destruct (mdr_engine_id req =? u32 (gp_engine_id (cworld s))) eqn:Hid; cfields.
  2:{ reflexivity. }
  apply Z.eqb_eq in Hid. destruct H as [H|[Hreg Hsz]]; [contradiction|].
  assert (Hnp : (0 <? i32 (mdr_size req)) = false).
  { apply Z.ltb_ge. unfold i32. destruct Hsz as [-> | Hsz]; [cbn; lia|].
    replace (mdr_size req + 2 ^ 31) with ((mdr_size req - 2 ^ 31) + 1 * 2 ^ 32)
      by lia.
    rewrite Z.mod_add by lia. rewrite Z.mod_small by lia. lia. }
  unfold region_of in Hreg.
  destruct (mdr_type req =? miniecu_MemoryDumpRequest_Type_RAM).
  - destruct fuel; cbn [memdump_loop]; rewrite Hnp; reflexivity.
  - destruct (mdr_type req =? miniecu_MemoryDumpRequest_Type_FLASH).
    + destruct fuel; cbn [memdump_loop]; rewrite Hnp; reflexivity.
    + congruence.
Qed.

(** X24.  A dump request for this engine with a type that is neither
    RAM nor flash reads nothing and sends no page: the only thing it
    does is broadcast the text "MemDump: unknown type" at [DP_ERROR]. *)
Theorem memory_dump_unknown_type_is_reported
    (fuel : nat) (dev : Z) (stack msg : pbstx_message_t) (instream : list Z)
    (s : cstate) (req : miniecu_MemoryDumpRequest) :
  pbstxDecodeMessage pb_decode_MemoryDumpRequest instream = Some req ->
  mdr_engine_id req = u32 (gp_engine_id (cworld s)) ->
  region_of (mdr_type req) = None ->
  fst (recv_memory_dump_request fuel dev stack msg instream s) = Some msg /\
  exists evs,
    ctrace (snd (recv_memory_dump_request fuel dev stack msg instream s)) =
      ctrace s ++
      CvBroadcast miniecu_StatusText_fields
        (Msg_StatusText
           (mkStatusText (u32 (gp_engine_id (cworld s))) DP_ERROR
                         (chvprintf fmt_memdump_unknown_type [] ++ [0]))) :: evs /\
    broadcasts evs = [] /\ mem_reads evs = [] /\ dump_pages evs = [].
Proof.
  intros Hdec Hid Hreg. unfold recv_memory_dump_request. rewrite Hdec.
  cunfold. cfields. rewrite Hid, Z.eqb_refl. cfields.
  unfold region_of in Hreg.
  destruct (mdr_type req =? miniecu_MemoryDumpRequest_Type_RAM);
    [discriminate Hreg|].
  destruct (mdr_type req =? miniecu_MemoryDumpRequest_Type_FLASH);
    [discriminate Hreg|].
  match goal with |- context [debug_printf stack ?sv ?f ?a ?s0] =>
    destruct (debug_printf_trace stack sv f a s0)
      as (e1 & Htr1 & Hb1 & Hm1 & Hp1 & _);
    destruct (debug_printf stack sv f a s0) as [[] s1]
  end.
  cfields. split; [reflexivity|].
  exists e1. repeat split; assumption.
Qed.

Lemma page_count_pos (b : Z) :
  0 < b -> page_count b = S (page_count (b - Z.min MEMDUMP_SIZE b)).
Proof.
  intros Hb. unfold page_count, MEMDUMP_SIZE.
  destruct (Z.le_gt_cases b 64) as [Hle|Hgt].
  - rewrite Z.min_r by lia. replace (b - b + (64 - 1)) with 63 by lia.
    replace ((b + (64 - 1)) / 64) with 1
      by (apply Z.div_unique with (r := b - 1); lia).
    reflexivity.
  - rewrite Z.min_l by lia.
    replace (b + (64 - 1)) with ((b - 64 + (64 - 1)) + 1 * 64) by lia.
    rewrite Z.div_add by lia.
    rewrite Z2Nat.inj_add; [|apply Z.div_pos; lia | lia].
    rewrite Nat.add_comm. reflexivity.
Qed.

Lemma page_count_nonpos (b : Z) : b <= 0 -> page_count b = O.
Proof.
  intros Hb. unfold page_count, MEMDUMP_SIZE.
  assert ((b + (64 - 1)) / 64 < 1).
  { apply Z.div_lt_upper_bound; lia. }
  lia.
Qed.

Lemma chunks_length (k : nat) :
  forall a b, (page_count b <= k)%nat -> length (chunks k a b) = page_count b.
Proof.
  induction k as [|k IH]; intros a b Hk; [cbn; lia|].
  cbn [chunks]. destruct (0 <? b) eqn:Hb.
  - apply Z.ltb_lt in Hb. rewrite (page_count_pos b Hb) in *.
    cbn [length]. rewrite IH; [reflexivity | lia].
  - apply Z.ltb_ge in Hb. rewrite page_count_nonpos by exact Hb. reflexivity.
Qed.

Lemma chunks_total (k : nat) :
  forall a b, 0 <= b -> (page_count b <= k)%nat ->
    fold_right Z.add 0 (map snd (chunks k a b)) = b.
Proof.
  induction k as [|k IH]; intros a b Hb0 Hk.
  - cbn. destruct (Z.eq_dec b 0) as [->|Hne]; [reflexivity|].
    rewrite (page_count_pos b) in Hk by lia. lia.
  - cbn [chunks]. destruct (0 <? b) eqn:Hb.
    + apply Z.ltb_lt in Hb. rewrite (page_count_pos b Hb) in Hk.
      cbn [map snd fold_right]. rewrite IH; [lia | unfold MEMDUMP_SIZE; lia | lia].
    + apply Z.ltb_ge in Hb. cbn. lia.
Qed.

(** The paging loop over a reader that always delivers. *)
Lemma memdump_loop_complete (fuel : nat) (region : mem_region) (dev : Z)
    (stack : pbstx_message_t) (stream_id : Z) :
  complete_reads ->
  forall (msg : pbstx_message_t) (address bytes_rem : Z) (s : cstate),
    is_int32 bytes_rem ->
    (page_count bytes_rem <= fuel)%nat ->
    exists evs,
      ctrace (snd (memdump_loop fuel region dev stack msg stream_id
                                address bytes_rem s)) = ctrace s ++ evs /\
      fst (memdump_loop fuel region dev stack msg stream_id
                        address bytes_rem s) <> None /\
      map (fun p => (mdp_address p, mdp_page_size p)) (dump_pages evs) =
        chunks fuel address bytes_rem /\
      map (fun r => (rd_address r, rd_size r)) (mem_reads evs) =
        chunks fuel address bytes_rem /\
      Forall (fun p => mdp_stream_id p = stream_id) (dump_pages evs) /\
      broadcasts evs = [].
Proof.
  intros Hfull.
  induction fuel as [|fuel IH]; intros msg address bytes_rem s Hrange Hfuel.
  - cbn [memdump_loop chunks]. destruct (0 <? bytes_rem) eqn:Hb.
    + apply Z.ltb_lt in Hb. rewrite (page_count_pos _ Hb) in Hfuel. lia.
    + exists []. cbn. rewrite app_nil_r. repeat split; [discriminate | constructor].
  - cbn [memdump_loop chunks]. destruct (0 <? bytes_rem) eqn:Hb.
    2:{ exists []. cbn. rewrite app_nil_r.
        repeat split; [discriminate | constructor]. }
    apply Z.ltb_lt in Hb. rewrite min_chunk.
    unfold do_memdump, pbstxEncodeSendComm, cbind, cret, cgets. cfields.
    assert (Hn : 0 < Z.min MEMDUMP_SIZE bytes_rem <= MEMDUMP_SIZE)
      by (unfold MEMDUMP_SIZE; lia).
    pose proof (Hfull region address (Z.min MEMDUMP_SIZE bytes_rem) (cworld s) Hn)
      as Hret.
    match goal with |- context [match region with
                                | MEM_INT_RAM => ?a | MEM_EXT_FLASH => ?b end] =>
      destruct (match region with MEM_INT_RAM => a | MEM_EXT_FLASH => b end)
        as [[r bytes] w] end.
    cbn [fst] in Hret. cfields. rewrite Hret.
    assert (Hpos : (Z.min MEMDUMP_SIZE bytes_rem <=? 0) = false)
      by (apply Z.leb_gt; lia).
    rewrite Hpos.
    match goal with |- context [pbstxEncodeSend dev msg ?t ?m ?s0] =>
      destruct (pbstxEncodeSend_trace dev msg t m s0) as (e & Htr1 & He & _);
      destruct (pbstxEncodeSend dev msg t m s0) as [[ret1 msg1] s1]
    end.
    cfields. cbn [ctrace snd] in Htr1.
    rewrite (i32_small (bytes_rem - Z.min MEMDUMP_SIZE bytes_rem))
      by (unfold is_int32, MEMDUMP_SIZE in *; lia).
    rewrite (page_count_pos _ Hb) in Hfuel.
    destruct (IH msg1 (u32 (address + Z.min MEMDUMP_SIZE bytes_rem))
                 (bytes_rem - Z.min MEMDUMP_SIZE bytes_rem) s1)
      as (evs & Htr & Hres & Hpages & Hreads & Hsid & Hbc);
      [unfold is_int32, MEMDUMP_SIZE in *; lia | lia |].
    eexists (_ :: _ :: e :: evs).
    split; [rewrite Htr, Htr1, <- !app_assoc; reflexivity|].
    split; [exact Hres|].
    destruct e; try discriminate He;
      cbn [mem_reads dump_pages broadcasts map mdp_address mdp_page_size
           rd_address rd_size];
      rewrite Hpages, Hreads;
      (split; [reflexivity|]); (split; [reflexivity|]);
      (split; [constructor; [reflexivity | exact Hsid] | exact Hbc]).
Qed.

(** X25.  Over a reader that always delivers what it is asked for, a
    dump of [n] bytes (0 <= n < 2^31) from address [a] is cut into
    ceil(n/64) pages: the reads and the pages sent are at [a], [a]+64,
    [a]+128, ... (modulo 2^32), each of 64 bytes but the last, the page
    sizes add up to [n], every page carries the request's stream id, and
    no error is reported. *)
Theorem memory_dump_pages_cover_the_range
    (fuel : nat) (dev : Z) (stack msg : pbstx_message_t) (instream : list Z)
    (s : cstate) (req : miniecu_MemoryDumpRequest) (region : mem_region) :
  complete_reads ->
  pbstxDecodeMessage pb_decode_MemoryDumpRequest instream = Some req ->
  mdr_engine_id req = u32 (gp_engine_id (cworld s)) ->
  region_of (mdr_type req) = Some region ->
  0 <= mdr_size req < 2 ^ 31 ->
  (page_count (mdr_size req) <= fuel)%nat ->
  exists evs,
    ctrace (snd (recv_memory_dump_request fuel dev stack msg instream s)) =
      ctrace s ++ evs /\
    fst (recv_memory_dump_request fuel dev stack msg instream s) <> None /\
    map (fun p => (mdp_address p, mdp_page_size p)) (dump_pages evs) =
      chunks fuel (u32 (mdr_address req)) (mdr_size req) /\
    map (fun r => (rd_address r, rd_size r)) (mem_reads evs) =
      chunks fuel (u32 (mdr_address req)) (mdr_size req) /\
    length (dump_pages evs) = page_count (mdr_size req) /\
    fold_right Z.add 0 (map mdp_page_size (dump_pages evs)) = mdr_size req /\
    Forall (fun p => mdp_stream_id p = mdr_stream_id req) (dump_pages evs) /\
    broadcasts evs = [].
Proof.
  intros Hfull Hdec Hid Hreg Hsz Hfuel.
  rewrite (recv_memory_dump_request_accepted fuel dev stack msg instream s
             req region Hdec Hid Hreg).
  assert (H32 : i32 (mdr_size req) = mdr_size req)
    by (apply i32_small; unfold is_int32; lia).
  rewrite H32.
  destruct (memdump_loop_complete fuel region dev stack (mdr_stream_id req)
              Hfull msg (u32 (mdr_address req)) (mdr_size req) s)
    as (evs & Htr & Hres & Hpages & Hreads & Hsid & Hbc);
    [unfold is_int32; lia | exact Hfuel |].
  exists evs. repeat (split; [assumption|]).
  split.
  - rewrite <- (length_map (fun p => (mdp_address p, mdp_page_size p))), Hpages.
    apply chunks_length. exact Hfuel.
  - split; [|split; assumption].
    rewrite <- (chunks_total fuel (u32 (mdr_address req)) (mdr_size req))
      by (lia || exact Hfuel).
    rewrite <- Hpages, map_map. reflexivity.
Qed.

End Comm_Properties.

(** * Properties of the status report and of the session thread *)

Create HintDb tidy.

Section Thread_Properties.

Context {CP : CommPlatform}.

(** ** Registry and trace are only added to *)

Lemma tidy_cret {A} (a : A) : tidy (cret a).
Proof. intros s. split; [reflexivity|]. exists []. cbn. now rewrite app_nil_r. Qed.

Lemma tidy_cgets {A} (f : W -> A) : tidy (cgets f).
Proof. intros s. split; [reflexivity|]. exists []. cbn. now rewrite app_nil_r. Qed.

Lemma tidy_cbind {A B} (c : CM A) (k : A -> CM B) :
  tidy c -> (forall a, tidy (k a)) -> tidy (cbind c k).
Proof.
  intros Hc Hk s. unfold cbind.
  destruct (Hc s) as (Hreg & evs & Htr).
  destruct (c s) as [a s1]. cbn [snd] in *.
  destruct (Hk a s1) as (Hreg' & evs' & Htr').
  split; [congruence|].
  exists (evs ++ evs'). rewrite Htr', Htr, app_assoc. reflexivity.
Qed.

Lemma tidy_clog (e : cevent) : tidy (clog e).
Proof. intros s. split; [reflexivity|]. eexists. reflexivity. Qed.

Lemma tidy_ccall (f : W -> Z * W) (ev : Z -> cevent) : tidy (ccall f ev).
Proof.
  intros s. unfold ccall. destruct (f (cworld s)) as [r w].
  split; [reflexivity|]. eexists. reflexivity.
Qed.

Lemma tidy_do_alert (c : alert_subsystem) (l : alert_level) : tidy (do_alert c l).
Proof. intros s. split; [reflexivity|]. eexists. reflexivity. Qed.

Lemma tidy_do_memdump (region : mem_region) (address size : Z) :
  tidy (do_memdump region address size).
Proof.
  intros s. unfold do_memdump.
  destruct region;
    [destruct (memdump_int_ram address size (cworld s)) as [[r b] w]
    |destruct (memdump_ext_flash address size (cworld s)) as [[r b] w]];
    (split; [reflexivity|]); eexists; reflexivity.
Qed.

Lemma tidy_do_pbstxReceive (dev : Z) (msg : pbstx_message_t) :
  tidy (do_pbstxReceive dev msg).
Proof.
  intros s. unfold do_pbstxReceive.
  destruct (pbstxReceive dev msg (cworld s)) as [[r m] w].
  split; [reflexivity|]. eexists. reflexivity.
Qed.

Lemma tidy_do_chThdShouldTerminateX : tidy do_chThdShouldTerminateX.
Proof.
  intros s. unfold do_chThdShouldTerminateX.
  destruct (chThdShouldTerminateX (cworld s)) as [b w].
  split; [reflexivity|]. exists []. cbn. now rewrite app_nil_r.
Qed.

Lemma tidy_pbstxEncodeSend (dev : Z) (msg : pbstx_message_t) (t : msgtype)
    (m : submsg) : tidy (pbstxEncodeSend dev msg t m).
Proof.
  intros s. destruct (pbstxEncodeSend_trace dev msg t m s) as (e & Htr & _ & Hreg).
  split; [exact Hreg|]. eexists. exact Htr.
Qed.

Lemma tidy_pbstxEncodeSendBroadcast (msg : pbstx_message_t) (t : msgtype)
    (m : submsg) : tidy (pbstxEncodeSendBroadcast msg t m).
Proof.
  intros s. destruct (broadcast_trace msg t m s) as (evs & Htr & _ & Hreg).
  split; [exact Hreg|]. eexists. exact Htr.
Qed.

#[local] Hint Resolve tidy_cret tidy_cgets tidy_clog tidy_ccall tidy_do_alert
  tidy_do_memdump tidy_do_pbstxReceive tidy_do_chThdShouldTerminateX
  tidy_pbstxEncodeSend tidy_pbstxEncodeSendBroadcast : tidy.

Ltac tidy_step :=
  first
    [ solve [auto with tidy]
    | apply tidy_cbind; [|intros ?]
    | match goal with
      | |- tidy (match ?x with _ => _ end) => destruct x
      end ].

Ltac tidy_all := repeat tidy_step.

Lemma tidy_debug_printf (stack : pbstx_message_t) (sev : severity)
    (fmt args : list Z) : tidy (debug_printf stack sev fmt args).
Proof. unfold debug_printf. tidy_all. Qed.

Lemma tidy_send_param_value (msg : pbstx_message_t) (pv : miniecu_ParamValue) :
  tidy (send_param_value msg pv).
Proof. unfold send_param_value. tidy_all. Qed.

#[local] Hint Resolve tidy_debug_printf tidy_send_param_value : tidy.

Lemma tidy_recv_time_reference (dev : Z) (msg : pbstx_message_t)
    (instream : list Z) : tidy (recv_time_reference dev msg instream).
Proof. unfold recv_time_reference, pbstxEncodeSendComm. tidy_all. Qed.

Lemma tidy_recv_command (dev : Z) (msg : pbstx_message_t)
    (instream : list Z) : tidy (recv_command dev msg instream).
Proof. unfold recv_command, pbstxEncodeSendComm. tidy_all. Qed.

Lemma tidy_param_dump_loop (todo : nat) :
  forall idx count msg, tidy (param_dump_loop todo idx count msg).
Proof.
  induction todo as [|todo IH]; intros idx count msg; cbn [param_dump_loop];
    tidy_all; apply IH.
Qed.

#[local] Hint Resolve tidy_param_dump_loop : tidy.

Lemma tidy_recv_param_request (dev : Z) (msg : pbstx_message_t)
    (instream : list Z) : tidy (recv_param_request dev msg instream).
Proof. unfold recv_param_request. tidy_all. Qed.

Lemma tidy_recv_param_set (dev : Z) (msg : pbstx_message_t)
    (instream : list Z) : tidy (recv_param_set dev msg instream).
Proof. unfold recv_param_set. tidy_all. Qed.

Lemma tidy_recv_log_request (dev : Z) (msg : pbstx_message_t)
    (instream : list Z) : tidy (recv_log_request dev msg instream).
Proof. unfold recv_log_request. tidy_all. Qed.

Lemma tidy_memdump_loop (fuel : nat) (region : mem_region) (dev : Z)
    (stack : pbstx_message_t) (stream_id : Z) :
  forall msg address bytes_rem,
    tidy (memdump_loop fuel region dev stack msg stream_id address bytes_rem).
Proof.
  induction fuel as [|fuel IH]; intros msg address bytes_rem;
    cbn [memdump_loop]; unfold pbstxEncodeSendComm; tidy_all; apply IH.
Qed.

#[local] Hint Resolve tidy_memdump_loop : tidy.

Lemma tidy_recv_memory_dump_request (fuel : nat) (dev : Z)
    (stack msg : pbstx_message_t) (instream : list Z) :
  tidy (recv_memory_dump_request fuel dev stack msg instream).
Proof. unfold recv_memory_dump_request. tidy_all. Qed.

Lemma tidy_send_status (dev : Z) (msg : pbstx_message_t) :
  tidy (send_status dev msg).
Proof.
  intros s. unfold send_status, pbstxEncodeSendComm.
  match goal with |- context [cbind ?c ?k s] =>
    assert (H : tidy (cbind c k)) by tidy_all;
    exact (H s)
  end.
Qed.

#[local] Hint Resolve tidy_recv_time_reference tidy_recv_command
  tidy_recv_param_request tidy_recv_param_set tidy_recv_log_request
  tidy_recv_memory_dump_request tidy_send_status : tidy.

Lemma tidy_dispatch (fuel : nat) (dev : Z) (stack msg : pbstx_message_t)
    (field : msgtype) (instream : list Z) :
  tidy (dispatch fuel dev stack msg field instream).
Proof. unfold dispatch. tidy_all. Qed.

#[local] Hint Resolve tidy_dispatch : tidy.

Lemma tidy_comm_loop (fuel : nat) :
  forall dev stack msg send_time, tidy (comm_loop fuel dev stack msg send_time).
Proof.
  induction fuel as [|fuel IH]; intros dev stack msg send_time;
    cbn [comm_loop]; tidy_all; apply IH.
Qed.


(** ** The registry *)

Lemma live_length_le (l : list (option Z)) : (length (live l) <= length l)%nat.
Proof. induction l as [|[d|] l IH]; cbn; lia. Qed.

Lemma first_free_full (l : list (option Z)) :
  forall k, length (live l) = length l -> first_free l k = (k + length l)%nat.
Proof.
  induction l as [|[d|] l IH]; intros k H; cbn in *.
  - lia.
  - rewrite IH by lia. lia.
  - pose proof (live_length_le l). lia.
Qed.

Lemma first_free_found (l : list (option Z)) :
  forall k, In None l ->
    exists i, first_free l k = (k + i)%nat /\ (i < length l)%nat /\
              nth i l None = None.
Proof.
  induction l as [|[d|] l IH]; intros k H; cbn in *.
  - contradiction.
  - destruct H as [H|H]; [discriminate H|].
    destruct (IH (S k) H) as (i & Hi & Hlt & Hn).
    exists (S i). repeat split; [lia|lia|exact Hn].
  - exists O. repeat split; [lia|lia].
Qed.

Lemma nth_firstn_lt {A} (d : A) :
  forall (n i : nat) (l : list A), (i < n)%nat -> nth i (firstn n l) d = nth i l d.
Proof.
  induction n as [|n IH]; intros i l H; [lia|].
  destruct l as [|x l]; [reflexivity|].
  destruct i as [|i]; [reflexivity|].
  cbn. apply IH. lia.
Qed.

Lemma set_slot_restore (v : option Z) :
  forall (l : list (option Z)) (i : nat),
    nth i l None = None ->
    match nth i (set_slot i v l) None with
    | Some _ => set_slot i None (set_slot i v l)
    | None => set_slot i v l
    end = l.
Proof.
  induction l as [|x l IH]; intros i H.
  - destruct i; reflexivity.
  - destruct i as [|i]; cbn in *.
    + subst x. destruct v; reflexivity.
    + specialize (IH i H).
      destruct (nth i (set_slot i v l) None); cbn; congruence.
Qed.

(** X26.  With every slot of the registry taken, a new session gives
    up at once: [th_comm_pbstx] returns [MSG_RESET] after initialising
    its device, without entering itself in the registry, without the
    [AL_NORMAL] alert, and without reading, sending or broadcasting
    anything. *)
Theorem full_registry_turns_session_away
    (fuel : nat) (arg : Z) (stack msg : pbstx_message_t) (s : cstate) :
  length (live (firstn MAX_INSTANCES (m_instances s))) = MAX_INSTANCES ->
  th_comm_pbstx fuel arg stack msg s =
    (Some MSG_RESET,
     mkCstate (pbstxObjectInit arg (chRegSetThreadName (cworld s)))
              (ctrace s) (m_instances s)).
Proof.
  intros Hfull.
  assert (Hff : first_free (firstn MAX_INSTANCES (m_instances s)) 0 = MAX_INSTANCES).
  { pose proof (live_length_le (firstn MAX_INSTANCES (m_instances s))) as H1.
    pose proof (firstn_le_length MAX_INSTANCES (m_instances s)) as H2.
    rewrite first_free_full by lia. lia. }
  unfold th_comm_pbstx. unfold cbind. cfields. rewrite Hff.
  rewrite Nat.leb_refl. reflexivity.
Qed.

(** X27.  A session that finds a free slot holds it for as long as it
    runs and gives it back before it says goodbye.  When the thread
    returns, it returns [MSG_OK]; its first call was the [AL_NORMAL]
    alert; at the end of its loop the registry was the initial one with
    this session in the first free slot; and the final "terminated" text
    is broadcast over the initial registry, that is, to the other
    sessions only.  The registry is left as it was found. *)
Theorem session_claims_and_releases_its_slot
    (fuel : nat) (arg : Z) (stack msg : pbstx_message_t) (s s' : cstate)
    (r : Z) :
  In None (firstn MAX_INSTANCES (m_instances s)) ->
  th_comm_pbstx fuel arg stack msg s = (Some r, s') ->
  let i := first_free (firstn MAX_INSTANCES (m_instances s)) 0 in
  r = MSG_OK /\
  (i < MAX_INSTANCES)%nat /\
  nth i (m_instances s) None = None /\
  m_instances s' = m_instances s /\
  exists s_loop evs,
    ctrace s_loop = ctrace s ++ CvAlert ALS_COMM AL_NORMAL :: evs /\
    m_instances s_loop = set_slot i (Some arg) (m_instances s) /\
    s' = snd (debug_printf stack DP_DEBUG fmt_terminated [Z.of_nat i]
                (mkCstate (cworld s_loop) (ctrace s_loop) (m_instances s))).
Proof.
  intros Hfree Hrun i.
  destruct (first_free_found _ 0%nat Hfree) as (j & Hj & Hlt & Hnth).
  cbn [Nat.add] in Hj. fold i in Hj.
  pose proof (firstn_le_length MAX_INSTANCES (m_instances s)) as Hlen.
  assert (Hi : (i < MAX_INSTANCES)%nat) by lia.
  assert (Hslot : nth i (m_instances s) None = None).
  { rewrite <- Hj in Hnth. rewrite nth_firstn_lt in Hnth by exact Hi. exact Hnth. }
  revert Hrun. unfold th_comm_pbstx. unfold cbind at 1 2. cfields. fold i.
  destruct (Nat.leb_spec MAX_INSTANCES i) as [Hge|_]; [lia|].
  unfold cbind at 1 2. unfold set_instance at 1, do_alert at 1. cfields.
  unfold cbind at 1.
  match goal with |- context [comm_loop fuel arg stack msg 0 ?s2] =>
    destruct (tidy_comm_loop fuel arg stack msg 0 s2) as (Hreg & evs & Htr);
    destruct (comm_loop fuel arg stack msg 0 s2) as [[[]|] s3]
  end; cfields; [|intros H; discriminate H].
  cbn [snd m_instances ctrace] in Hreg, Htr.
  unfold cbind at 1. cfields. rewrite Hreg.
  pose proof (set_slot_restore (Some arg) (m_instances s) i Hslot) as Hres.
  assert (Hs4 :
    snd ((match nth i (set_slot i (Some arg) (m_instances s)) None with
          | Some _ => set_instance i None
          | None => cret tt
          end) s3) = mkCstate (cworld s3) (ctrace s3) (m_instances s)).
  { destruct (nth i (set_slot i (Some arg) (m_instances s)) None);
      unfold set_instance, cret; cbn [snd].
    - rewrite Hreg, Hres. reflexivity.
    - destruct s3 as [w3 t3 r3]. cbn [m_instances cworld ctrace] in *.
      f_equal. congruence. }
  unfold cbind.
  match goal with |- context [(match ?x with Some _ => _ | None => _ end) s3] =>
    destruct ((match x with Some _ => set_instance i None | None => cret tt end) s3)
      as [u s4] end.
  cbn [snd] in Hs4. subst s4.
  pose proof (tidy_debug_printf stack DP_DEBUG fmt_terminated [Z.of_nat i]
                (mkCstate (cworld s3) (ctrace s3) (m_instances s))) as (Hreg5 & _).
  destruct (debug_printf stack DP_DEBUG fmt_terminated [Z.of_nat i] _)
    as [u5 s5] eqn:Hdp.
  cbn [snd m_instances] in Hreg5.
  unfold cret. intros H. inversion H; subst r s'.
  repeat split; [exact Hi|exact Hslot|exact Hreg5|].
  exists s3, evs. split; [rewrite Htr, <- app_assoc; reflexivity|].
  split; [exact Hreg|]. rewrite Hdp. reflexivity.
Qed.

(** X28.  An idle session only polls.  On a line where the receive
    call never reports a frame, and while the status period has not
    elapsed, the thread loop does nothing but call [pbstxReceive] on its
    own device: nothing is decoded, sent, broadcast or signalled, for
    however long it runs. *)
Theorem idle_session_only_polls
    (fuel : nat) (dev : Z) (stack : pbstx_message_t) :
  (forall d m w, fst (fst (pbstxReceive d m w)) <> MSG_OK) ->
  (forall t w, chVTTimeElapsedSinceX t w < MS2ST (gp_status_period w)) ->
  forall (msg : pbstx_message_t) (send_time : Z) (s : cstate),
  exists evs,
    ctrace (snd (comm_loop fuel dev stack msg send_time s)) = ctrace s ++ evs /\
    Forall (failed_poll dev) evs.
Proof.
  intros Hrx Htimer.
  induction fuel as [|fuel IH]; intros msg send_time s.
  - exists []. cbn. rewrite app_nil_r. split; constructor.
  - cbn [comm_loop]. unfold cbind at 1. unfold do_chThdShouldTerminateX.
    destruct (chThdShouldTerminateX (cworld s)) as [[|] w].
    + exists []. cbn. rewrite app_nil_r. split; constructor.
    + unfold cbind at 1 2, cgets. cfields.
      destruct (Z.leb_spec (MS2ST (gp_status_period w))
                           (chVTTimeElapsedSinceX send_time w)) as [Hle|_];
        [specialize (Htimer send_time w); lia|].
      unfold cbind at 1, cret at 1. unfold cbind at 1, do_pbstxReceive. cfields.
      pose proof (Hrx dev msg w) as Hne.
      destruct (pbstxReceive dev msg w) as [[ret msg1] w1]. cbn [fst] in Hne.
      destruct (Z.eqb_spec ret MSG_OK) as [He|_]; [contradiction|].
      cbn [negb].
      match goal with |- context [comm_loop fuel dev stack msg1 send_time ?s1] =>
        destruct (IH msg1 send_time s1) as (evs & Htr & Hall) end.
      exists (CvReceive dev ret :: evs).
      split; [rewrite Htr; cbn; rewrite <- app_assoc; reflexivity|].
      constructor; [|exact Hall]. exists ret. split; [reflexivity|exact Hne].
Qed.

(** ** The type of a frame *)

Lemma find_submessage_listed (tag : Z) (t : msgtype) :
  forall fields : list pb_field_t,
    find_submessage fields tag = Some t ->
    exists f, In f fields /\ f_ptr f = t /\ f_tag f = tag /\ f_tag f <> 0 /\
              Z.land (f_type f) PB_LTYPE_SUBMESSAGE <> 0.
Proof.
  induction fields as [|f fields IH]; intros H; cbn in H; [discriminate H|].
  destruct (Z.eqb_spec (f_tag f) 0) as [|Hnz]; [discriminate H|].
  destruct (Z.eqb_spec (f_tag f) tag) as [Htag|];
    [destruct (Z.eqb_spec (Z.land (f_type f) PB_LTYPE_SUBMESSAGE) 0) as [|Hsub]|];
    cbn in H.
  - destruct (IH H) as (g & Hin & Hg). exists g. split; [right; exact Hin|exact Hg].
  - inversion H. exists f. repeat split; auto. left; reflexivity.
  - destruct (IH H) as (g & Hin & Hg). exists g. split; [right; exact Hin|exact Hg].
Qed.

(** X29.  [pbstxDecodeType] comes back, and with a listed submessage
    or nothing.  Where [pb_decode_tag] consumes at least one byte when it
    succeeds and [pb_skip_field] never lengthens the stream, the search
    ends within as many tags as the frame has bytes; the descriptor it
    returns belongs to an entry of [miniecu_Message_fields] before the
    terminator whose type has a submessage bit, and the stream handed on
    is shorter than the frame. *)
Theorem decode_type_returns_a_listed_submessage (fuel : nat) :
  (forall s wire_type tag rest,
     pb_decode_tag s = Some (wire_type, tag, rest) ->
     (length rest < length s)%nat) ->
  (forall s wire_type, (length (pb_skip_field s wire_type) <= length s)%nat) ->
  forall stream : list Z,
    (length stream < fuel)%nat ->
    exists r,
      pbstxDecodeType fuel stream = Some r /\
      match r with
      | None => True
      | Some (t, rest) =>
          (length rest < length stream)%nat /\
          exists f, In f miniecu_Message_fields /\ f_ptr f = t /\
                    f_tag f <> 0 /\
                    Z.land (f_type f) PB_LTYPE_SUBMESSAGE <> 0
      end.
Proof.
  intros Htag Hskip.
  induction fuel as [|fuel IH]; intros stream Hlen; [lia|].
  cbn [pbstxDecodeType].
  destruct (pb_decode_tag stream) as [[[wire_type tag] rest]|] eqn:Hd.
  - pose proof (Htag _ _ _ _ Hd) as Hshort.
    assert (Hgo : exists r,
              pbstxDecodeType fuel (pb_skip_field rest wire_type) = Some r /\
              match r with
              | None => True
              | Some (t, rest') =>
                  (length rest' < length stream)%nat /\
                  exists f, In f miniecu_Message_fields /\ f_ptr f = t /\
                            f_tag f <> 0 /\
                            Z.land (f_type f) PB_LTYPE_SUBMESSAGE <> 0
              end).
    { pose proof (Hskip rest wire_type) as Hs.
      destruct (IH (pb_skip_field rest wire_type)) as (r & Hr & Hspec); [lia|].
      exists r. split; [exact Hr|].
      destruct r as [[t rest']|]; [|exact I].
      destruct Hspec as (Hl & Hf). split; [lia|exact Hf]. }
    destruct (wire_type =? PB_WT_STRING); [|exact Hgo].
    destruct (find_submessage miniecu_Message_fields tag) as [t|] eqn:Hfind;
      [|exact Hgo].
    exists (Some (t, rest)). split; [reflexivity|].
    split; [exact Hshort|].
    destruct (find_submessage_listed _ _ _ Hfind) as (f & Hin & Hp & _ & Hnz & Hsub).
    exists f. auto.
  - exists None. split; [reflexivity|exact I].
Qed.

(** ** The status flags *)

Lemma u32_testbit (a b : Z) :
  0 <= b -> Z.testbit (u32 a) b = (b <? 32) && Z.testbit a b.
Proof.
  intros Hb. unfold u32.
  destruct (Z.ltb_spec b 32) as [Hlt|Hge]; cbn [andb].
  - apply Z.mod_pow2_bits_low. lia.
  - apply Z.mod_pow2_bits_high. lia.
Qed.

Lemma set_flags_testbit (b : Z) :
  0 <= b < 32 ->
  forall (checks : list (bool * Z)) (flags : Z),
    Z.testbit (set_flags checks flags) b =
      Z.testbit flags b ||
      existsb (fun cf => fst cf && Z.testbit (snd cf) b) checks.
Proof.
  intros Hb. induction checks as [|[c f] checks IH]; intros flags.
  - cbn. now rewrite orb_false_r.
  - unfold set_flags in *. cbn [fold_left fst snd existsb]. rewrite IH.
    destruct c; cbn [andb orb]; [|reflexivity].
    rewrite u32_testbit by lia.
    replace (b <? 32) with true by (symmetry; apply Z.ltb_lt; lia).
    cbn [andb]. rewrite Z.lor_spec, orb_assoc. reflexivity.
Qed.

Lemma set_flags_only (b : Z) :
  0 <= b ->
  forall (checks : list (bool * Z)) (flags : Z),
    Z.testbit (set_flags checks flags) b = true ->
    Z.testbit flags b = true \/
    exists cf, In cf checks /\ fst cf = true /\ Z.testbit (snd cf) b = true.
Proof.
  intros Hb. induction checks as [|[c f] checks IH]; intros flags H.
  - left. exact H.
  - unfold set_flags in *. cbn [fold_left fst snd] in H.
    destruct (IH _ H) as [H1|(cf & Hin & Hc & Ht)].
    + destruct c; [|left; exact H1].
      rewrite u32_testbit in H1 by exact Hb.
      apply andb_prop in H1. destruct H1 as [_ H1].
      rewrite Z.lor_spec in H1. apply orb_prop in H1.
      destruct H1 as [H1|H1]; [left; exact H1|].
      right. exists (true, f). split; [left; reflexivity|]. split; [reflexivity|exact H1].
    + right. exists cf. split; [right; exact Hin|]. split; assumption.
Qed.

Lemma existsb_other_bits (b : Z) :
  forall (checks : list bool) (bits : list Z),
    Forall (fun x => 0 <= x) bits -> ~ In b bits ->
    existsb (fun cf : bool * Z => fst cf && Z.testbit (snd cf) b)
            (combine checks (map (fun x => 2 ^ x) bits)) = false.
Proof.
  induction checks as [|c checks IH]; intros bits Hpos Hnin; [reflexivity|].
  destruct bits as [|x bits]; [reflexivity|].
  inversion Hpos; subst.
  cbn [map combine existsb fst snd].
  rewrite IH; [|assumption|intros Hin; apply Hnin; right; exact Hin].
  rewrite Z.pow2_bits_eqb by assumption.
  destruct (Z.eqb_spec x b) as [He|_].
  - exfalso. apply Hnin. left. exact He.
  - now rewrite andb_false_r.
Qed.

Lemma existsb_own_bit :
  forall (bits : list Z) (checks : list bool) (i : nat),
    Forall (fun x => 0 <= x) bits -> NoDup bits ->
    (i < length bits)%nat ->
    existsb (fun cf : bool * Z => fst cf && Z.testbit (snd cf) (nth i bits 0))
            (combine checks (map (fun x => 2 ^ x) bits)) = nth i checks false.
Proof.
  induction bits as [|x bits IH]; intros checks i Hpos Hnd Hi; [cbn in Hi; lia|].
  inversion Hpos; subst. inversion Hnd; subst.
  destruct checks as [|c checks]; [destruct i; reflexivity|].
  cbn [map combine existsb fst snd].
  rewrite Z.pow2_bits_eqb by assumption.
  destruct i as [|i]; cbn [nth].
  - rewrite Z.eqb_refl, andb_true_r.
    rewrite existsb_other_bits by assumption. apply orb_false_r.
  - cbn in Hi.
    destruct (Z.eqb_spec x (nth i bits 0)) as [He|_].
    + exfalso. match goal with H : ~ In x bits |- _ => apply H end.
      rewrite He. apply nth_In. lia.
    + rewrite andb_false_r. cbn [orb]. apply IH; [assumption|assumption|lia].
Qed.

Lemma send_status_flags (dev : Z) (msg : pbstx_message_t) (s : cstate) :
  exists st e,
    ctrace (snd (send_status dev msg s)) =
      ctrace s ++ [CvEncodeSend dev miniecu_Status_fields (Msg_Status st); e] /\
    is_send_detail e = true /\
    sts_status st =
      set_flags (combine (status_checks (cworld s)) status_flags) 0.
Proof.
  unfold send_status, pbstxEncodeSendComm. unfold cbind.
  match goal with |- context [pbstxEncodeSend dev msg ?t (Msg_Status ?st) s] =>
    destruct (pbstxEncodeSend_trace dev msg t (Msg_Status st) s) as (e & Htr & He & _);
    destruct (pbstxEncodeSend dev msg t (Msg_Status st) s) as [r1 s1];
    exists st, e
  end.
  cbn [snd] in *. unfold cret. cbn [snd].
  split; [exact Htr|]. split; [exact He|]. reflexivity.
Qed.

(** X30.  The status word mirrors the checks.  Where the nine status
    flags are distinct single bits of a [uint32_t], [send_status] sends
    one [Status] message on the session's own device, and in its status
    word the bit of every flag is set exactly when that flag's check
    held when the report was made; no other bit is set. *)
Theorem status_word_mirrors_the_checks
    (dev : Z) (msg : pbstx_message_t) (s : cstate) (bits : list Z) :
  status_flags = map (fun b => 2 ^ b) bits ->
  NoDup bits ->
  Forall (fun b => 0 <= b < 32) bits ->
  exists st e,
    ctrace (snd (send_status dev msg s)) =
      ctrace s ++ [CvEncodeSend dev miniecu_Status_fields (Msg_Status st); e] /\
    is_send_detail e = true /\
    (forall i, (i < length bits)%nat ->
       Z.testbit (sts_status st) (nth i bits 0) =
         nth i (status_checks (cworld s)) false) /\
    (forall b, 0 <= b -> ~ In b bits -> Z.testbit (sts_status st) b = false).
Proof.
  intros Hflags Hnd Hrange.
  destruct (send_status_flags dev msg s) as (st & e & Htr & He & Hst).
  exists st, e. split; [exact Htr|]. split; [exact He|].
  assert (Hpos : Forall (fun x => 0 <= x) bits).
  { eapply Forall_impl; [|exact Hrange]. cbn. intros; lia. }
  rewrite Hst, Hflags. split.
  - intros i Hi.
    rewrite set_flags_testbit.
    + rewrite Z.testbit_0_l. cbn [orb].
      apply existsb_own_bit; assumption.
    + rewrite Forall_forall in Hrange. apply Hrange. apply nth_In. exact Hi.
  - intros b Hb Hnin.
    destruct (Z.testbit (set_flags _ 0) b) eqn:Ht; [|reflexivity].
    apply set_flags_only in Ht; [|exact Hb].
    destruct Ht as [Ht|(cf & Hin & Hc & Ht)].
    + rewrite Z.testbit_0_l in Ht. discriminate Ht.
    + exfalso.
      assert (Hex : existsb (fun cf : bool * Z => fst cf && Z.testbit (snd cf) b)
                      (combine (status_checks (cworld s))
                               (map (fun x => 2 ^ x) bits)) = true).
      { apply existsb_exists. exists cf. split; [exact Hin|].
        rewrite Hc, Ht. reflexivity. }
      rewrite existsb_other_bits in Hex by assumption. discriminate Hex.
Qed.

End Thread_Properties.

(** * Worked examples on the scripted platforms

    Each of the properties above that has a precondition, at a concrete
    input that meets it. *)

Lemma receive_ok_only_on_crc_match_witness :
  let s := demo_machine (map RxByte [0xa5; 1; 2; 0; 65]) [] [] in
  fst (pbstx_receive 5 s) = Some 0 /\
  rx_state (snd (pbstx_receive 5 s)) = PR_WAIT_START.
Proof.
  intros s.
  assert (Hok : fst (pbstx_receive 5 s) = Some 0) by (vm_compute; reflexivity).
  split; [exact Hok|].
  destruct (receive_ok_only_on_crc_match (P:=demo) 5 s) as [H _].
  - intros H; discriminate H.
  - reflexivity.
  - exact (proj1 (H Hok)).
Defined.

Lemma receive_never_rests_in_payload_witness :
  rx_state (snd (pbstx_receive 1 (demo_in_state PR_LEN 0 [RxByte 2; RxByte 7])))
    <> PR_PAYLOAD.
Proof.
  apply (receive_never_rests_in_payload (P:=demo)).
  intros H; discriminate H.
Defined.

Lemma send_counter_counts_calls_witness :
  let s := demo_machine [] [] [] in
  let msgs := [(1, [2; 3]); (4, [])] in
  is_byte (tx_seq s) /\
  tx_seq (snd (send_all msgs s)) = (tx_seq s + Z.of_nat (length msgs)) mod 256.
Proof.
  intros s msgs.
  assert (Hb : is_byte (tx_seq s)) by (unfold is_byte; cbn; lia).
  split; [exact Hb|].
  exact (proj1 (send_counter_counts_calls (P:=demo) msgs s Hb)).
Defined.

Lemma leading_noise_is_discarded_witness :
  let s := demo_machine (map RxByte [1; 2; 0xa5; 7; 3; 2; 10; 20; 43]) [] [] in
  exists s',
    pbstx_receive 7 s = (Some 0, s') /\
    rxq (world s') = [] /\
    msgid_cell s' = 3 /\
    payload_buf s' = store [10; 20] (payload_buf s).
Proof.
  intros s.
  destruct (leading_noise_is_discarded crc8_poly07 0 s [1; 2] 7 3 43 [10; 20] [])
    as (s' & evs & Hrun & _ & Hq & _ & Hm & _ & Hbuf & _).
  - reflexivity.
  - reflexivity.
  - repeat constructor; unfold is_byte, HDR_START; lia.
  - reflexivity.
  - unfold is_byte; lia.
  - unfold is_byte; lia.
  - unfold is_byte; lia.
  - cbn; lia.
  - exists s'. repeat split; assumption.
Defined.

Lemma receive_returns_on_finite_script_witness :
  exists v,
    fst (pbstx_receive 4 (demo_machine [RxByte 0xa5; RxByte 1; RxTimeout] [] []))
      = Some v.
Proof.
  apply (receive_returns_on_finite_script crc8_poly07 4
           (demo_machine [RxByte 0xa5; RxByte 1; RxTimeout] [] [])).
  cbn. lia.
Defined.

Lemma single_byte_gap_does_not_lose_frame_witness :
  let s := demo_machine (map RxByte [0xa5; 7] ++ RxTimeout ::
                         map RxByte [3; 2; 10; 20; 43]) [] [] in
  exists s1 s2,
    pbstx_receive 5 s = (Some (-1), s1) /\
    pbstx_receive 5 s1 = (Some 0, s2) /\
    seq s2 = 7 /\ msgid_cell s2 = 3 /\
    payload_buf s2 = store [10; 20] (payload_buf s).
Proof.
  intros s.
  destruct (single_byte_gap_does_not_lose_frame crc8_poly07 0 0 s 7 3 43 [10; 20]
              [0xa5; 7] [3; 2; 10; 20; 43] RxTimeout [])
    as (s1 & s2 & evs1 & Hrun1 & _ & _ & Hrun2 & _ & _ & Hsq & Hm & _ & Hbuf).
  - reflexivity.
  - reflexivity.
  - reflexivity.
  - right; left; reflexivity.
  - left; reflexivity.
  - reflexivity.
  - unfold is_byte; lia.
  - unfold is_byte; lia.
  - unfold is_byte; lia.
  - cbn; lia.
  - exists s1, s2. repeat split; assumption.
Defined.

Lemma short_payload_costs_one_frame_witness :
  let s := demo_machine (map RxByte [0xa5; 7; 3; 4; 10; 20] ++ RxTimeout ::
                         map RxByte [0xa5; 8; 5; 1; 9; 90]) [] [] in
  exists s1 s2,
    pbstx_receive 4 s = (Some (-1), s1) /\
    payload_buf s1 = store [10; 20] (payload_buf s) /\
    pbstx_receive 5 s1 = (Some 0, s2) /\
    msgid_cell s2 = 5 /\
    firstn 1 (payload_buf s2) = [9].
Proof.
  intros s.
  destruct (short_payload_costs_one_frame (P:=demo) 0 0 s 7 3 4 (-1) [10; 20]
              (mkStream (map RxByte [10; 20] ++ RxTimeout ::
                         map RxByte [0xa5; 8; 5; 1; 9; 90]) [] [])
              (mkStream (map RxByte [0xa5; 8; 5; 1; 9; 90]) [] [])
              8 5 1 90 [9]
              (mkStream (map RxByte [9; 90]) [] [])
              (mkStream [RxByte 90] [] [])
              (mkStream [] [] []))
    as (s1 & s2 & evs1 & Hrun1 & _ & Hbuf & _ & _ & Hrun2 & _ & _ & Hm & _ & Hp).
  - reflexivity.
  - repeat (eapply delivers_cons; [reflexivity|reflexivity|reflexivity|]).
    apply delivers_nil.
  - intros H; discriminate H.
  - reflexivity.
  - left; reflexivity.
  - repeat (eapply delivers_cons; [reflexivity|reflexivity|reflexivity|]).
    apply delivers_nil.
  - exists 1, [9]. repeat split.
  - repeat (eapply delivers_cons; [reflexivity|reflexivity|reflexivity|]).
    apply delivers_nil.
  - exists s1, s2.
    split; [exact Hrun1|]. split; [exact Hbuf|]. split; [exact Hrun2|].
    split; [exact Hm|exact Hp].
Defined.

Lemma send_receive_round_trip_witness :
  let msgs := [(1, [2; 3]); (4, [])] in
  let rx := demo_machine
              (map RxByte [165; 0; 1; 2; 2; 3; 227; 165; 1; 4; 0; 63]) [] [] in
  tx_bytes (trace (snd (send_all msgs (demo_machine [] [] [])))) =
    [165; 0; 1; 2; 2; 3; 227; 165; 1; 4; 0; 63] /\
  fst (receive_frames 5 2 rx) = map Some msgs.
Proof.
  intros msgs rx.
  split; [vm_compute; reflexivity|].
  refine (proj1 (send_receive_round_trip crc8_poly07 0 (demo_machine [] [] [])
                   rx msgs
                   [EvLock; EvWrite [165; 0; 1; 2] 10 4; EvWrite [2; 3] 50 2;
                    EvPut 227 10 0; EvUnlock; EvLock;
                    EvWrite [165; 1; 4; 0] 10 4; EvPut 63 10 0; EvUnlock]
                   [] _ _ _ _ _ _ _)).
  - repeat constructor; cbn; unfold is_byte; cbn; lia.
  - unfold is_byte; cbn; lia.
  - vm_compute. repeat constructor.
  - vm_compute. reflexivity.
  - reflexivity.
  - reflexivity.
  - reflexivity.
Defined.

Lemma broadcast_reaches_every_live_session_witness :
  let s := demo_cstate [] [] [] [Some 10; Some 11] in
  let m := Msg_Command (mkCommand 1 5 true 105) in
  let ready := mkMessage [34; 3; 1; 5; 105] 5 in
  exists rs,
    length rs = 2%nat /\
    ctrace (snd (pbstxEncodeSendBroadcast no_message miniecu_Command_fields m s)) =
      CvBroadcast miniecu_Command_fields m ::
      CvEncodeSend 10 miniecu_Command_fields m :: sends_to ready [10; 11] rs.
Proof.
  intros s m ready.
  destruct (broadcast_reaches_every_live_session (CP:=demo_comm) no_message ready
              miniecu_Command_fields m s) as (rs & Hlen & _ & Htr & _).
  - vm_compute. reflexivity.
  - intros H; discriminate H.
  - exists rs. split; [exact Hlen | exact Htr].
Defined.

Lemma broadcast_without_sessions_is_dropped_witness :
  let s := demo_cstate [] [] [] [None; None] in
  let m := Msg_Command (mkCommand 1 5 true 105) in
  ctrace (snd (pbstxEncodeSendBroadcast no_message miniecu_Command_fields m s)) =
    [CvBroadcast miniecu_Command_fields m].
Proof.
  intros s m.
  rewrite (broadcast_without_sessions_is_dropped (CP:=demo_comm) no_message
             miniecu_Command_fields m s eq_refl).
  reflexivity.
Defined.

Lemma unencodable_broadcast_alerts_per_session_witness :
  let s := demo_cstate [] [] [] [Some 10; Some 11] in
  let t := miniecu_StatusText_fields in
  let m := Msg_StatusText (mkStatusText 1 DP_DEBUG (repeat 65 300)) in
  exists evs,
    ctrace (snd (pbstxEncodeSendBroadcast no_message t m s)) =
      CvBroadcast t m :: evs /\
    filter is_csend evs = [] /\
    unicasts evs = [(10, t, m); (11, t, m)] /\
    fst (fst (pbstxEncodeSendBroadcast no_message t m s)) = -2.
Proof.
  intros s t m.
  destruct (unencodable_broadcast_alerts_per_session (CP:=demo_comm) no_message
              t m s) as (evs & Htr & Hs & Hu & _ & Hret).
  - intros payload. exists (mkMessage [18] 0). vm_compute. reflexivity.
  - exists evs. split; [exact Htr|]. split; [exact Hs|]. split; [exact Hu|].
    apply Hret; [reflexivity|intros H; discriminate H].
Defined.

Lemma param_request_all_dumps_by_index_witness :
  let s := demo_cstate [] [] [] [Some 10; None] in
  exists evs pvs,
    ctrace (snd (recv_param_request 10 no_message [1; 1] s)) = evs /\
    broadcasts evs = map Msg_ParamValue pvs /\
    map pv_param_index pvs = [0; 1; 2].
Proof.
  intros s.
  destruct (param_request_all_dumps_by_index (CP:=demo_comm) 10 no_message [1; 1] s
              (mkParamRequest 1 false [] false 0))
    as (evs & pvs & Htr & Hb & _ & _ & Hall & _).
  - reflexivity.
  - left. reflexivity.
  - reflexivity.
  - reflexivity.
  - intros H; discriminate H.
  - exists evs, pvs. split; [exact Htr|]. split; [exact Hb|].
    apply Hall. intros w i Hi.
    change (fst (fst (demo_param_get_by_idx i w)) = 0).
    change (0 <= i < 3) in Hi.
    unfold demo_param_get_by_idx.
    destruct (Z.leb_spec 0 i); [|lia]. destruct (Z.ltb_spec i 3); [|lia].
    reflexivity.
Defined.

Lemma memory_dump_is_a_chain_of_pages_witness :
  let s := demo_cstate [] [] [] [Some 10] in
  exists evs failed,
    ctrace (snd (recv_memory_dump_request 3 10 no_message no_message
                   [5; 1; 0; 9; 4096; 130] s)) = evs /\
    paged MEM_INT_RAM 9 4096 130 (mem_reads evs) (dump_pages evs) failed.
Proof.
  intros s.
  destruct (memory_dump_is_a_chain_of_pages (CP:=demo_comm) 3 10 no_message
              no_message [5; 1; 0; 9; 4096; 130] s
              (mkMemoryDumpRequest 1 0 9 4096 130) MEM_INT_RAM)
    as (evs & failed & Htr & Hp & _).
  - reflexivity.
  - reflexivity.
  - reflexivity.
  - exists evs, failed. split; [exact Htr|exact Hp].
Defined.

Lemma memory_dump_returns_witness :
  fst (recv_memory_dump_request 70 10 no_message no_message
         [5; 1; 0; 9; 4096; 70] (demo_cstate [] [] [] [Some 10])) <> None.
Proof.
  apply (memory_dump_returns (CP:=demo_comm)).
  intros req H. cbv in H. injection H as <-. cbv. lia.
Defined.

Lemma memory_dump_ignores_foreign_and_empty_requests_witness :
  let s := demo_cstate [] [] [] [Some 10] in
  recv_memory_dump_request 3 10 no_message no_message [5; 2; 0; 9; 4096; 130] s =
    (Some no_message, s) /\
  recv_memory_dump_request 3 10 no_message no_message [5; 1; 1; 9; 4096; 0] s =
    (Some no_message, s).
Proof.
  intros s. split.
  - apply (memory_dump_ignores_foreign_and_empty_requests (CP:=demo_comm) 3 10
             no_message no_message [5; 2; 0; 9; 4096; 130] s
             (mkMemoryDumpRequest 2 0 9 4096 130)).
    + reflexivity.
    + left. intros H; discriminate H.
  - apply (memory_dump_ignores_foreign_and_empty_requests (CP:=demo_comm) 3 10
             no_message no_message [5; 1; 1; 9; 4096; 0] s
             (mkMemoryDumpRequest 1 1 9 4096 0)).
    + reflexivity.
    + right. split; [intros H; discriminate H|left; reflexivity].
Defined.

Lemma memory_dump_unknown_type_is_reported_witness :
  let s := demo_cstate [] [] [] [Some 10] in
  fst (recv_memory_dump_request 3 10 no_message no_message
         [5; 1; 7; 9; 4096; 130] s) = Some no_message /\
  exists evs,
    ctrace (snd (recv_memory_dump_request 3 10 no_message no_message
                   [5; 1; 7; 9; 4096; 130] s)) =
      CvBroadcast miniecu_StatusText_fields
        (Msg_StatusText (mkStatusText 1 DP_ERROR (fmt_memdump_unknown_type ++ [0])))
      :: evs /\
    mem_reads evs = [] /\ dump_pages evs = [].
Proof.
  intros s.
  destruct (memory_dump_unknown_type_is_reported (CP:=demo_comm) 3 10 no_message
              no_message [5; 1; 7; 9; 4096; 130] s
              (mkMemoryDumpRequest 1 7 9 4096 130))
    as (Hret & evs & Htr & _ & Hr & Hp).
  - reflexivity.
  - reflexivity.
  - reflexivity.
  - split; [exact Hret|]. exists evs. repeat split; assumption.
Defined.

Lemma memory_dump_pages_cover_the_range_witness :
  let s := demo_cstate [] [] [] [Some 10] in
  exists evs,
    ctrace (snd (recv_memory_dump_request 3 10 no_message no_message
                   [5; 1; 0; 9; 4096; 130] s)) = evs /\
    map (fun p => (mdp_address p, mdp_page_size p)) (dump_pages evs) =
      [(4096, 64); (4160, 64); (4224, 2)] /\
    broadcasts evs = [].
Proof.
  intros s.
  destruct (memory_dump_pages_cover_the_range (CP:=demo_comm) 3 10 no_message
              no_message [5; 1; 0; 9; 4096; 130] s
              (mkMemoryDumpRequest 1 0 9 4096 130) MEM_INT_RAM)
    as (evs & Htr & _ & Hp & _ & _ & _ & _ & Hb).
  - intros region address size w Hsize.
    assert (Hi : i32 size = size).
    { apply i32_small. unfold is_int32, MEMDUMP_SIZE in *. lia. }
    destruct region; exact Hi.
  - reflexivity.
  - reflexivity.
  - reflexivity.
  - cbn. lia.
  - vm_compute. lia.
  - exists evs. split; [exact Htr|]. split; [exact Hp|exact Hb].
Defined.

Lemma full_registry_turns_session_away_witness :
  fst (th_comm_pbstx 5 12 no_message no_message
         (demo_cstate [] [] [] [Some 10; Some 11])) = Some (-2).
Proof.
  rewrite (full_registry_turns_session_away (CP:=demo_comm) 5 12 no_message
             no_message (demo_cstate [] [] [] [Some 10; Some 11]) eq_refl).
  reflexivity.
Defined.

Lemma session_claims_and_releases_its_slot_witness :
  let s := demo_cstate [] [false; true] [] [Some 10; None] in
  fst (th_comm_pbstx 3 12 no_message no_message s) = Some 0 /\
  m_instances (snd (th_comm_pbstx 3 12 no_message no_message s)) =
    [Some 10; None] /\
  exists s_loop : @cstate demo_comm,
    m_instances s_loop = [Some 10; Some 12].
Proof.
  intros s.
  assert (Hfst : fst (th_comm_pbstx 3 12 no_message no_message s) = Some 0)
    by (vm_compute; reflexivity).
  split; [exact Hfst|].
  destruct (session_claims_and_releases_its_slot (CP:=demo_comm) 3 12 no_message
              no_message s (snd (th_comm_pbstx 3 12 no_message no_message s)) 0)
    as (_ & _ & _ & Hreg & s_loop & evs & _ & Hloop & _).
  - right. left. reflexivity.
  - rewrite <- Hfst. apply surjective_pairing.
  - split; [exact Hreg|]. exists s_loop. exact Hloop.
Defined.

Lemma idle_session_only_polls_witness :
  exists evs,
    ctrace (snd (comm_loop 4 10 no_message no_message 0
                   (quiet_cstate [false; false; true] [Some 10]))) = evs /\
    Forall (failed_poll (CP:=quiet_comm) 10) evs.
Proof.
  apply (idle_session_only_polls (CP:=quiet_comm) 4 10 no_message).
  - intros d m w H. discriminate H.
  - intros t w. reflexivity.
Defined.

Lemma decode_type_returns_a_listed_submessage_witness :
  exists r,
    pbstxDecodeType (CP:=demo_comm) 7 [8; 1; 34; 2; 1; 5] = Some r /\
    match r with
    | None => True
    | Some (t, rest) =>
        (length rest < 6)%nat /\
        exists f, In f demo_fields /\ f_ptr f = t /\ f_tag f <> 0 /\
                  Z.land (f_type f) 7 <> 0
    end.
Proof.
  apply (decode_type_returns_a_listed_submessage (CP:=demo_comm) 7).
  - intros s wire_type tag rest H. destruct s as [|k s]; [discriminate H|].
    injection H as _ _ <-. cbn. lia.
  - intros s wire_type.
    change (length (demo_skip_field s wire_type) <= length s)%nat.
    unfold demo_skip_field.
    destruct (wire_type =? 2); destruct s as [|n s]; cbn [skipn length];
      try rewrite length_skipn; lia.
  - cbn. lia.
Defined.

Lemma status_word_mirrors_the_checks_witness :
  let s := demo_cstate [] [] [] [Some 10] in
  exists st e,
    ctrace (snd (send_status 10 no_message s)) =
      [CvEncodeSend 10 miniecu_Status_fields (Msg_Status st); e] /\
    Z.testbit (sts_status st) 6 = true /\
    Z.testbit (sts_status st) 2 = false /\
    Z.testbit (sts_status st) 9 = false.
Proof.
  intros s.
  destruct (status_word_mirrors_the_checks (CP:=demo_comm) 10 no_message s
              [0; 1; 2; 3; 4; 5; 6; 7; 8])
    as (st & e & Htr & _ & Hbits & Hother).
  - reflexivity.
  - repeat (constructor; [cbn; intuition lia|]). constructor.
  - repeat constructor; lia.
  - exists st, e. split; [exact Htr|].
    split; [exact (Hbits 6%nat ltac:(cbn; lia))|].
    split; [exact (Hbits 2%nat ltac:(cbn; lia))|].
    apply Hother; [lia|cbn; intuition lia].
Defined.
